(** * slicer-scripts: layer-oriented G-code post-processing

    A shallow embedding of the four post-processing scripts
    [BedCool.py], [TempRamp.py], [CoastRetract.py] and [TestingTower.py],
    followed by the properties of their segmentation and of their
    [execute] methods.

    Conventions of the embedding.
    - A Python [str] is a [string]; a layer is one [string], a layer
      stream ([data]) is a [list string].
    - Python integers are [Z].  Python floats are modelled by exact
      rationals [Q]: every number the theorems below reach is a whole
      number, and on whole numbers below 2^53 binary64 arithmetic,
      [round] and the fixed-point formats are exact.
    - A Python exception is a [Raise] result; the rest of the run is
      abandoned, as in the scripts, which catch nothing. *)

From Stdlib Require Import ZArith QArith Qround Qabs String Ascii List Bool Lia.
From Stdlib Require Import DecimalString.
Import ListNotations.

Local Open Scope string_scope.
Local Open Scope Z_scope.

(* ================================================================= *)
(** ** Python primitives used by the scripts *)

Module Py.

Inductive exn : Type :=
| ValueError
| AttributeError
| ZeroDivisionError.

Inductive result (A : Type) : Type :=
| Ok (a : A)
| Raise (e : exn).
Arguments Ok {A} a.
Arguments Raise {A} e.

Definition bind {A B : Type} (m : result A) (k : A -> result B) : result B :=
  match m with
  | Ok a => k a
  | Raise e => Raise e
  end.

Definition returns {A : Type} (m : result A) : bool :=
  match m with
  | Ok _ => true
  | Raise _ => false
  end.

(** The line separator ['\n']. *)
Definition LF : ascii := "010"%char.
Definition nl : string := String LF EmptyString.

Definition len (s : string) : Z := Z.of_nat (String.length s).

(** [s.startswith(p)] *)
Definition startswith (p s : string) : bool := String.prefix p s.

Fixpoint take (n : nat) (s : string) : string :=
  match n, s with
  | S n', String c s' => String c (take n' s')
  | _, _ => EmptyString
  end.

Fixpoint drop (n : nat) (s : string) : string :=
  match n, s with
  | S n', String _ s' => drop n' s'
  | _, _ => s
  end.

(** How Python clips one bound of a slice of a sequence of length [n]. *)
Definition clip (n i : Z) : Z :=
  if i <? 0 then Z.max 0 (i + n) else Z.min i n.

(** [s[lo:hi]] *)
Definition slice (s : string) (lo hi : Z) : string :=
  let lo' := clip (len s) lo in
  let hi' := clip (len s) hi in
  take (Z.to_nat (hi' - lo')) (drop (Z.to_nat lo') s).

(** [s[lo:]] *)
Definition slice_from (s : string) (lo : Z) : string :=
  drop (Z.to_nat (clip (len s) lo)) s.

(** Lowest offset at which [sub] occurs in [s]. *)
Fixpoint index_of (sub s : string) : option nat :=
  if String.prefix sub s then Some O
  else match s with
       | EmptyString => None
       | String _ s' => option_map S (index_of sub s')
       end.

(** Highest offset at which [sub] occurs in [s]. *)
Fixpoint rindex_of (sub s : string) : option nat :=
  match s with
  | EmptyString => if String.prefix sub s then Some O else None
  | String _ s' =>
      match rindex_of sub s' with
      | Some k => Some (S k)
      | None => if String.prefix sub s then Some O else None
      end
  end.

(** [s.find(sub, start)]: the lowest index at or after [start], or -1. *)
Definition find_from (s sub : string) (start : Z) : Z :=
  let st := clip (len s) start in
  if len s <? start then -1
  else match index_of sub (drop (Z.to_nat st) s) with
       | Some k => st + Z.of_nat k
       | None => -1
       end.

(** [s.find(sub)] *)
Definition find (s sub : string) : Z := find_from s sub 0.

(** [s.rfind(sub)] *)
Definition rfind (s sub : string) : Z :=
  match rindex_of sub s with
  | Some k => Z.of_nat k
  | None => -1
  end.

(** [s.split('\n')] *)
Fixpoint split_nl (s : string) : list string :=
  match s with
  | EmptyString => [EmptyString]
  | String c s' =>
      if Ascii.eqb c LF then EmptyString :: split_nl s'
      else match split_nl s' with
           | l :: ls => String c l :: ls
           | [] => [String c EmptyString]
           end
  end.

(** ['\n'.join(lines)] *)
Definition join_nl (lines : list string) : string := String.concat nl lines.

(** What [f.writelines(data)] leaves in the file. *)
Definition writelines (data : list string) : string :=
  String.concat EmptyString data.

(** [s.rstrip(c)] for a one-character argument. *)
Fixpoint rstrip (c : ascii) (s : string) : string :=
  match s with
  | EmptyString => EmptyString
  | String a s' =>
      match rstrip c s' with
      | EmptyString => if Ascii.eqb a c then EmptyString else String a EmptyString
      | r => String a r
      end
  end.

(** [str(n)] for an integer, as ['{}'.format(n)] prints it. *)
Definition str (n : Z) : string := NilZero.string_of_int (Z.to_int n).

(** [x < y] on floats. *)
Definition Qlt_bool (x y : Q) : bool := negb (Qle_bool y x).

(** [min(x, y)] *)
Definition min2 (x y : Q) : Q := if Qlt_bool y x then y else x.

(** [round(x)]: to the nearest integer, ties to the even one. *)
Definition round (x : Q) : Z :=
  let f := Qfloor x in
  match Qcompare (x - inject_Z f) (1 # 2) with
  | Lt => f
  | Gt => f + 1
  | Eq => if Z.even f then f else f + 1
  end.

Definition is_digit (c : ascii) : bool :=
  let n := nat_of_ascii c in (48 <=? n)%nat && (n <=? 57)%nat.

Definition is_space (c : ascii) : bool :=
  let n := nat_of_ascii c in
  ((9 <=? n)%nat && (n <=? 13)%nat) || (n =? 32)%nat.

(** The longest run of decimal digits at the head of [s], and the rest. *)
Fixpoint span_digits (s : string) : string * string :=
  match s with
  | String c s' =>
      if is_digit c
      then let (d, r) := span_digits s' in (String c d, r)
      else (EmptyString, s)
  | EmptyString => (EmptyString, EmptyString)
  end.

Fixpoint digits_value (acc : Z) (s : string) : Z :=
  match s with
  | EmptyString => acc
  | String c s' => digits_value (10 * acc + (Z.of_nat (nat_of_ascii c) - 48)) s'
  end.

Fixpoint lstrip_space (s : string) : string :=
  match s with
  | String c s' => if is_space c then lstrip_space s' else s
  | EmptyString => EmptyString
  end.

Fixpoint rstrip_space (s : string) : string :=
  match s with
  | EmptyString => EmptyString
  | String a s' =>
      match rstrip_space s' with
      | EmptyString => if is_space a then EmptyString else String a EmptyString
      | r => String a r
      end
  end.

(** [float(s)] on decimal literals: surrounding white space, an optional
    sign, digits with an optional fractional part.  Anything else is a
    [ValueError].  (Exponents, underscores, [inf] and [nan], which
    Python also reads, are left out: no G-code operand in the
    statements below has that shape.) *)
Definition float (s : string) : result Q :=
  let s := rstrip_space (lstrip_space s) in
  let '(neg, s1) :=
    match s with
    | String "-" r => (true, r)
    | String "+" r => (false, r)
    | _ => (false, s)
    end in
  let '(ip, r1) := span_digits s1 in
  let '(fp, r2) :=
    match r1 with
    | String "." r => span_digits r
    | _ => (EmptyString, r1)
    end in
  match r2 with
  | EmptyString =>
      if ((String.length ip + String.length fp) =? 0)%nat then Raise ValueError
      else
        let scale := Z.pow 10 (len fp) in
        let num := digits_value 0 ip * scale + digits_value 0 fp in
        Ok (Qmake (if neg then - num else num) (Z.to_pos scale))
  | _ => Raise ValueError
  end.

Fixpoint zeros (n : nat) : string :=
  match n with
  | O => EmptyString
  | S n' => String "0" (zeros n')
  end.

(** [s] padded on the left with zeros to [w] characters. *)
Definition zero_pad (w : nat) (s : string) : string :=
  zeros (w - String.length s) ++ s.

(** ['{:.df}'.format(x)]: sign, integer part, point, [d] digits. *)
Definition format_f (d : nat) (x : Q) : string :=
  let scale := Z.pow 10 (Z.of_nat d) in
  let n := round (Qabs x * inject_Z scale) in
  let sign := if Qlt_bool x 0 then "-" else "" in
  let body := str (n / scale) in
  match d with
  | O => sign ++ body
  | _ => sign ++ body ++ "." ++ zero_pad d (str (n mod scale))
  end.

(** [lines[i:i] = new] for 0 <= i. *)
Definition insert_at {A : Type} (i : nat) (new : list A) (lines : list A) : list A :=
  (firstn i lines ++ new ++ skipn i lines)%list.

(** [lines[-1:-1] = new] and [lines.insert(-1, x)]: before the last
    element, or at the front of an empty list. *)
Definition insert_before_last {A : Type} (new : list A) (lines : list A) : list A :=
  insert_at (length lines - 1) new lines.

End Py.

Import Py.

Declare Scope py_scope.
Notation "x <- m ;; k" := (Py.bind m (fun x => k))
  (at level 61, m at next level, right associativity) : py_scope.
Notation "' p <- m ;; k" := (Py.bind m (fun x => let 'p := x in k))
  (at level 61, p pattern, m at next level, right associativity) : py_scope.
Local Open Scope py_scope.

(* ================================================================= *)
(** ** Layer segmentation (the [__main__] block shared by BedCool.py,
       TempRamp.py and TestingTower.py) *)

Module Segmenter.

Definition start_marker : string := "; custom gcode: start_gcode".
Definition end_marker : string := "; custom gcode: end_gcode".
Definition layer_marker : string := ";LAYER_CHANGE" ++ nl.

(** The [while idx != -1] loop.  Each turn moves [idx] strictly to the
    right or sets it to -1, so [fuel] bounds the number of turns; a
    loop that is cut short yields [None]. *)
Fixpoint chunks (fuel : nat) (file : string) (idx : Z) : option (list string) :=
  if idx =? -1 then Some []
  else match fuel with
       | O => None
       | S fuel' =>
           let nidx := find_from file layer_marker (idx + 1) in
           option_map (cons (slice file idx nidx)) (chunks fuel' file nidx)
       end.

(** [data[-1:] = [data[-1][0:idx], data[-1][idx:], '']] *)
Definition split_tail (data : list string) : list string :=
  let last := List.last data EmptyString in
  let idx := rfind last end_marker in
  (removelast data ++ [slice last 0 idx; slice_from last idx; EmptyString])%list.

Definition segment_fuel (fuel : nat) (file : string) : option (list string) :=
  let idx := find file start_marker in
  option_map (fun rest => split_tail (slice file 0 idx :: rest))
             (chunks fuel file idx).

(** Enough fuel for any file: see [segment_total]. *)
Definition segment (file : string) : list string :=
  match segment_fuel (S (String.length file)) file with
  | Some data => data
  | None => []
  end.

Definition join (data : list string) : string := writelines data.

End Segmenter.

(* ================================================================= *)
(** ** BedCool.py *)

Module BedCool.

(** [--num-final-layers] and [--reduce-by]; the option parser checks
    no bound on either. *)
Record options : Type := {
  num_final_layers : Z;
  reduce_by : Q
}.

Definition default_options : options :=
  {| num_final_layers := 5; reduce_by := 1 |}.

(** The minimum that [getSettingData] declares for [reduce_by]. *)
Definition reduce_by_minimum : Q := 1 # 10.

(** [for line in lines: if line.startswith('M140 S'): ...] *)
Fixpoint scan (current_bed_temp : Q) (lines : list string) : result Q :=
  match lines with
  | [] => Ok current_bed_temp
  | line :: rest =>
      if startswith "M140 S" line then
        t <- float (slice_from line 6) ;;
        scan (inject_Z (round t)) rest
      else scan current_bed_temp rest
  end.

(** One turn of the loop over [data[:-2]]: the new temperature and the
    new text of the layer. *)
Definition layer_step (reduce : Q) (change_layer_start layer_i : Z)
           (current_bed_temp : Q) (layer : string) : result (Q * string) :=
  let lines := split_nl layer in
  t <- scan current_bed_temp lines ;;
  if (change_layer_start <=? layer_i) && Qlt_bool 0 t then
    let t' := (t - reduce)%Q in
    let gcode := "M140 S" ++ str (round t') in
    Ok (t', join_nl (insert_at 1 [gcode] lines))
  else Ok (t, join_nl lines).

(** [for layer_i, layer in enumerate(data[:-2])], from [layer_i] on:
    the temperature after the last layer and the new layers. *)
Fixpoint loop (reduce : Q) (change_layer_start layer_i : Z)
         (current_bed_temp : Q) (layers : list string) : result (Q * list string) :=
  match layers with
  | [] => Ok (current_bed_temp, [])
  | layer :: rest =>
      '(t, layer') <- layer_step reduce change_layer_start layer_i current_bed_temp layer ;;
      '(t', rest') <- loop reduce change_layer_start (layer_i + 1) t rest ;;
      Ok (t', layer' :: rest')
  end.

Definition execute (o : options) (data : list string) : result (list string) :=
  let num_layers := Z.of_nat (length data) in
  let change_layer_start := (num_layers - 2) - num_final_layers o in
  '(_, body) <- loop (reduce_by o) change_layer_start 0 0
                     (firstn (length data - 2) data) ;;
  Ok (body ++ skipn (length data - 2) data)%list.

(** The standalone script: read, segment, execute, write back. *)
Definition main (o : options) (file : string) : result string :=
  data <- execute o (Segmenter.segment file) ;;
  Ok (writelines data).

End BedCool.

(* ================================================================= *)
(** ** TempRamp.py *)

Module TempRamp.

Record options : Type := { increase_by : Q }.

Definition default_options : options := {| increase_by := 1 |}.

(** The minimum that [getSettingData] declares for [increase_by]. *)
Definition increase_by_minimum : Q := 2 # 10.

(** The ramp state: [(current_temp, target_temp)]. *)
Definition state : Type := (Q * Q)%type.

(** [for line_i, line in enumerate(lines)]: the state after the lines
    and the lines with the rewritten [M104] commands. *)
Fixpoint scan (inc : Q) (st : state) (lines : list string)
  : result (state * list string) :=
  match lines with
  | [] => Ok (st, [])
  | line :: rest =>
      let '(current_temp, target_temp) := st in
      if startswith "M104 S" line then
        v <- float (slice_from line 6) ;;
        if Qeq_bool current_temp 0 then
          '(st', rest') <- scan inc (v, v) rest ;;
          Ok (st', line :: rest')
        else if Qle_bool v (current_temp + inc) then
          '(st', rest') <- scan inc (v, v) rest ;;
          Ok (st', line :: rest')
        else
          let c := (current_temp + inc)%Q in
          '(st', rest') <- scan inc (c, v) rest ;;
          Ok (st', ("M104 S" ++ str (round c)) :: rest')
      else
        '(st', rest') <- scan inc st rest ;;
        Ok (st', line :: rest')
  end.

Definition layer_step (inc : Q) (st : state) (layer : string)
  : result (state * string) :=
  '(st1, lines) <- scan inc st (split_nl layer) ;;
  let '(current_temp, target_temp) := st1 in
  if Qlt_bool current_temp target_temp then
    let c := min2 (current_temp + inc) target_temp in
    let gcode := "M104 S" ++ str (round c) in
    Ok ((c, target_temp), join_nl (insert_before_last [gcode] lines))
  else Ok (st1, join_nl lines).

Fixpoint loop (inc : Q) (st : state) (layers : list string)
  : result (state * list string) :=
  match layers with
  | [] => Ok (st, [])
  | layer :: rest =>
      '(st1, layer') <- layer_step inc st layer ;;
      '(st2, rest') <- loop inc st1 rest ;;
      Ok (st2, layer' :: rest')
  end.

Definition execute (o : options) (data : list string) : result (list string) :=
  '(_, body) <- loop (increase_by o) (0, 0)%Q (firstn (length data - 2) data) ;;
  Ok (body ++ skipn (length data - 2) data)%list.

Definition main (o : options) (file : string) : result string :=
  data <- execute o (Segmenter.segment file) ;;
  Ok (writelines data).

End TempRamp.

(* ================================================================= *)
(** ** The line templates ([re.compile] patterns) *)

Module Templates.

(** [s] without the prefix [p], when it has it. *)
Fixpoint strip_prefix (p s : string) : option string :=
  match p, s with
  | EmptyString, _ => Some s
  | String a p', String b s' => if Ascii.eqb a b then strip_prefix p' s' else None
  | String _ _, EmptyString => None
  end.

(** The longest head of [s] without a line feed: what [.+] or [.*] takes. *)
Fixpoint span_dot (s : string) : string :=
  match s with
  | String c s' => if Ascii.eqb c LF then EmptyString else String c (span_dot s')
  | EmptyString => EmptyString
  end.

Definition nonempty (s : string) : bool :=
  match s with
  | EmptyString => false
  | String _ _ => true
  end.

(** [[0-9]+[.]?[0-9]*] at the head of [s]: the text matched and the rest.
    Each piece is followed in the patterns by a character that is neither
    a digit nor a point, so the greedy match is the only one. *)
Definition span_number (s : string) : option (string * string) :=
  let '(d1, r1) := span_digits s in
  if nonempty d1 then
    match r1 with
    | String "." r2 =>
        let '(d2, r3) := span_digits r2 in Some (d1 ++ "." ++ d2, r3)
    | _ => Some (d1, r1)
    end
  else None.

(** [[0-9]+] at the head of [s], with nothing required after it. *)
Definition span_int (s : string) : option string :=
  let '(d, _) := span_digits s in
  if nonempty d then Some d else None.

(** [E<amount> F<speed>] after [G1 ], the groups in that order. *)
Definition amount_then_speed (negative : bool) (line : string) : option (list string) :=
  match strip_prefix "G1 E" line with
  | None => None
  | Some r =>
      let signed :=
        if negative then
          match r with
          | String "-" r' => option_map (fun '(a, k) => ("-" ++ a, k)) (span_number r')
          | _ => None
          end
        else span_number r in
      match signed with
      | None => None
      | Some (amount, r1) =>
          match strip_prefix " F" r1 with
          | None => None
          | Some r2 => option_map (fun speed => [amount; speed]) (span_int r2)
          end
      end
  end.

(** [retract_re.match] of the standalone branch, giving the groups of
    the match if any.  The pattern: [G1 E] at the start of the line; a
    group made of a minus sign, one or more digits, an optional point
    and further digits; [ F]; a group of one or more digits. *)
Definition retract_re_standalone : string -> option (list string) :=
  amount_then_speed true.

(** [prime_re.match] of the standalone branch: the same pattern
    without the minus sign. *)
Definition prime_re_standalone : string -> option (list string) :=
  amount_then_speed false.

(** [travel_re.match] of the standalone branch: [G1 ] at the start of
    the line and a group of one or more characters. *)
Definition travel_re_standalone (line : string) : option (list string) :=
  match strip_prefix "G1 " line with
  | Some r => let g := span_dot r in if nonempty g then Some [g] else None
  | None => None
  end.

(** [match.groups()[i]] *)
Definition group (groups : list string) (i : nat) : string :=
  nth i groups EmptyString.

End Templates.

(* ================================================================= *)
(** ** CoastRetract.py *)

Module CoastRetract.

(** The module-level names bound in either branch of
    [if __name__ == "__main__"]. *)
Record dialect : Type := {
  retract_re : string -> option (list string);
  retract_amount_i : nat;
  retract_speed_i : nat;
  travel_re : string -> option (list string)
}.

(** The standalone branch. *)
Definition standalone : dialect := {|
  retract_re := Templates.retract_re_standalone;
  retract_amount_i := 0;
  retract_speed_i := 1;
  travel_re := Templates.travel_re_standalone
|}.

(** A slot of [lines]: a string, or the [None] left by a merge. *)
Definition slot : Type := option string.

(** What the backward scan [for i in range(idx - 1, -1, -1)] ends with. *)
Inductive scan_result : Type :=
| NoMove                      (* the [else: continue] of the loop *)
| Blocked                     (* a move that already extrudes, or no template match *)
| Found (nearer : list slot) (travel : list string) (farther : list slot).

(** [before] holds [lines[idx-1]], [lines[idx-2]], ..., [lines[0]].
    Calling [startswith] on a [None] slot is an [AttributeError]. *)
Fixpoint scan_back (d : dialect) (before : list slot) : result scan_result :=
  match before with
  | [] => Ok NoMove
  | None :: _ => Raise AttributeError
  | Some l :: farther =>
      if negb (startswith "G" l) then
        r <- scan_back d farther ;;
        Ok match r with
           | Found nearer t f => Found (Some l :: nearer) t f
           | other => other
           end
      else
        let travel_match := travel_re d l in
        let travel_match :=
          if negb (find l " E" =? -1) then None else travel_match in
        Ok match travel_match with
           | Some t => Found [] t farther
           | None => Blocked
           end
  end.

(** The combined move written over [lines[i]]. *)
Definition combined (d : dialect) (groups travel : list string) : result string :=
  amount <- float (Templates.group groups (retract_amount_i d)) ;;
  s <- float (Templates.group groups (retract_speed_i d)) ;;
  let speed := round s in
  let line := "G1 F" ++ str speed ++ " " ++ Templates.group travel 0
                     ++ " E" ++ format_f 3 amount in
  Ok (rstrip "." (rstrip "0" line)).

(** [for idx, line in enumerate(lines)]: [before] is the reversed list
    of the slots already visited, [todo] the lines still to visit. *)
Fixpoint visit (d : dialect) (before : list slot) (todo : list string)
  : result (list slot) :=
  match todo with
  | [] => Ok (rev before)
  | line :: rest =>
      match retract_re d line with
      | None => visit d (Some line :: before) rest
      | Some groups =>
          r <- scan_back d before ;;
          match r with
          | Found nearer travel farther =>
              c <- combined d groups travel ;;
              visit d (None :: nearer ++ Some c :: farther)%list rest
          | _ => visit d (Some line :: before) rest
          end
      end
  end.

(** [line for line in lines if line is not None] *)
Fixpoint live (lines : list slot) : list string :=
  match lines with
  | [] => []
  | Some l :: rest => l :: live rest
  | None :: rest => live rest
  end.

Definition do_layer (d : dialect) (layer : string) : result string :=
  lines <- visit d [] (split_nl layer) ;;
  Ok (join_nl (live lines)).

Fixpoint execute (d : dialect) (data : list string) : result (list string) :=
  match data with
  | [] => Ok []
  | layer :: rest =>
      layer' <- do_layer d layer ;;
      rest' <- execute d rest ;;
      Ok (layer' :: rest')
  end.

(** The standalone script hands the whole file over as one layer. *)
Definition main (file : string) : result string :=
  data <- execute standalone [file] ;;
  Ok (writelines data).

End CoastRetract.

(* ================================================================= *)
(** ** TestingTower.py *)

Module TestingTower.

(** The choices of [--command]. *)
Inductive command_choice : Type :=
| speed | acceleration | tacceleration | pacceleration | racceleration
| eacceleration | jerk | zjerk | ejerk | junction | lin_advance
| nozzle_temp | bed_temp | retract_speed | retract_distance
| prime_speed | extra_prime.

Definition command_eqb (a b : command_choice) : bool :=
  match a, b with
  | speed, speed | acceleration, acceleration | tacceleration, tacceleration
  | pacceleration, pacceleration | racceleration, racceleration
  | eacceleration, eacceleration | jerk, jerk | zjerk, zjerk | ejerk, ejerk
  | junction, junction | lin_advance, lin_advance | nozzle_temp, nozzle_temp
  | bed_temp, bed_temp | retract_speed, retract_speed
  | retract_distance, retract_distance | prime_speed, prime_speed
  | extra_prime, extra_prime => true
  | _, _ => false
  end.

Record settings : Type := {
  command : command_choice;
  start_value : Q;
  value_change : Q;
  start_layer : Z;
  change_value_every : Z
}.

(** The module-level templates of either branch. *)
Record dialect : Type := {
  retract_re : string -> option (list string);
  prime_re : string -> option (list string);
  re_amount_i : nat;
  re_speed_i : nat
}.

Definition standalone : dialect := {|
  retract_re := Templates.retract_re_standalone;
  prime_re := Templates.prime_re_standalone;
  re_amount_i := 0;
  re_speed_i := 1
|}.

(** The [if command == ...] chain: [gcode] (absent for the commands
    that rewrite moves) and [lcd_gcode].  [first] is
    [layer_i == start_layer]. *)
Definition setter (c : command_choice) (first : bool) (current_value : Q)
  : option string * string :=
  let int_setter (word label : string) :=
    let gcode := word ++ str (round current_value) in
    (Some gcode, "M117 " ++ label ++ " " ++ gcode) in
  let fixed_setter (gcode label : string) :=
    (Some gcode, "M117 " ++ label ++ " " ++ gcode) in
  match c with
  | speed =>
      let gcode := "M220 S" ++ str (round current_value) in
      let lcd_gcode := "M117 Speed " ++ gcode in
      (Some (if first then "M220 B" ++ nl ++ gcode else gcode), lcd_gcode)
  | acceleration => int_setter "M204 S" "Accel"
  | tacceleration => int_setter "M204 T" "TAccel"
  | pacceleration => int_setter "M204 P" "PAccel"
  | racceleration => int_setter "M204 R" "RAccel"
  | eacceleration => int_setter "M201 E" "EAccel"
  | jerk =>
      fixed_setter ("M205 X" ++ format_f 2 current_value
                             ++ " Y" ++ format_f 2 current_value) "XYJerk"
  | zjerk => fixed_setter ("M205 Z" ++ format_f 2 current_value) "ZJerk"
  | ejerk => fixed_setter ("M205 E" ++ format_f 2 current_value) "EJerk"
  | junction => fixed_setter ("M205 J" ++ format_f 3 current_value) "Junction"
  | lin_advance => fixed_setter ("M900 K" ++ format_f 3 current_value) "Lin Adv"
  | nozzle_temp => int_setter "M104 S" "Nozzle Temp"
  | bed_temp => int_setter "M104 S" "Bed Temp"
  | retract_speed => (None, "M117 Retract Speed " ++ str (round current_value))
  | retract_distance => (None, "M117 Retract Dist " ++ format_f 3 current_value)
  | prime_speed => (None, "M117 Prime Speed " ++ str (round current_value))
  | extra_prime => (None, "M117 Extra Prime " ++ format_f 3 current_value)
  end.

(** [lines[1:1] = [gcode, lcd_gcode] if gcode else [lcd_gcode]] *)
Definition announce (c : command_choice) (first : bool) (current_value : Q)
           (lines : list string) : list string :=
  match setter c first current_value with
  | (Some gcode, lcd_gcode) => insert_at 1 [gcode; lcd_gcode] lines
  | (None, lcd_gcode) => insert_at 1 [lcd_gcode] lines
  end.

(** ['{:.3f}'.format(-x)]: the negation of 0.0 is -0.0, which is
    printed with its sign. *)
Definition format_neg_3f (x : Q) : string :=
  if Qeq_bool x 0 then "-" ++ format_f 3 0 else format_f 3 (- x).

(** [for line_i, line in enumerate(lines)]: the rewriting of the
    retract and prime moves of one layer; [current_prime] is threaded
    through, and on to the next layer. *)
Fixpoint rewrite_moves (d : dialect) (c : command_choice) (current_value : Q)
         (current_prime : Q) (lines : list string) : result (Q * list string) :=
  match lines with
  | [] => Ok (current_prime, [])
  | line :: rest =>
      let keep cp new_line :=
        '(cp', rest') <- rewrite_moves d c current_value cp rest ;;
        Ok (cp', new_line :: rest') in
      match c with
      | retract_speed =>
          match retract_re d line with
          | Some g =>
              keep current_prime
                   ("G1 F" ++ str (round (current_value * 60))
                           ++ " E" ++ Templates.group g (re_amount_i d))
          | None => keep current_prime line
          end
      | retract_distance =>
          match retract_re d line with
          | Some g =>
              keep current_value
                   ("G1 F" ++ Templates.group g (re_speed_i d)
                           ++ " E" ++ format_neg_3f current_value)
          | None =>
              match prime_re d line with
              | Some g =>
                  if negb (Qeq_bool current_prime (-1))
                  then keep current_prime
                            ("G1 F" ++ Templates.group g (re_speed_i d)
                                    ++ " E" ++ format_f 3 current_prime)
                  else keep current_prime line
              | None => keep current_prime line
              end
          end
      | prime_speed =>
          match prime_re d line with
          | Some g =>
              keep current_prime
                   ("G1 F" ++ str (round (current_value * 60))
                           ++ " E" ++ Templates.group g (re_amount_i d))
          | None => keep current_prime line
          end
      | extra_prime =>
          match prime_re d line with
          | Some g =>
              a <- float (Templates.group g (re_amount_i d)) ;;
              let prime_distance := (a + current_value)%Q in
              keep current_prime
                   ("G1 F" ++ Templates.group g (re_speed_i d)
                           ++ " E" ++ format_f 3 prime_distance)
          | None => keep current_prime line
          end
      | _ => keep current_prime line
      end
  end.

(** The loop state: [(current_value, current_prime)]. *)
Definition state : Type := (Q * Q)%type.

(** One turn of [for layer_i, layer in enumerate(data[:-2])];
    [start] is [start_layer] after [start_layer += 2]. *)
Definition layer_step (d : dialect) (s : settings) (start num_layers layer_i : Z)
           (st : state) (layer : string) : result (state * string) :=
  let '(current_value, current_prime) := st in
  if layer_i <? start then Ok (st, layer)
  else
    let lines := split_nl layer in
    '(current_value, lines) <-
       (if change_value_every s =? 0 then Raise ZeroDivisionError
        else if (layer_i - start) mod change_value_every s =? 0 then
          let v := (current_value + value_change s)%Q in
          Ok (v, announce (command s) (layer_i =? start) v lines)
        else Ok (current_value, lines)) ;;
    '(current_prime, lines) <-
       rewrite_moves d (command s) current_value current_prime lines ;;
    let lines :=
      if (layer_i =? num_layers - 3) && command_eqb (command s) speed
      then insert_before_last ["M220 R"] lines
      else lines in
    Ok ((current_value, current_prime), join_nl lines).

Fixpoint loop (d : dialect) (s : settings) (start num_layers layer_i : Z)
         (st : state) (layers : list string) : result (state * list string) :=
  match layers with
  | [] => Ok (st, [])
  | layer :: rest =>
      '(st1, layer') <- layer_step d s start num_layers layer_i st layer ;;
      '(st2, rest') <- loop d s start num_layers (layer_i + 1) st1 rest ;;
      Ok (st2, layer' :: rest')
  end.

Definition execute (d : dialect) (s : settings) (data : list string)
  : result (list string) :=
  let start := start_layer s + 2 in
  let current_value := (start_value s - value_change s)%Q in
  let num_layers := Z.of_nat (length data) in
  '(_, body) <- loop d s start num_layers 0 (current_value, (-1)%Q)
                     (firstn (length data - 2) data) ;;
  Ok (body ++ skipn (length data - 2) data)%list.

Definition main (s : settings) (file : string) : result string :=
  data <- execute standalone s (Segmenter.segment file) ;;
  Ok (writelines data).

End TestingTower.

(* ================================================================= *)
(** ** The templates of the Cura branch

    When the scripts are loaded by Cura, the [else] branch of
    [if __name__ == "__main__"] binds the templates: the feed rate
    comes before the extrusion, and a travel move may be a [G0] and
    may carry a feed rate. *)

Module Cura.

(** [F<speed> E<amount>] after [G1 ], the groups in that order: [G1 F]
    at the start of the line, a group of one or more digits, [ E], and
    a group made of the minus sign if [negative], one or more digits,
    an optional point and further digits.  The digits of the speed are
    followed by a space, so the greedy match is the only one. *)
Definition speed_then_amount (negative : bool) (line : string) : option (list string) :=
  match Templates.strip_prefix "G1 F" line with
  | None => None
  | Some r =>
      let '(speed, r1) := span_digits r in
      if Templates.nonempty speed then
        match Templates.strip_prefix " E" r1 with
        | None => None
        | Some r2 =>
            let signed :=
              if negative then
                match r2 with
                | String "-" r' =>
                    option_map (fun '(a, k) => ("-" ++ a, k)) (Templates.span_number r')
                | _ => None
                end
              else Templates.span_number r2 in
            option_map (fun '(amount, _) => [speed; amount]) signed
        end
      else None
  end.

Definition retract_re : string -> option (list string) := speed_then_amount true.

Definition prime_re : string -> option (list string) := speed_then_amount false.

(** The end of the travel template: digits if any, a space, and a
    group of one or more characters.  Giving back digits cannot help,
    since a digit is no space. *)
Definition after_feed (s : string) : option (list string) :=
  let '(_, r) := span_digits s in
  match r with
  | String c r' =>
      if Ascii.eqb c " " then
        let g := Templates.span_dot r' in
        if Templates.nonempty g then Some [g] else None
      else None
  | EmptyString => None
  end.

(** [travel_re.match]: [G0] or [G1] at the start of the line, an
    optional space, an optional [F], digits if any, a space, and a
    group of one or more characters.  The matcher first takes the
    optional space and the optional [F] when they are there; when the
    rest does not match with the space taken, it leaves the space to
    be the one the template asks for, and then neither [F] nor digits
    can come before it. *)
Definition travel_re (line : string) : option (list string) :=
  match line with
  | String g (String n r) =>
      if Ascii.eqb g "G" && (Ascii.eqb n "0" || Ascii.eqb n "1") then
        match r with
        | String c r1 =>
            if Ascii.eqb c " " then
              let taken :=
                match r1 with
                | String f r2 => if Ascii.eqb f "F" then after_feed r2 else after_feed r1
                | EmptyString => None
                end in
              match taken with
              | Some groups => Some groups
              | None =>
                  let g := Templates.span_dot r1 in
                  if Templates.nonempty g then Some [g] else None
              end
            else if Ascii.eqb c "F" then after_feed r1
            else after_feed r
        | EmptyString => None
        end
      else None
  | _ => None
  end.

(** The names bound for CoastRetract. *)
Definition coast_retract : CoastRetract.dialect := {|
  CoastRetract.retract_re := retract_re;
  CoastRetract.retract_amount_i := 1;
  CoastRetract.retract_speed_i := 0;
  CoastRetract.travel_re := travel_re
|}.

(** The names bound for TestingTower. *)
Definition testing_tower : TestingTower.dialect := {|
  TestingTower.retract_re := retract_re;
  TestingTower.prime_re := prime_re;
  TestingTower.re_amount_i := 1;
  TestingTower.re_speed_i := 0
|}.

End Cura.

(* ================================================================= *)
(** ** Sample files *)

(** A file with the three markers and two layer changes. *)
Definition sample_gcode : string :=
  join_nl ["G28"; "; custom gcode: start_gcode"; "M140 S60"; ";LAYER_CHANGE";
           "G1 X1"; ";LAYER_CHANGE"; "G1 X2"; "; custom gcode: end_gcode";
           "M84"; ""].

(** A text with neither a start nor an end marker. *)
Definition unmarked_gcode : string := join_nl ["M140 S60"; "G1 X1"; ""].

(** A file whose nozzle temperature is raised in its first layer. *)
Definition warmup_gcode : string :=
  join_nl ["M104 S190"; "; custom gcode: start_gcode"; "G28"; ";LAYER_CHANGE";
           "M104 S210"; "G1 X1"; ";LAYER_CHANGE"; "G1 X2"; ";LAYER_CHANGE";
           "G1 X3"; "; custom gcode: end_gcode"; "M84"; ""].

(* ================================================================= *)
(** ** Vocabulary of the statements *)

(** The lines BedCool reads as bed-temperature commands. *)
Definition is_bed_cmd (line : string) : bool := startswith "M140 S" line.

Definition bed_cmds (layer : string) : list string :=
  filter is_bed_cmd (split_nl layer).

(** The operand of the line reads as a number that rounds to [t]. *)
Definition sets_temp (t : Z) (line : string) : Prop :=
  exists v, float (slice_from line 6) = Ok v /\ round v = t.

(** The layer with [line] put in right after its first line. *)
Definition with_second_line (line layer : string) : string :=
  join_nl (insert_at 1 [line] (split_nl layer)).

(** A stream of nine layers: the bed is set to 60 in the start G-code
    and nowhere else. *)
Definition nine_layers : list string :=
  [join_nl ["G28"; ""];
   join_nl ["; custom gcode: start_gcode"; "M140 S60"; ""];
   join_nl [";LAYER_CHANGE"; "G1 X1"; ""];
   join_nl [";LAYER_CHANGE"; "G1 X2"; ""];
   join_nl [";LAYER_CHANGE"; "G1 X3"; ""];
   join_nl [";LAYER_CHANGE"; "G1 X4"; ""];
   join_nl [";LAYER_CHANGE"; "G1 X5"; ""];
   join_nl ["; custom gcode: end_gcode"; "M84"];
   ""].

(** The lines TempRamp reads as nozzle-temperature commands. *)
Definition is_nozzle_cmd (line : string) : bool := startswith "M104 S" line.

Definition nozzle_cmds (lines : list string) : list string :=
  filter is_nozzle_cmd lines.

Definition layer_nozzle_cmds (layer : string) : list string :=
  nozzle_cmds (split_nl layer).

(** The layer with [line] put in before its last line. *)
Definition with_line_before_last (line layer : string) : string :=
  join_nl (insert_before_last [line] (split_nl layer)).

(** The layers with one nozzle command each, for [t], [t + 1], ... *)
Fixpoint warmed (t : Z) (layers : list string) : list string :=
  match layers with
  | [] => []
  | layer :: rest =>
      with_line_before_last ("M104 S" ++ str t) layer :: warmed (t + 1) rest
  end.

(** A stream that prints its first layers at 190 degrees and asks for
    210 at the first layer change; 24 layers in all. *)
Definition warmup_stream : list string :=
  ([join_nl ["M104 S190"; ""];
    join_nl ["; custom gcode: start_gcode"; "G28"; ""];
    join_nl [";LAYER_CHANGE"; "M104 S210"; "G1 X1"; ""]]
   ++ repeat (join_nl [";LAYER_CHANGE"; "G1 X2"; ""]) 19
   ++ [join_nl ["; custom gcode: end_gcode"; "M84"]; ""])%list.

(** What the speed sweep from 100 by 1 writes after the first line of
    its [k]-th layer, counted from 0 at the start layer. *)
Definition speed_lines (k : Z) : list string :=
  let gcode := "M220 S" ++ str (100 + k) in
  [if k =? 0 then "M220 B" ++ nl ++ gcode else gcode; "M117 Speed " ++ gcode].

(** The swept layers: the [k]-th and following ones with their lines
    put in; the last one also gets [M220 R] before its last line. *)
Fixpoint swept (k : Z) (layers : list string) : list string :=
  match layers with
  | [] => []
  | layer :: rest =>
      let lines := insert_at 1 (speed_lines k) (split_nl layer) in
      join_nl match rest with
              | [] => insert_before_last ["M220 R"] lines
              | _ :: _ => lines
              end
      :: swept (k + 1) rest
  end.

Definition speed_from_100 (start_layer : Z) : TestingTower.settings :=
  {| TestingTower.command := TestingTower.speed;
     TestingTower.start_value := 100;
     TestingTower.value_change := 1;
     TestingTower.start_layer := start_layer;
     TestingTower.change_value_every := 1 |}.

(** A stream with a prelude, the start G-code, four printed layers and
    the reserved tail. *)
Definition tower_layers : list string :=
  [join_nl ["G28"; ""];
   join_nl ["; custom gcode: start_gcode"; "M140 S60"; ""];
   join_nl [";LAYER_CHANGE"; "G1 X1"; ""];
   join_nl [";LAYER_CHANGE"; "G1 X2"; ""];
   join_nl [";LAYER_CHANGE"; "G1 X3"; ""];
   join_nl [";LAYER_CHANGE"; "G1 X4"; ""];
   join_nl ["; custom gcode: end_gcode"; "M84"];
   ""].

(** The lines that bound the layers: the layer-change marker and the
    two markers of the start and end G-code. *)
Definition is_marker (line : string) : bool :=
  startswith ";LAYER_CHANGE" line
  || startswith Segmenter.start_marker line
  || startswith Segmenter.end_marker line.

(** A string that is one line: splitting it gives it back. *)
Definition one_line (s : string) : Prop := split_nl s = [s].

(** A list rewritten by keeping entries, putting in entries that
    satisfy [ins] and taking out entries that satisfy [del]; replacing
    an entry is taking it out and putting another in. *)
Inductive edits (ins del : string -> Prop) : list string -> list string -> Prop :=
| edits_nil : edits ins del [] []
| edits_keep (l : string) (ls ls' : list string) :
    edits ins del ls ls' -> edits ins del (l :: ls) (l :: ls')
| edits_insert (new : string) (ls ls' : list string) :
    ins new -> edits ins del ls ls' -> edits ins del ls (new :: ls')
| edits_delete (l : string) (ls ls' : list string) :
    del l -> edits ins del ls ls' -> edits ins del (l :: ls) ls'.

Definition not_marker (line : string) : Prop := is_marker line = false.

(** Lines rewritten without touching a marker line. *)
Definition edited : list string -> list string -> Prop :=
  edits not_marker not_marker.

(** What an engine may do to a layer: rewrite lines that are not
    markers; and a marker on the first line stays there, if the layer
    has a second line. *)
Definition layer_kept (layer layer' : string) : Prop :=
  edited (split_nl layer) (split_nl layer') /\
  (forall (m : string) (rest : list string),
      split_nl layer = m :: rest -> rest <> [] -> is_marker m = true ->
      exists rest', split_nl layer' = m :: rest').


(** The entries of a layer before they are joined: an entry put in may
    hold several lines, none of them a marker. *)
Definition spliced : list string -> list string -> Prop :=
  edits (fun x => Forall not_marker (split_nl x)) not_marker.

(** Entry by entry: kept, or an entry that is no marker replaced by
    lines that are no markers. *)
Definition replaced (x y : string) : Prop :=
  y = x \/ (not_marker x /\ Forall not_marker (split_nl y)).

(** A line and what its slot holds in CoastRetract: the line, a line
    that replaces it, or [None]; a marker stays as it is. *)
Definition slot_kept (x : string) (s : CoastRetract.slot) : Prop :=
  match s with
  | Some y => y = x \/ (not_marker x /\ not_marker y /\ one_line y)
  | None => not_marker x
  end.

(** What BedCool returns for [nine_layers]. *)
Definition nine_layers_cooled : list string :=
  [join_nl ["G28"; ""];
   join_nl ["; custom gcode: start_gcode"; "M140 S60"; ""];
   join_nl [";LAYER_CHANGE"; "M140 S59"; "G1 X1"; ""];
   join_nl [";LAYER_CHANGE"; "M140 S58"; "G1 X2"; ""];
   join_nl [";LAYER_CHANGE"; "M140 S57"; "G1 X3"; ""];
   join_nl [";LAYER_CHANGE"; "M140 S56"; "G1 X4"; ""];
   join_nl [";LAYER_CHANGE"; "M140 S55"; "G1 X5"; ""];
   join_nl ["; custom gcode: end_gcode"; "M84"];
   ""].



(** [c in s] for one character. *)
Fixpoint mentions (c : ascii) (s : string) : bool :=
  match s with
  | EmptyString => false
  | String a s' => Ascii.eqb a c || mentions c s'
  end.






(** The four commands of TestingTower that rewrite moves; the other
    thirteen write a setter and a status line. *)
Definition rewrites_moves (c : TestingTower.command_choice) : bool :=
  match c with
  | TestingTower.retract_speed | TestingTower.retract_distance
  | TestingTower.prime_speed | TestingTower.extra_prime => true
  | _ => false
  end.

(** Lines put in, no line changed or taken out. *)
Definition only_inserted : list string -> list string -> Prop :=
  edits (fun _ => True) (fun _ => False).



(** A move that can take a retract in: it starts with [G], holds no
    [ E] and matches the travel template. *)
Definition takes_retract (d : CoastRetract.dialect) (l : string) : bool :=
  startswith "G" l && (find l " E" =? -1)
  && match CoastRetract.travel_re d l with Some _ => true | None => false end.

(** The lines that are no moves. *)
Definition other_lines (lines : list string) : list string :=
  filter (fun l => negb (startswith "G" l)) lines.

(** A backward scan that found no move to merge into. *)
Definition no_move (r : CoastRetract.scan_result) : Prop :=
  match r with
  | CoastRetract.Found _ _ _ => False
  | _ => True
  end.

(** Slots in which no retract that is left can be merged: the scan
    from each of them, over the lines left below it, finds no move. *)
Fixpoint settled (d : CoastRetract.dialect) (before : list CoastRetract.slot) : Prop :=
  match before with
  | [] => True
  | Some y :: below =>
      (CoastRetract.retract_re d y <> None ->
       exists r,
         CoastRetract.scan_back d (map Some (CoastRetract.live below)) = Ok r /\
         no_move r)
      /\ settled d below
  | None :: below => settled d below
  end.


(** The templates CoastRetract runs with: those of the standalone
    script or those of the Cura branch. *)
Definition coast_dialect (d : CoastRetract.dialect) : Prop :=
  d = CoastRetract.standalone \/ d = Cura.coast_retract.



(* ================================================================= *)
(** * Properties *)

(** ** Strings, slices and searches *)

Section StringFacts.

Lemma append_empty_r (s : string) : s ++ "" = s.
Proof. induction s as [|c s IH]; simpl; [reflexivity | now rewrite IH]. Qed.

Lemma append_assoc (a b c : string) : (a ++ b) ++ c = a ++ (b ++ c).
Proof. induction a as [|x a IH]; simpl; [reflexivity | now rewrite IH]. Qed.

Lemma length_append (a b : string) :
  String.length (a ++ b) = (String.length a + String.length b)%nat.
Proof. induction a as [|x a IH]; simpl; [reflexivity | now rewrite IH]. Qed.

Lemma take_drop (n : nat) (s : string) : take n s ++ drop n s = s.
Proof.
  revert s; induction n as [|n IH]; intros [|c s]; simpl; try reflexivity.
  now rewrite IH.
Qed.

Lemma length_drop (n : nat) (s : string) :
  String.length (drop n s) = (String.length s - n)%nat.
Proof.
  revert s; induction n as [|n IH]; intros [|c s]; simpl; auto.
Qed.

Lemma drop_add (n m : nat) (s : string) : drop (n + m) s = drop m (drop n s).
Proof.
  revert s; induction n as [|n IH]; intros s; simpl; [reflexivity|].
  destruct s as [|c s]; simpl; [now destruct m | apply IH].
Qed.

Lemma take_add (n m : nat) (s : string) :
  take (n + m) s = take n s ++ take m (drop n s).
Proof.
  revert s; induction n as [|n IH]; intros s; simpl; [reflexivity|].
  destruct s as [|c s]; simpl; [now destruct m | now rewrite IH].
Qed.

Lemma prefix_length (p s : string) :
  String.prefix p s = true -> (String.length p <= String.length s)%nat.
Proof.
  revert s; induction p as [|a p IH]; intros [|b s] H; simpl in *;
    try lia; try discriminate.
  destruct (ascii_dec a b); [|discriminate].
  apply IH in H; lia.
Qed.

Lemma index_of_bound (sub s : string) (k : nat) :
  index_of sub s = Some k ->
  (k + String.length sub <= String.length s)%nat.
Proof.
  revert k; induction s as [|c s IH]; intros k.
  - destruct sub; simpl; [intros [= <-]; simpl; lia | discriminate].
  - change (index_of sub (String c s))
      with (if String.prefix sub (String c s) then Some O
            else option_map S (index_of sub s)).
    destruct (String.prefix sub (String c s)) eqn:E.
    + intros [= <-]; apply prefix_length in E; simpl in *; lia.
    + destruct (index_of sub s) as [j|]; simpl; [|discriminate].
      intros [= <-]; specialize (IH j eq_refl); lia.
Qed.

(** Where [find] can land: nowhere, or on a whole occurrence at or
    after the starting point. *)
Lemma find_from_range (s sub : string) (start : Z) :
  0 <= start ->
  find_from s sub start = -1 \/
  (start <= find_from s sub start /\ find_from s sub start + len sub <= len s).
Proof.
  intros Hs; unfold find_from, clip, len.
  destruct (Z.ltb_spec (Z.of_nat (String.length s)) start); [now left|].
  destruct (Z.ltb_spec start 0); [lia|].
  rewrite Z.min_l by lia.
  destruct (index_of sub (drop (Z.to_nat start) s)) as [k|] eqn:E; [right | now left].
  apply index_of_bound in E; rewrite length_drop in E; lia.
Qed.

Lemma clip_minus_one (n : Z) : clip n (-1) = Z.max 0 (n - 1).
Proof. unfold clip; change (-1 <? 0) with true; cbv iota; lia. Qed.

Lemma slice_whole_split (s : string) (i : Z) :
  slice s 0 i ++ slice_from s i = s.
Proof.
  unfold slice, slice_from.
  replace (clip (len s) 0) with 0
    by (unfold clip, len; simpl; lia).
  simpl drop; rewrite Z.sub_0_r; apply take_drop.
Qed.

Lemma slice_append (s : string) (a b c : Z) :
  0 <= a <= b -> b <= clip (len s) c -> b <= len s ->
  slice s a b ++ slice s b c = slice s a c.
Proof.
  intros Hab Hbc Hb; unfold slice.
  assert (Ha : clip (len s) a = a)
    by (unfold clip; destruct (Z.ltb_spec a 0); lia).
  assert (Hb' : clip (len s) b = b)
    by (unfold clip; destruct (Z.ltb_spec b 0); lia).
  rewrite Ha, Hb'.
  replace (Z.to_nat b) with (Z.to_nat a + Z.to_nat (b - a))%nat by lia.
  rewrite drop_add.
  replace (Z.to_nat (clip (len s) c - a))
    with (Z.to_nat (b - a) + Z.to_nat (clip (len s) c - b))%nat by lia.
  now rewrite take_add.
Qed.

Lemma writelines_cons (x : string) (l : list string) :
  writelines (x :: l) = x ++ writelines l.
Proof.
  unfold writelines; destruct l; simpl; [now rewrite append_empty_r | reflexivity].
Qed.

Lemma writelines_app (l1 l2 : list string) :
  writelines (l1 ++ l2) = writelines l1 ++ writelines l2.
Proof.
  induction l1 as [|x l1 IH]; [reflexivity|].
  rewrite <- app_comm_cons, !writelines_cons, IH; now rewrite append_assoc.
Qed.

End StringFacts.

(** ** Segmentation and write-back *)

Section Segmentation.

Import Segmenter.

Lemma split_tail_join (data : list string) :
  data <> [] -> writelines (split_tail data) = writelines data.
Proof.
  intros Hne; unfold split_tail.
  replace (writelines data)
    with (writelines (removelast data ++ [List.last data EmptyString]))
    by (now rewrite <- app_removelast_last).
  rewrite !writelines_app, !writelines_cons.
  change (writelines []) with EmptyString.
  now rewrite !append_empty_r, slice_whole_split.
Qed.

Lemma chunks_done (fuel : nat) (file : string) :
  chunks fuel file (-1) = Some [].
Proof. destruct fuel; reflexivity. Qed.

(** The chunks cut from [idx] on add up to the file from [idx] to just
    before its last character: the last turn of the loop slices with
    the [-1] that [find] returned. *)
Lemma chunks_join (fuel : nat) (file : string) :
  forall (idx : Z) (data : list string),
    0 <= idx -> idx + 1 <= len file ->
    chunks fuel file idx = Some data ->
    writelines data = slice file idx (-1).
Proof.
  induction fuel as [|fuel IH]; intros idx data H0 Hlen; simpl.
  - destruct (Z.eqb_spec idx (-1)); [lia | discriminate].
  - destruct (Z.eqb_spec idx (-1)); [lia|].
    remember (find_from file layer_marker (idx + 1)) as nidx eqn:En.
    destruct (find_from_range file layer_marker (idx + 1)) as [E | [Hlo Hhi]];
      [lia | |]; rewrite <- En in *.
    + rewrite E, chunks_done; simpl.
      intros [= <-]; unfold writelines; reflexivity.
    + change (len layer_marker) with 14 in Hhi.
      destruct (chunks fuel file nidx) as [rest|] eqn:E; simpl; [|discriminate].
      intros [= <-]; rewrite writelines_cons.
      rewrite (IH nidx rest) by (lia || assumption).
      apply slice_append; rewrite ?clip_minus_one; lia.
Qed.

Lemma chunks_enough_fuel (fuel : nat) (file : string) :
  forall idx : Z,
    idx = -1 \/ (0 <= idx <= len file /\ len file - idx < Z.of_nat fuel) ->
    exists data, chunks fuel file idx = Some data.
Proof.
  induction fuel as [|fuel IH]; intros idx [-> | [Hr Hf]]; simpl;
    try (now exists []); try lia.
  destruct (Z.eqb_spec idx (-1)); [now exists []|].
  destruct (find_from_range file layer_marker (idx + 1)) as [E | [Hlo Hhi]];
    [lia | |].
  - rewrite E, chunks_done; simpl; eexists; reflexivity.
  - change (len layer_marker) with 14 in Hhi.
    destruct (IH (find_from file layer_marker (idx + 1))) as [rest ->];
      [right; lia|].
    simpl; eexists; reflexivity.
Qed.

Lemma find_start_range (file : string) :
  find file start_marker = -1 \/
  (0 <= find file start_marker /\ find file start_marker + 27 <= len file).
Proof.
  destruct (find_from_range file start_marker 0) as [E | [Hlo Hhi]];
    [lia | now left | right].
  unfold find; change (len start_marker) with 27 in Hhi; lia.
Qed.

(** The loop of the segmentation always comes to its end. *)
Lemma segment_total (file : string) :
  exists data,
    segment_fuel (S (String.length file)) file = Some data /\ data <> [].
Proof.
  unfold segment_fuel.
  destruct (chunks_enough_fuel (S (String.length file)) file
              (find file start_marker)) as [rest E].
  - destruct (find_start_range file) as [? | ?]; [now left | right].
    unfold len in *; lia.
  - rewrite E; simpl; eexists; split; [reflexivity|].
    unfold split_tail; intros H; apply (f_equal (@length string)) in H.
    rewrite length_app in H; simpl in H; lia.
Qed.

Lemma segment_fuel_join (file : string) (data : list string) :
  segment_fuel (S (String.length file)) file = Some data ->
  writelines data = slice file 0 (-1).
Proof.
  unfold segment_fuel.
  destruct (chunks (S (String.length file)) file (find file start_marker))
    as [rest|] eqn:E; simpl; [|discriminate].
  intros [= <-].
  rewrite split_tail_join by discriminate.
  rewrite writelines_cons.
  destruct (find_start_range file) as [Hm | [Hlo Hhi]].
  - rewrite Hm in *; rewrite chunks_done in E.
    injection E as <-; unfold writelines; simpl; apply append_empty_r.
  - assert (Hl : find file start_marker + 1 <= len file) by lia.
    rewrite (chunks_join _ _ _ _ Hlo Hl E).
    apply slice_append; rewrite ?clip_minus_one; lia.
Qed.

Lemma segment_is_fuelled (file : string) (data : list string) :
  segment_fuel (S (String.length file)) file = Some data ->
  segment file = data.
Proof. unfold segment; now intros ->. Qed.

(** C1.  Writing the segmented layers back does not give the input text
    again: the last layer is cut with [file[idx:-1]], so what is
    written is the text without its last character. *)
Theorem segment_join_drops_last_char (file : string) :
  Segmenter.join (Segmenter.segment file) = slice file 0 (-1).
Proof.
  destruct (segment_total file) as (data & E & _).
  rewrite (segment_is_fuelled _ _ E).
  now apply segment_fuel_join.
Qed.

(** The round trip fails on a well-formed file with all three markers. *)
Example segment_join_sample :
  Segmenter.join (Segmenter.segment sample_gcode) <> sample_gcode.
Proof. vm_compute; discriminate. Qed.

(** C2, as stated, fails: with both markers missing the standalone
    script reports nothing, rewrites the text and writes it back. *)
Lemma unmarked_run_proceeds :
  find unmarked_gcode start_marker = -1 /\
  find unmarked_gcode end_marker = -1 /\
  BedCool.main BedCool.default_options unmarked_gcode
  = Ok (join_nl ["M140 S60"; "M140 S59"; "G1 X1"]).
Proof. vm_compute; repeat split. Qed.

(** C2, amended.  When the start or the end marker cannot be located,
    segmentation still returns a layer stream and no error: at least
    three chunks, which add up to the text without its last character,
    and which the script goes on to rewrite.  Without a start marker
    the stream is that shortened text cut in two at its last end
    marker (at its last character when there is none), and an empty
    string. *)
Theorem segment_missing_marker_no_error (o : BedCool.options) (file : string) :
  find file start_marker = -1 \/ find file end_marker = -1 ->
  exists data,
    segment file = data /\
    (3 <= length data)%nat /\
    writelines data = slice file 0 (-1) /\
    BedCool.main o file
    = (out <- BedCool.execute o data ;; Ok (writelines out)) /\
    (find file start_marker = -1 ->
     let d := slice file 0 (-1) in
     let i := rfind d end_marker in
     data = [slice d 0 i; slice_from d i; EmptyString]).
Proof.
  intros _.
  destruct (segment_total file) as (data & E & Hne).
  exists data; split; [now apply segment_is_fuelled|].
  split; [|split; [now apply segment_fuel_join|split]].
  - revert E; unfold segment_fuel.
    destruct (chunks _ file _) as [rest|]; simpl; [|discriminate].
    intros [= <-]; unfold split_tail; rewrite length_app; simpl; lia.
  - unfold BedCool.main; now rewrite (segment_is_fuelled _ _ E).
  - intros Hm; revert E; unfold segment_fuel.
    rewrite Hm, chunks_done; simpl; now intros [= <-].
Qed.

Lemma segment_missing_marker_no_error_witness :
  (find unmarked_gcode start_marker = -1 \/
   find unmarked_gcode end_marker = -1) /\
  exists data,
    segment unmarked_gcode = data /\
    (3 <= length data)%nat /\
    writelines data = slice unmarked_gcode 0 (-1) /\
    BedCool.main BedCool.default_options unmarked_gcode
    = (out <- BedCool.execute BedCool.default_options data ;;
       Ok (writelines out)) /\
    (find unmarked_gcode start_marker = -1 ->
     let d := slice unmarked_gcode 0 (-1) in
     let i := rfind d end_marker in
     data = [slice d 0 i; slice_from d i; EmptyString]).
Proof.
  split; [left; vm_compute; reflexivity|].
  apply (segment_missing_marker_no_error BedCool.default_options unmarked_gcode).
  left; vm_compute; reflexivity.
Defined.

End Segmentation.

(** ** Configuration and setters *)

Section Configuration.

(** C9.  Neither script checks its step against the declared minimum:
    a step of 0 is taken as it is, below [minimum_value], and the run
    completes.  BedCool then writes the unchanged temperature into
    every layer of the window, and TempRamp holds the nozzle at its
    first temperature and never reaches the one requested. *)
Theorem zero_step_is_accepted :
  Qlt_bool 0 BedCool.reduce_by_minimum = true /\
  Qlt_bool 0 TempRamp.increase_by_minimum = true /\
  BedCool.main {| BedCool.num_final_layers := 5; BedCool.reduce_by := 0 |}
               sample_gcode
  = Ok (join_nl ["G28"; "; custom gcode: start_gcode"; "M140 S60"; "M140 S60";
                 ";LAYER_CHANGE"; "M140 S60"; "G1 X1"; ";LAYER_CHANGE";
                 "M140 S60"; "G1 X2"; "; custom gcode: end_gcode"; "M84"]) /\
  TempRamp.main {| TempRamp.increase_by := 0 |} warmup_gcode
  = Ok (join_nl ["M104 S190"; "; custom gcode: start_gcode"; "G28";
                 ";LAYER_CHANGE"; "M104 S190"; "G1 X1"; "M104 S190";
                 ";LAYER_CHANGE"; "G1 X2"; "M104 S190"; ";LAYER_CHANGE";
                 "G1 X3"; "M104 S190"; "; custom gcode: end_gcode"; "M84"]).
Proof. vm_compute; repeat split. Qed.

Import TestingTower.

(** C3.  The [bed-temp] branch emits the very setter of the
    [nozzle-temp] branch, [M104 S], and not the [M140 S] that BedCool
    scans for; only the status line tells the two apart. *)
Theorem bed_temp_setter_is_nozzle_setter (first : bool) (v : Q) :
  fst (setter bed_temp first v) = Some ("M104 S" ++ str (round v)) /\
  fst (setter bed_temp first v) = fst (setter nozzle_temp first v) /\
  startswith "M140 S" ("M104 S" ++ str (round v)) = false /\
  snd (setter bed_temp first v) <> snd (setter nozzle_temp first v).
Proof.
  repeat split; simpl; discriminate.
Qed.

(** The same on a run: a bed-temperature tower from 60 degrees. *)
Example bed_temp_tower_run :
  TestingTower.main
    {| command := bed_temp; start_value := 60; value_change := 5;
       start_layer := 0; change_value_every := 1 |} sample_gcode
  = Ok (join_nl ["G28"; "; custom gcode: start_gcode"; "M140 S60";
                 ";LAYER_CHANGE"; "M104 S60"; "M117 Bed Temp M104 S60"; "G1 X1";
                 ";LAYER_CHANGE"; "M104 S65"; "M117 Bed Temp M104 S65"; "G1 X2";
                 "; custom gcode: end_gcode"; "M84"]).
Proof. vm_compute; reflexivity. Qed.

End Configuration.

(** ** CoastRetract: merging and the deleted slot *)

Section CoastRetractRuns.

Import CoastRetract.

(** The pair of the specification, alone in its layer, is merged. *)
Example coast_pair_alone :
  execute standalone [join_nl ["G1 X10 Y10"; "G1 E-2 F2400"]]
  = Ok ["G1 F2400 X10 Y10 E-2"].
Proof. vm_compute; reflexivity. Qed.

(** Comments and other commands between the move and the retraction
    are skipped. *)
Example coast_pair_with_comment :
  execute standalone [join_nl [";LAYER_CHANGE"; "G1 X3"; ";c"; "M1";
                               "G1 E-0.250 F100"; ""]]
  = Ok [join_nl [";LAYER_CHANGE"; "G1 F100 X3 E-0.25"; ";c"; "M1"; ""]].
Proof. vm_compute; reflexivity. Qed.

(** After a merge the retraction's slot holds [None]; the backward scan
    of the next retraction calls [startswith] on it before it reaches
    any move. *)
Example coast_retract_raises_on_deleted_slot :
  execute standalone [join_nl ["G1 X10 Y10"; "G1 E-2 F2400"; "G1 E-2 F2400"]]
  = Raise AttributeError /\
  execute standalone [join_nl ["G1 X10 Y10"; "G1 E-2 F2400"; "; wipe"; "M400";
                               "G1 E-2 F2400"]]
  = Raise AttributeError.
Proof. vm_compute; split; reflexivity. Qed.

(** A layer that holds the pair of the specification after two
    retractions in a row: the run raises before the pair is reached. *)
Example coast_pair_after_raise :
  execute standalone [join_nl ["G1 X1 Y1"; "G1 E-1 F1800"; "G1 E-1 F1800";
                               "G1 X10 Y10"; "G1 E-2 F2400"]]
  = Raise AttributeError.
Proof. vm_compute; reflexivity. Qed.

End CoastRetractRuns.

(** ** Whole numbers as floats, lines of a layer *)

Section NumberFacts.

Lemma Qle_bool_inject_Z (a b : Z) :
  Qle_bool (inject_Z a) (inject_Z b) = (a <=? b).
Proof. unfold Qle_bool, inject_Z; simpl; now rewrite !Z.mul_1_r. Qed.

Lemma Qlt_bool_inject_Z (a b : Z) :
  Qlt_bool (inject_Z a) (inject_Z b) = (a <? b).
Proof.
  unfold Qlt_bool; rewrite Qle_bool_inject_Z.
  destruct (Z.leb_spec b a), (Z.ltb_spec a b); simpl; lia || reflexivity.
Qed.

Lemma Qeq_bool_inject_Z (a b : Z) :
  Qeq_bool (inject_Z a) (inject_Z b) = (a =? b).
Proof. unfold Qeq_bool, inject_Z; simpl; now rewrite !Z.mul_1_r. Qed.

Lemma Qplus_inject_Z (a b : Z) :
  (inject_Z a + inject_Z b)%Q = inject_Z (a + b).
Proof. symmetry; apply inject_Z_plus. Qed.

Lemma Qminus_inject_Z (a b : Z) :
  (inject_Z a - inject_Z b)%Q = inject_Z (a - b).
Proof.
  unfold Qminus, Qplus, Qopp, inject_Z; simpl.
  f_equal; lia.
Qed.

Lemma round_inject_Z (z : Z) : round (inject_Z z) = z.
Proof.
  unfold round; rewrite Qfloor_Z, Qminus_inject_Z, Z.sub_diag.
  reflexivity.
Qed.

Lemma min2_inject_Z (a b : Z) :
  min2 (inject_Z a) (inject_Z b) = inject_Z (Z.min a b).
Proof.
  unfold min2; rewrite Qlt_bool_inject_Z.
  destruct (Z.ltb_spec b a); f_equal; lia.
Qed.

End NumberFacts.

Section LineFacts.

Lemma split_nl_nonempty (s : string) : split_nl s <> [].
Proof.
  induction s as [|c s IH]; simpl; [discriminate|].
  destruct (Ascii.eqb c LF); [discriminate|].
  destruct (split_nl s); [contradiction | discriminate].
Qed.

Lemma join_nl_cons (l : string) (ls : list string) :
  ls <> [] -> join_nl (l :: ls) = l ++ nl ++ join_nl ls.
Proof. destruct ls; [contradiction | reflexivity]. Qed.

(** ['\n'.join(s.split('\n')) == s] *)
Lemma join_split (s : string) : join_nl (split_nl s) = s.
Proof.
  induction s as [|c s IH]; [reflexivity|].
  simpl split_nl.
  destruct (Ascii.eqb_spec c LF) as [-> | Hc].
  - rewrite join_nl_cons by apply split_nl_nonempty.
    now rewrite IH.
  - destruct (split_nl s) as [|l ls] eqn:E; [now apply split_nl_nonempty in E|].
    rewrite <- IH.
    destruct ls; reflexivity.
Qed.

Lemma insert_at_1 {A : Type} (new : list A) (l0 : A) (rest : list A) :
  insert_at 1 new (l0 :: rest) = l0 :: new ++ rest.
Proof. reflexivity. Qed.

End LineFacts.

(** ** BedCool: the cooling ramp *)

Section BedCoolRamp.

Import BedCool.

(** The last two entries of a stream are set aside by [data[:-2]]. *)
Lemma reserved_tail (body : list string) (r1 r2 : string) :
  firstn (length (body ++ [r1; r2]) - 2) (body ++ [r1; r2]) = body /\
  skipn (length (body ++ [r1; r2]) - 2) (body ++ [r1; r2]) = [r1; r2].
Proof.
  rewrite length_app; simpl length.
  replace (length body + 2 - 2)%nat with (length body + 0)%nat by lia.
  rewrite firstn_app_2, skipn_app, Nat.add_0_r, skipn_all.
  replace (length body - length body)%nat with O by lia.
  simpl; now rewrite app_nil_r.
Qed.

Lemma bedcool_scan_no_cmd (t : Q) (lines : list string) :
  filter is_bed_cmd lines = [] -> scan t lines = Ok t.
Proof.
  induction lines as [|line rest IH]; simpl; [reflexivity|].
  change (startswith "M140 S" line) with (is_bed_cmd line).
  destruct (is_bed_cmd line); [discriminate | exact IH].
Qed.

Lemma bedcool_scan_sets (z : Z) (t : Q) (lines : list string) :
  Forall (sets_temp z) (filter is_bed_cmd lines) ->
  scan t lines
  = Ok (match filter is_bed_cmd lines with [] => t | _ => inject_Z z end).
Proof.
  revert t; induction lines as [|line rest IH]; intros t; simpl; [reflexivity|].
  change (startswith "M140 S" line) with (is_bed_cmd line).
  destruct (is_bed_cmd line); [|apply IH].
  intros H; inversion H as [|? ? Hline Hrest]; subst.
  destruct Hline as (v & Hv & Hr).
  rewrite Hv; simpl; rewrite Hr, (IH _ Hrest).
  now destruct (filter is_bed_cmd rest).
Qed.

Lemma bedcool_loop_app (red : Q) (cls : Z) (l1 l2 : list string) :
  forall (i : Z) (t : Q),
    loop red cls i t (l1 ++ l2)
    = ('(t1, o1) <- loop red cls i t l1 ;;
       '(t2, o2) <- loop red cls (i + Z.of_nat (length l1)) t1 l2 ;;
       Ok (t2, (o1 ++ o2)%list)).
Proof.
  induction l1 as [|layer l1 IH]; intros i t.
  - simpl; rewrite Z.add_0_r.
    now destruct (loop red cls i t l2) as [[? ?]|].
  - rewrite <- app_comm_cons; cbn [loop].
    destruct (layer_step red cls i t layer) as [[t1 layer']|]; simpl; [|reflexivity].
    rewrite IH.
    replace (i + 1 + Z.of_nat (length l1)) with (i + Z.pos (Pos.of_succ_nat (length l1)))
      by lia.
    destruct (loop red cls (i + 1) t1 l1) as [[t2 o1]|]; simpl; [|reflexivity].
    now destruct (loop red cls _ t2 l2) as [[? ?]|].
Qed.

(** Before the window nothing is written; the temperature is picked up
    from the first command that sets it. *)
Lemma bedcool_before_window (z : Z) (red : Q) (cls : Z) (pre : list string) :
  forall (i : Z) (t : Q),
    i + Z.of_nat (length pre) <= cls ->
    Forall (fun layer => Forall (sets_temp z) (bed_cmds layer)) pre ->
    exists t',
      loop red cls i t pre = Ok (t', pre) /\
      (t = inject_Z z -> t' = inject_Z z) /\
      (Exists (fun layer => bed_cmds layer <> []) pre -> t' = inject_Z z).
Proof.
  induction pre as [|layer pre IH]; intros i t Hi Hall.
  - exists t; simpl; repeat split; auto.
    intros H; inversion H.
  - inversion Hall as [|? ? Hl Hpre]; subst.
    simpl length in Hi.
    destruct (IH (i + 1)
                 (match bed_cmds layer with [] => t | _ => inject_Z z end)
                 ltac:(lia) Hpre) as (t' & Hloop & Hkeep & Hex).
    exists t'; cbn [loop]; unfold layer_step.
    unfold bed_cmds in Hl; rewrite (bedcool_scan_sets z t _ Hl); simpl.
    replace (cls <=? i) with false by (symmetry; apply Z.leb_gt; lia).
    simpl; fold (bed_cmds layer); rewrite Hloop; simpl.
    rewrite join_split; repeat split.
    + intros ->; apply Hkeep; now destruct (bed_cmds layer).
    + intros H; inversion H as [? ? Hne | ? ? Hlater]; subst.
      * apply Hkeep; destruct (bed_cmds layer); [contradiction | reflexivity].
      * now apply Hex.
Qed.

(** In the window each layer takes one step down and gets one command. *)
Lemma bedcool_window_step (z cls i : Z) (layer : string) :
  0 < z -> cls <= i -> bed_cmds layer = [] ->
  layer_step 1 cls i (inject_Z z) layer
  = Ok (inject_Z (z - 1), with_second_line ("M140 S" ++ str (z - 1)) layer).
Proof.
  intros Hz Hi Hno; unfold layer_step.
  rewrite (bedcool_scan_no_cmd _ _ Hno); simpl.
  replace (cls <=? i) with true by (symmetry; apply Z.leb_le; lia).
  change 0%Q with (inject_Z 0); rewrite Qlt_bool_inject_Z.
  replace (0 <? z) with true by (symmetry; apply Z.ltb_lt; lia).
  simpl; change 1%Q with (inject_Z 1).
  now rewrite Qminus_inject_Z, round_inject_Z.
Qed.

(** C4, as stated, fails: the fifth and last layer of the window gets
    55 degrees, not 56, since the first one already gets 59. *)
Lemma bed_cool_ends_at_55 :
  execute default_options nine_layers = Ok nine_layers_cooled /\
  nth 6 nine_layers_cooled EmptyString
  = with_second_line "M140 S55" (nth 6 nine_layers EmptyString) /\
  nth 6 nine_layers_cooled EmptyString
  <> with_second_line "M140 S56" (nth 6 nine_layers EmptyString).
Proof. vm_compute; repeat split; discriminate. Qed.

(** A bed command inside the window sets the ramp back to its start. *)
Example bed_cool_restarts_in_window :
  execute default_options
    ["M140 S60"; "w1"; join_nl ["w2"; "M140 S60"]; "w3"; "w4"; "w5"; "end"; ""]
  = Ok ["M140 S60"; join_nl ["w1"; "M140 S59"];
        join_nl ["w2"; "M140 S59"; "M140 S60"]; join_nl ["w3"; "M140 S58"];
        join_nl ["w4"; "M140 S57"]; join_nl ["w5"; "M140 S56"]; "end"; ""].
Proof. vm_compute; reflexivity. Qed.

(** C4, amended.  With [numFinalLayers = 5] and [reduceBy = 1.0], on a
    stream whose bed commands before the window all set 60 degrees, with
    at least one such command there and none inside the window: each of
    the five layers before the two reserved ones gets exactly one
    command, after its first line, with 59, 58, 57, 56 and at last 55
    degrees; the layers before the window and the reserved ones are
    returned as they were. *)
Theorem bed_cool_ramp_from_60 (pre : list string) (w1 w2 w3 w4 w5 r1 r2 : string) :
  Forall (fun layer => Forall (sets_temp 60) (bed_cmds layer)) pre ->
  Exists (fun layer => bed_cmds layer <> []) pre ->
  Forall (fun layer => bed_cmds layer = []) [w1; w2; w3; w4; w5] ->
  execute default_options (pre ++ [w1; w2; w3; w4; w5; r1; r2])%list
  = Ok (pre ++ [with_second_line "M140 S59" w1;
                with_second_line "M140 S58" w2;
                with_second_line "M140 S57" w3;
                with_second_line "M140 S56" w4;
                with_second_line "M140 S55" w5;
                r1; r2])%list.
Proof.
  intros Hpre Hex Hwin.
  change (pre ++ [w1; w2; w3; w4; w5; r1; r2])%list
    with (pre ++ [w1; w2; w3; w4; w5] ++ [r1; r2])%list.
  rewrite app_assoc; unfold execute.
  destruct (reserved_tail (pre ++ [w1; w2; w3; w4; w5]) r1 r2) as [-> ->].
  rewrite !length_app; simpl length; simpl num_final_layers; simpl reduce_by.
  replace (Z.of_nat (length pre + 5 + 2) - 2 - 5) with (Z.of_nat (length pre))
    by lia.
  rewrite bedcool_loop_app.
  destruct (bedcool_before_window 60 1 (Z.of_nat (length pre)) pre 0 0
              ltac:(lia) Hpre) as (t' & -> & _ & Ht).
  rewrite (Ht Hex); simpl bind.
  repeat match goal with
         | H : Forall _ (_ :: _) |- _ => inversion H; subst; clear H
         end.
  cbn [loop].
  do 5 (rewrite bedcool_window_step by (assumption || lia); simpl bind).
  simpl; rewrite <- app_assoc; reflexivity.
Qed.

Lemma bed_cool_ramp_from_60_witness :
  Forall (fun layer => Forall (sets_temp 60) (bed_cmds layer))
         (firstn 2 nine_layers) /\
  Exists (fun layer => bed_cmds layer <> []) (firstn 2 nine_layers) /\
  Forall (fun layer => bed_cmds layer = []) (firstn 5 (skipn 2 nine_layers)) /\
  execute default_options nine_layers
  = Ok (firstn 2 nine_layers ++
        [with_second_line "M140 S59" (nth 2 nine_layers "");
         with_second_line "M140 S58" (nth 3 nine_layers "");
         with_second_line "M140 S57" (nth 4 nine_layers "");
         with_second_line "M140 S56" (nth 5 nine_layers "");
         with_second_line "M140 S55" (nth 6 nine_layers "");
         nth 7 nine_layers ""; nth 8 nine_layers ""])%list.
Proof.
  assert (H1 : Forall (fun layer => Forall (sets_temp 60) (bed_cmds layer))
                      (firstn 2 nine_layers)).
  { repeat constructor. exists 60%Q; split; vm_compute; reflexivity. }
  assert (H2 : Exists (fun layer => bed_cmds layer <> []) (firstn 2 nine_layers)).
  { right; left; vm_compute; discriminate. }
  assert (H3 : Forall (fun layer => bed_cmds layer = [])
                      (firstn 5 (skipn 2 nine_layers))).
  { repeat constructor. }
  split; [exact H1 | split; [exact H2 | split; [exact H3|]]].
  exact (bed_cool_ramp_from_60 (firstn 2 nine_layers) _ _ _ _ _ _ _ H1 H2 H3).
Defined.

End BedCoolRamp.

(** ** TempRamp: the warm-up staircase *)

Section TempRampStairs.

Import TempRamp.

Lemma Qlt_bool_irrefl (x : Q) : Qlt_bool x x = false.
Proof.
  unfold Qlt_bool.
  replace (Qle_bool x x) with true; [reflexivity|].
  symmetry; apply Qle_bool_iff, Qle_refl.
Qed.

Lemma tempramp_scan_no_cmd (inc : Q) (st : state) (lines : list string) :
  nozzle_cmds lines = [] -> scan inc st lines = Ok (st, lines).
Proof.
  induction lines as [|line rest IH]; simpl; [reflexivity|].
  change (startswith "M104 S" line) with (is_nozzle_cmd line).
  destruct st as [c t].
  destruct (is_nozzle_cmd line); [discriminate|].
  intros H; now rewrite (IH H).
Qed.

Lemma tempramp_scan_app (inc : Q) (l1 l2 : list string) :
  forall st : state,
    scan inc st (l1 ++ l2)
    = ('(st1, o1) <- scan inc st l1 ;;
       '(st2, o2) <- scan inc st1 l2 ;;
       Ok (st2, (o1 ++ o2)%list)).
Proof.
  induction l1 as [|line l1 IH]; intros [c t].
  - simpl; now destruct (scan inc (c, t) l2) as [[? ?]|].
  - rewrite <- app_comm_cons; cbn [scan].
    destruct (startswith "M104 S" line).
    + destruct (float (slice_from line 6)) as [v|]; simpl; [|reflexivity].
      destruct (Qeq_bool c 0); [|destruct (Qle_bool v (c + inc))];
        rewrite IH;
        (destruct (scan inc _ l1) as [[st1 o1]|]; simpl; [|reflexivity]);
        now destruct (scan inc st1 l2) as [[? ?]|].
    + rewrite IH.
      destruct (scan inc _ l1) as [[st1 o1]|]; simpl; [|reflexivity].
      now destruct (scan inc st1 l2) as [[? ?]|].
Qed.

(** The first command of the stream sets both temperatures. *)
Lemma tempramp_scan_first (inc : Q) (lines : list string) :
  nozzle_cmds lines = ["M104 S190"] ->
  scan inc (0, 0)%Q lines = Ok ((inject_Z 190, inject_Z 190), lines).
Proof.
  induction lines as [|line rest IH]; simpl; [discriminate|].
  change (startswith "M104 S" line) with (is_nozzle_cmd line).
  destruct (is_nozzle_cmd line).
  - intros [= -> Hrest]; simpl.
    now rewrite (tempramp_scan_no_cmd _ _ _ Hrest).
  - intros H; now rewrite (IH H).
Qed.

(** A later command that asks for more than one step: the line is
    rewritten with one step. *)
Lemma tempramp_scan_request (c g : Z) (t : Q) (line : string) (rest : list string) :
  c <> 0 -> c + 1 < g ->
  is_nozzle_cmd line = true ->
  float (slice_from line 6) = Ok (inject_Z g) ->
  nozzle_cmds rest = [] ->
  scan 1 (inject_Z c, t) (line :: rest)
  = Ok ((inject_Z (c + 1), inject_Z g), ("M104 S" ++ str (c + 1)) :: rest).
Proof.
  intros Hc Hg Hcmd Hv Hrest; cbn [scan].
  unfold is_nozzle_cmd in Hcmd; rewrite Hcmd, Hv; simpl bind.
  change 0%Q with (inject_Z 0); change 1%Q with (inject_Z 1).
  rewrite Qeq_bool_inject_Z, Qplus_inject_Z, Qle_bool_inject_Z.
  replace (c =? 0) with false by (symmetry; apply Z.eqb_neq; lia).
  replace (g <=? c + 1) with false by (symmetry; apply Z.leb_gt; lia).
  now rewrite (tempramp_scan_no_cmd _ _ _ Hrest), round_inject_Z.
Qed.

(** A layer without commands, entered on target: nothing happens. *)
Lemma tempramp_layer_idle (inc c : Q) (layer : string) :
  layer_nozzle_cmds layer = [] ->
  layer_step inc (c, c) layer = Ok ((c, c), layer).
Proof.
  intros H; unfold layer_step.
  rewrite (tempramp_scan_no_cmd _ _ _ H); simpl.
  now rewrite Qlt_bool_irrefl, join_split.
Qed.

(** A layer without commands, entered below target: one step, one
    command before the last line. *)
Lemma tempramp_layer_step_up (c g : Z) (layer : string) :
  c < g ->
  layer_nozzle_cmds layer = [] ->
  layer_step 1 (inject_Z c, inject_Z g) layer
  = Ok ((inject_Z (c + 1), inject_Z g),
        with_line_before_last ("M104 S" ++ str (c + 1)) layer).
Proof.
  intros Hc H; unfold layer_step.
  rewrite (tempramp_scan_no_cmd _ _ _ H); simpl bind.
  change 1%Q with (inject_Z 1).
  rewrite Qlt_bool_inject_Z, Qplus_inject_Z, min2_inject_Z, round_inject_Z.
  replace (c <? g) with true by (symmetry; apply Z.ltb_lt; lia).
  now rewrite Z.min_l by lia.
Qed.

Lemma tempramp_loop_app (inc : Q) (l1 l2 : list string) :
  forall st : state,
    loop inc st (l1 ++ l2)
    = ('(st1, o1) <- loop inc st l1 ;;
       '(st2, o2) <- loop inc st1 l2 ;;
       Ok (st2, (o1 ++ o2)%list)).
Proof.
  induction l1 as [|layer l1 IH]; intros st.
  - simpl; now destruct (loop inc st l2) as [[? ?]|].
  - rewrite <- app_comm_cons; cbn [loop].
    destruct (layer_step inc st layer) as [[st1 layer']|]; simpl; [|reflexivity].
    rewrite IH.
    destruct (loop inc st1 l1) as [[st2 o1]|]; simpl; [|reflexivity].
    now destruct (loop inc st2 l2) as [[? ?]|].
Qed.

Lemma tempramp_idle_layers (inc c : Q) (layers : list string) :
  Forall (fun layer => layer_nozzle_cmds layer = []) layers ->
  loop inc (c, c) layers = Ok ((c, c), layers).
Proof.
  induction 1 as [|layer rest Hl _ IH]; cbn [loop]; [reflexivity|].
  rewrite (tempramp_layer_idle _ _ _ Hl); simpl bind.
  now rewrite IH.
Qed.

(** The staircase: one degree per layer as long as the target is ahead. *)
Lemma tempramp_stairs (g : Z) (layers : list string) :
  forall c : Z,
    c + Z.of_nat (length layers) <= g ->
    Forall (fun layer => layer_nozzle_cmds layer = []) layers ->
    loop 1 (inject_Z c, inject_Z g) layers
    = Ok ((inject_Z (c + Z.of_nat (length layers)), inject_Z g),
          warmed (c + 1) layers).
Proof.
  induction layers as [|layer rest IH]; intros c Hc Hall.
  - simpl; now rewrite Z.add_0_r.
  - inversion Hall as [|? ? Hl Hrest]; subst.
    simpl length in Hc; cbn [loop warmed].
    rewrite (tempramp_layer_step_up c g layer) by (lia || assumption).
    simpl bind; rewrite (IH (c + 1)) by (lia || assumption).
    simpl; do 3 f_equal; f_equal; lia.
Qed.

(** Up to the line that asks for 210: the layers are returned as they
    are, and the scan arrives at that line with 190 on both sides. *)
Lemma tempramp_before_request (inc : Q) (x : list string) (pre : list string) :
  forall st : state,
    (st = (0, 0)%Q /\
     (flat_map layer_nozzle_cmds pre ++ nozzle_cmds x)%list = ["M104 S190"]) \/
    (st = (inject_Z 190, inject_Z 190) /\
     (flat_map layer_nozzle_cmds pre ++ nozzle_cmds x)%list = []) ->
    exists st',
      loop inc st pre = Ok (st', pre) /\
      scan inc st' x = Ok ((inject_Z 190, inject_Z 190), x).
Proof.
  induction pre as [|layer pre IH]; intros st Hst.
  - exists st; split; [reflexivity|].
    destruct Hst as [[-> H] | [-> H]]; simpl in H.
    + now apply tempramp_scan_first.
    + now apply tempramp_scan_no_cmd.
  - cbn [flat_map] in Hst; rewrite <- app_assoc in Hst.
    destruct Hst as [[-> H] | [-> H]].
    + destruct (layer_nozzle_cmds layer) as [|a [|b cmds]] eqn:E.
      * destruct (IH (0, 0)%Q) as (st' & Hloop & Hscan); [left; now split|].
        exists st'; cbn [loop].
        rewrite (tempramp_layer_idle _ _ _ E); simpl bind.
        now rewrite Hloop.
      * simpl in H; injection H as -> H.
        destruct (IH (inject_Z 190, inject_Z 190)) as (st' & Hloop & Hscan);
          [right; now split|].
        exists st'; cbn [loop]; unfold layer_step.
        unfold layer_nozzle_cmds in E.
        rewrite (tempramp_scan_first _ _ E); simpl bind.
        now rewrite join_split, Hloop.
      * simpl in H; discriminate.
    + apply app_eq_nil in H as [E H].
      destruct (IH (inject_Z 190, inject_Z 190)) as (st' & Hloop & Hscan);
        [right; now split|].
      exists st'; cbn [loop].
      rewrite (tempramp_layer_idle _ _ _ E); simpl bind.
      now rewrite Hloop.
Qed.

Lemma insert_before_last_app {A : Type} (new p y : list A) :
  y <> [] ->
  insert_before_last new (p ++ y) = (p ++ insert_before_last new y)%list.
Proof.
  intros Hy; unfold insert_before_last, insert_at.
  assert (0 < length y)%nat by (destruct y; [contradiction | simpl; lia]).
  rewrite length_app.
  replace (length p + length y - 1)%nat with (length p + (length y - 1))%nat
    by lia.
  rewrite firstn_app_2, skipn_app, skipn_all2 by lia.
  replace (length p + (length y - 1) - length p)%nat with (length y - 1)%nat
    by lia.
  now rewrite <- app_assoc.
Qed.

Lemma Forall_firstn_skipn {A : Type} (P : A -> Prop) (n : nat) (l : list A) :
  Forall P l -> Forall P (firstn n l) /\ Forall P (skipn n l).
Proof.
  intros H; rewrite <- (firstn_skipn n l) in H.
  now apply Forall_app in H.
Qed.

(** The layer that asks for 210, reached with 190 on both sides. *)
Lemma tempramp_request_layer (st : state) (request : string) (x y : list string) :
  scan 1 st x = Ok ((inject_Z 190, inject_Z 190), x) ->
  split_nl request = (x ++ "M104 S210" :: y)%list ->
  nozzle_cmds y = [] ->
  y <> [] ->
  layer_step 1 st request
  = Ok ((inject_Z 192, inject_Z 210),
        join_nl (x ++ "M104 S191" :: insert_before_last ["M104 S192"] y)).
Proof.
  intros Hscan Hsplit Hy Hne; unfold layer_step.
  rewrite Hsplit, tempramp_scan_app, Hscan; cbn [bind].
  rewrite (tempramp_scan_request 190 210) by (lia || reflexivity || assumption).
  cbn [bind].
  rewrite Qlt_bool_inject_Z; change 1%Q with (inject_Z 1).
  rewrite Qplus_inject_Z, min2_inject_Z, round_inject_Z.
  change (190 + 1 <? 210) with true; cbv iota.
  change (Z.min (190 + 1 + 1) 210) with 192.
  change (str (190 + 1)) with "191"; change (str 192) with "192".
  change ("M104 S" ++ "191") with "M104 S191".
  change ("M104 S" ++ "192") with "M104 S192".
  rewrite (insert_before_last_app _ x ("M104 S191" :: y)) by discriminate.
  change ("M104 S191" :: y) with (["M104 S191"] ++ y)%list.
  now rewrite (insert_before_last_app _ ["M104 S191"] y) by assumption.
Qed.

(** C5, as stated, fails: the layer that asks for 210 carries two steps,
    191 on the rewritten line and 192 before its last line, and 210 is
    written in the 19th layer from there; the 20th is left alone. *)
Lemma warmup_reaches_210_in_19_layers :
  exists out,
    execute default_options warmup_stream = Ok out /\
    map layer_nozzle_cmds out
    = [["M104 S190"]; []; ["M104 S191"; "M104 S192"];
       ["M104 S193"]; ["M104 S194"]; ["M104 S195"]; ["M104 S196"];
       ["M104 S197"]; ["M104 S198"]; ["M104 S199"]; ["M104 S200"];
       ["M104 S201"]; ["M104 S202"]; ["M104 S203"]; ["M104 S204"];
       ["M104 S205"]; ["M104 S206"]; ["M104 S207"]; ["M104 S208"];
       ["M104 S209"]; ["M104 S210"]; []; []; []] /\
    nth 21 out EmptyString = nth 21 warmup_stream EmptyString.
Proof. eexists; split; [vm_compute; reflexivity|]. vm_compute; split; reflexivity. Qed.

(** When the request is the last line of its layer, the second step is
    written above the first. *)
Example warmup_out_of_order :
  execute default_options
    [join_nl ["M104 S190"; ""]; join_nl [";LAYER_CHANGE"; "M104 S210"];
     join_nl [";LAYER_CHANGE"; ""]; "end"; ""]
  = Ok [join_nl ["M104 S190"; ""];
        join_nl [";LAYER_CHANGE"; "M104 S192"; "M104 S191"];
        join_nl [";LAYER_CHANGE"; "M104 S193"; ""]; "end"; ""].
Proof. vm_compute; reflexivity. Qed.

(** C5, amended.  With [increaseBy = 1.0], on a stream whose first
    nozzle command is [M104 S190] and whose only later one, [M104 S210],
    is not the last line of its layer: that layer gets 191 in place of
    the request and 192 before its last line; each of the next 18
    layers that are not reserved gets one command before its last
    line, 193 up to 210, one degree more per layer; everything else is
    returned as it was.  The commands written are in rising order, one
    degree apart, and 210 is written in the 19th layer. *)
Theorem temp_ramp_190_to_210
        (pre : list string) (request : string) (x y rest : list string)
        (r1 r2 : string) :
  split_nl request = (x ++ "M104 S210" :: y)%list ->
  (flat_map layer_nozzle_cmds pre ++ nozzle_cmds x)%list = ["M104 S190"] ->
  nozzle_cmds y = [] ->
  y <> [] ->
  Forall (fun layer => layer_nozzle_cmds layer = []) rest ->
  execute default_options (pre ++ request :: rest ++ [r1; r2])%list
  = Ok (pre
        ++ join_nl (x ++ "M104 S191" :: insert_before_last ["M104 S192"] y)
        :: warmed 193 (firstn 18 rest) ++ skipn 18 rest ++ [r1; r2])%list.
Proof.
  intros Hsplit Hfirst Hy Hne Hrest.
  replace (pre ++ request :: rest ++ [r1; r2])%list
    with ((pre ++ request :: rest) ++ [r1; r2])%list
    by (now rewrite <- app_assoc).
  unfold execute.
  destruct (reserved_tail (pre ++ request :: rest) r1 r2) as [-> ->].
  simpl increase_by; rewrite tempramp_loop_app.
  destruct (tempramp_before_request 1 x pre (0, 0)%Q) as (st' & -> & Hscan);
    [left; now split|].
  cbn [bind loop].
  rewrite (tempramp_request_layer st' request x y) by assumption.
  cbn [bind].
  (* the staircase, then the layers after it *)
  destruct (Forall_firstn_skipn _ 18 _ Hrest) as [Hup Hafter].
  rewrite <- (firstn_skipn 18 rest) at 1.
  rewrite tempramp_loop_app.
  rewrite (tempramp_stairs 210 (firstn 18 rest) 192)
    by (assumption || (pose proof (firstn_le_length 18 rest); lia)).
  cbn [bind].
  destruct (Nat.le_gt_cases (length rest) 18) as [Hshort | Hlong].
  - rewrite (skipn_all2 rest Hshort); cbn [loop bind].
    repeat (rewrite <- app_assoc || rewrite <- app_comm_cons); reflexivity.
  - rewrite firstn_length_le by lia.
    change (192 + Z.of_nat 18) with 210.
    rewrite (tempramp_idle_layers _ _ _ Hafter); cbn [bind].
    repeat (rewrite <- app_assoc || rewrite <- app_comm_cons); reflexivity.
Qed.

Lemma temp_ramp_190_to_210_witness :
  split_nl (nth 2 warmup_stream EmptyString)
  = ([";LAYER_CHANGE"] ++ "M104 S210" :: ["G1 X1"; ""])%list /\
  (flat_map layer_nozzle_cmds (firstn 2 warmup_stream)
     ++ nozzle_cmds [";LAYER_CHANGE"])%list = ["M104 S190"] /\
  nozzle_cmds ["G1 X1"; ""] = [] /\
  ["G1 X1"; ""] <> [] /\
  Forall (fun layer => layer_nozzle_cmds layer = [])
         (firstn 19 (skipn 3 warmup_stream)) /\
  execute default_options warmup_stream
  = Ok (firstn 2 warmup_stream
        ++ join_nl ([";LAYER_CHANGE"]
                    ++ "M104 S191" :: insert_before_last ["M104 S192"] ["G1 X1"; ""])
        :: warmed 193 (firstn 18 (firstn 19 (skipn 3 warmup_stream)))
        ++ skipn 18 (firstn 19 (skipn 3 warmup_stream))
        ++ [nth 22 warmup_stream EmptyString; nth 23 warmup_stream EmptyString])%list.
Proof.
  assert (H1 : split_nl (nth 2 warmup_stream EmptyString)
               = ([";LAYER_CHANGE"] ++ "M104 S210" :: ["G1 X1"; ""])%list)
    by reflexivity.
  assert (H2 : (flat_map layer_nozzle_cmds (firstn 2 warmup_stream)
                  ++ nozzle_cmds [";LAYER_CHANGE"])%list = ["M104 S190"])
    by reflexivity.
  assert (H3 : nozzle_cmds ["G1 X1"; ""] = []) by reflexivity.
  assert (H4 : ["G1 X1"; ""] <> ([] : list string)) by discriminate.
  assert (H5 : Forall (fun layer => layer_nozzle_cmds layer = [])
                      (firstn 19 (skipn 3 warmup_stream)))
    by (repeat constructor).
  split; [exact H1 | split; [exact H2 | split; [exact H3 | split; [exact H4 |
    split; [exact H5|]]]]].
  exact (temp_ramp_190_to_210 (firstn 2 warmup_stream) _ _ _ _ _ _
                              H1 H2 H3 H4 H5).
Defined.

End TempRampStairs.

(** ** TestingTower: the speed sweep *)

Section SpeedSweep.

Import TestingTower.


(** The layers before the start layer are passed over. *)
Lemma tower_before_start (d : dialect) (s : settings) (start n : Z) (pre : list string) :
  forall (i : Z) (st : state),
    i + Z.of_nat (length pre) <= start ->
    loop d s start n i st pre = Ok (st, pre).
Proof.
  induction pre as [|layer pre IH]; intros i [v p] Hi; [reflexivity|].
  simpl length in Hi; cbn [loop]; unfold layer_step.
  replace (i <? start) with true by (symmetry; apply Z.ltb_lt; lia).
  cbn [bind]; now rewrite IH by lia.
Qed.




(** The sweep on a stream of eight layers, started at the first
    printed layer. *)
Example speed_sweep_run :
  execute standalone (speed_from_100 0) tower_layers
  = Ok [join_nl ["G28"; ""];
        join_nl ["; custom gcode: start_gcode"; "M140 S60"; ""];
        join_nl [";LAYER_CHANGE"; "M220 B"; "M220 S100"; "M117 Speed M220 S100";
                 "G1 X1"; ""];
        join_nl [";LAYER_CHANGE"; "M220 S101"; "M117 Speed M220 S101"; "G1 X2"; ""];
        join_nl [";LAYER_CHANGE"; "M220 S102"; "M117 Speed M220 S102"; "G1 X3"; ""];
        join_nl [";LAYER_CHANGE"; "M220 S103"; "M117 Speed M220 S103"; "G1 X4";
                 "M220 R"; ""];
        join_nl ["; custom gcode: end_gcode"; "M84"];
        ""].
Proof. vm_compute; reflexivity. Qed.



End SpeedSweep.

(** ** Markers are left alone *)

Section Edits.

Variables ins del : string -> Prop.

Create HintDb edits.
#[local] Hint Constructors edits : edits.

Lemma edits_refl (ls : list string) : edits ins del ls ls.
Proof. induction ls; auto with edits. Qed.

Lemma edits_app (a a' b b' : list string) :
  edits ins del a a' -> edits ins del b b' -> edits ins del (a ++ b) (a' ++ b').
Proof. induction 1; simpl; auto with edits. Qed.

Lemma edits_insert_all (new ls ls' : list string) :
  Forall ins new -> edits ins del ls ls' -> edits ins del ls (new ++ ls').
Proof. induction 1; simpl; auto with edits. Qed.

Lemma edits_insert_at (k : nat) (new ls : list string) :
  Forall ins new -> edits ins del ls (insert_at k new ls).
Proof.
  intros H; unfold insert_at.
  rewrite <- (firstn_skipn k ls) at 1.
  apply edits_app; [apply edits_refl|].
  apply edits_insert_all; [assumption | apply edits_refl].
Qed.

Lemma edits_trans (a b c : list string) :
  edits ins del a b -> edits ins del b c -> edits ins del a c.
Proof.
  intros Hab; revert c.
  induction Hab as [|l a b Hab IH|new a b Hnew Hab IH|l a b Hdel Hab IH];
    intros c Hbc; auto with edits.
  - remember (l :: b) as lb eqn:E.
    induction Hbc as [|x lb' c' Hbc _|x lb' c' Hx Hbc IHbc|x lb' c' Hx Hbc _];
      try discriminate; auto with edits.
    + injection E as -> ->; auto with edits.
    + injection E as -> ->; auto with edits.
  - remember (new :: b) as lb eqn:E.
    induction Hbc as [|x lb' c' Hbc _|x lb' c' Hx Hbc IHbc|x lb' c' Hx Hbc _];
      try discriminate; auto with edits.
    + injection E as -> ->; auto with edits.
    + injection E as -> ->; auto with edits.
Qed.

End Edits.

Section OneLine.

Lemma one_line_empty : one_line "".
Proof. reflexivity. Qed.

Lemma one_line_cons (c : ascii) (s : string) :
  c <> LF -> one_line s -> one_line (String c s).
Proof.
  unfold one_line; intros Hc Hs; simpl.
  destruct (Ascii.eqb_spec c LF); [contradiction|].
  now rewrite Hs.
Qed.

Lemma one_line_inv (c : ascii) (s : string) :
  one_line (String c s) -> c <> LF /\ one_line s.
Proof.
  unfold one_line; simpl.
  destruct (Ascii.eqb_spec c LF); [discriminate|].
  destruct (split_nl s) as [|l ls] eqn:E; [now apply split_nl_nonempty in E|].
  intros [= -> ->]; now split.
Qed.

Lemma one_line_app (a b : string) :
  one_line a -> one_line b -> one_line (a ++ b).
Proof.
  induction a as [|c a IH]; intros Ha Hb; [exact Hb|].
  apply one_line_inv in Ha as [Hc Ha].
  simpl; apply one_line_cons; auto.
Qed.

Lemma one_line_app_inv (a b : string) :
  one_line (a ++ b) -> one_line a /\ one_line b.
Proof.
  induction a as [|c a IH]; simpl; intros H; [split; [reflexivity | exact H]|].
  apply one_line_inv in H as [Hc H].
  destruct (IH H); split; [now apply one_line_cons | assumption].
Qed.

(** Every piece of a split is one line. *)
Lemma one_line_split (s : string) : Forall one_line (split_nl s).
Proof.
  induction s as [|c s IH]; simpl; [repeat constructor|].
  destruct (Ascii.eqb_spec c LF); [constructor; [reflexivity | assumption]|].
  destruct (split_nl s) as [|l ls]; [repeat constructor; now apply one_line_cons|].
  inversion IH; subst; constructor; [now apply one_line_cons | assumption].
Qed.

Lemma split_nl_app (a b : string) :
  split_nl (a ++ nl ++ b) = (split_nl a ++ split_nl b)%list.
Proof.
  induction a as [|c a IH]; [reflexivity|].
  simpl; destruct (Ascii.eqb c LF).
  - change (String LF b) with (nl ++ b); now rewrite IH.
  - change (String LF b) with (nl ++ b); rewrite IH.
    destruct (split_nl a) as [|l ls] eqn:E; [now apply split_nl_nonempty in E|].
    reflexivity.
Qed.

(** ['\n'.join(lines).split('\n')] gives the lines of the entries. *)
Lemma split_join (lines : list string) :
  lines <> [] -> split_nl (join_nl lines) = flat_map split_nl lines.
Proof.
  induction lines as [|l ls IH]; intros Hne; [contradiction|].
  destruct ls as [|l' ls].
  - simpl; now rewrite app_nil_r.
  - rewrite join_nl_cons by discriminate.
    rewrite split_nl_app, IH by discriminate.
    reflexivity.
Qed.

Lemma flat_split_one_line (lines : list string) :
  Forall one_line lines -> flat_map split_nl lines = lines.
Proof.
  induction 1 as [|l ls Hl _ IH]; [reflexivity|].
  cbn [flat_map]; now rewrite Hl, IH.
Qed.

End OneLine.

Section WrittenLines.

Lemma prefix_head (a b : ascii) (p s : string) :
  String.prefix (String a p) (String b s)
  = if ascii_dec a b then String.prefix p s else false.
Proof. reflexivity. Qed.

Lemma not_marker_head (c : ascii) (s : string) :
  c <> ";"%char -> not_marker (String c s).
Proof.
  intros Hc.
  unfold not_marker, is_marker, startswith,
    Segmenter.start_marker, Segmenter.end_marker.
  rewrite !prefix_head.
  destruct (ascii_dec ";" c) as [E|_]; [now symmetry in E | reflexivity].
Qed.

Lemma marker_not_prefixed (c : ascii) (r line : string) :
  c <> ";"%char ->
  is_marker line = true -> startswith (String c r) line = false.
Proof.
  intros Hc Hm; destruct line as [|a line]; [discriminate|].
  unfold startswith; rewrite prefix_head.
  destruct (ascii_dec c a) as [<-|_]; [|reflexivity].
  now rewrite (not_marker_head c line Hc) in Hm.
Qed.

Lemma one_line_uint (d : Decimal.uint) : one_line (NilEmpty.string_of_uint d).
Proof.
  induction d; simpl; try reflexivity; apply one_line_cons; auto; discriminate.
Qed.

Lemma one_line_str (z : Z) : one_line (str z).
Proof.
  unfold str, NilZero.string_of_int.
  destruct (Z.to_int z) as [d|d].
  - destruct d; try reflexivity; apply (one_line_uint (_ d)).
  - apply one_line_cons; [discriminate|].
    destruct d; try reflexivity; apply (one_line_uint (_ d)).
Qed.

End WrittenLines.

(** Goals of the shape [one_line (a ++ String c b ++ ...)]. *)
Ltac one_line_pieces :=
  repeat first [ assumption
               | apply one_line_str
               | apply one_line_app
               | apply one_line_cons; [discriminate|]
               | reflexivity ].

Section WrittenNumbers.

Lemma one_line_zeros (n : nat) : one_line (zeros n).
Proof.
  induction n; simpl; [reflexivity | apply one_line_cons; auto; discriminate].
Qed.

Lemma one_line_format_f (d : nat) (x : Q) : one_line (format_f d x).
Proof.
  unfold format_f, zero_pad.
  destruct d; repeat apply one_line_app;
    try apply one_line_str; try apply one_line_zeros;
    try (destruct (Qlt_bool x 0)); reflexivity.
Qed.

Lemma rstrip_is_prefix (c : ascii) (s : string) :
  exists t, s = rstrip c s ++ t.
Proof.
  induction s as [|a s [t IH]]; [now exists ""|].
  simpl; destruct (rstrip c s) as [|b r] eqn:E.
  - destruct (Ascii.eqb a c); [now exists (String a s)|].
    exists t; simpl in *; now rewrite <- IH.
  - exists t; simpl in *; now rewrite <- IH.
Qed.

Lemma one_line_rstrip (c : ascii) (s : string) :
  one_line s -> one_line (rstrip c s).
Proof.
  intros H; destruct (rstrip_is_prefix c s) as [t E].
  rewrite E in H; now apply one_line_app_inv in H.
Qed.

Lemma rstrip_head (c a : ascii) (s : string) :
  a <> c -> exists r, rstrip c (String a s) = String a r.
Proof.
  intros Hac; simpl.
  destruct (rstrip c s); [|eexists; reflexivity].
  destruct (Ascii.eqb_spec a c); [contradiction | eexists; reflexivity].
Qed.

Lemma one_line_span_digits (s : string) : one_line (fst (span_digits s)).
Proof.
  induction s as [|c s IH]; simpl; [reflexivity|].
  destruct (is_digit c) eqn:E; [|reflexivity].
  destruct (span_digits s) as [d r]; simpl in *.
  apply one_line_cons; [intros ->; discriminate | assumption].
Qed.

Lemma one_line_span_dot (s : string) : one_line (Templates.span_dot s).
Proof.
  induction s as [|c s IH]; simpl; [reflexivity|].
  destruct (Ascii.eqb_spec c LF); [reflexivity | now apply one_line_cons].
Qed.

Lemma strip_prefix_eq (p s r : string) :
  Templates.strip_prefix p s = Some r -> s = p ++ r.
Proof.
  revert s; induction p as [|a p IH]; intros [|b s]; simpl;
    try discriminate; try (now intros [= <-]).
  destruct (Ascii.eqb_spec a b) as [<-|]; [|discriminate].
  intros H; now rewrite (IH _ H).
Qed.

Lemma one_line_span_number (s a r : string) :
  Templates.span_number s = Some (a, r) -> one_line a.
Proof.
  unfold Templates.span_number.
  pose proof (one_line_span_digits s) as H1.
  destruct (span_digits s) as [d1 r1]; simpl in H1.
  destruct (Templates.nonempty d1); [|discriminate].
  destruct r1 as [|c r1]; [now intros [= <- <-]|].
  destruct (Ascii.eqb_spec c ".") as [->|Hc].
  - pose proof (one_line_span_digits r1) as H2.
    destruct (span_digits r1) as [d2 r3]; simpl in H2.
    intros [= <- <-]; one_line_pieces.
  - destruct c as [[] [] [] [] [] [] [] []]; try (now intros [= <- <-]).
    now contradiction Hc.
Qed.

(** What the standalone templates match starts with [G1 E], and their
    groups are single lines. *)
Lemma amount_then_speed_groups (negative : bool) (line : string) (g : list string) :
  Templates.amount_then_speed negative line = Some g ->
  startswith "G" line = true /\ forall i, one_line (Templates.group g i).
Proof.
  unfold Templates.amount_then_speed.
  destruct (Templates.strip_prefix "G1 E" line) as [r|] eqn:E; [|discriminate].
  apply strip_prefix_eq in E; subst line.
  intros H; split; [reflexivity|].
  assert (Hg : exists a sp, g = [a; sp] /\ one_line a /\ one_line sp).
  { destruct (if negative
              then match r with
                   | String "-" r' =>
                       option_map (fun '(a, k) => ("-" ++ a, k))
                                  (Templates.span_number r')
                   | _ => None
                   end
              else Templates.span_number r) as [[a r1]|] eqn:Ea; [|discriminate].
    destruct (Templates.strip_prefix " F" r1) as [r2|]; [|discriminate].
    unfold Templates.span_int in H.
    pose proof (one_line_span_digits r2) as H2.
    destruct (span_digits r2) as [sp r3]; simpl in H2.
    destruct (Templates.nonempty sp); [|discriminate].
    injection H as <-; exists a, sp; repeat split; auto.
    destruct negative; [|now apply one_line_span_number in Ea].
    destruct r as [|c r']; [discriminate|].
    destruct (Ascii.eqb_spec c "-") as [->|Hc].
    - destruct (Templates.span_number r') as [[a' k]|] eqn:En; [|discriminate].
      injection Ea as <- <-.
      apply one_line_span_number in En; one_line_pieces.
    - destruct c as [[] [] [] [] [] [] [] []]; try discriminate.
      now contradiction Hc. }
  destruct Hg as (a & sp & -> & Ha & Hsp).
  intros [|[|[|i]]]; simpl; auto; reflexivity.
Qed.

End WrittenNumbers.

Section LayerKept.

Lemma written_line (s : string) :
  one_line s -> not_marker s -> Forall not_marker (split_nl s).
Proof. intros -> H; now constructor. Qed.

Lemma spliced_flat (ls ls' : list string) :
  Forall one_line ls -> spliced ls ls' -> edited ls (flat_map split_nl ls').
Proof.
  intros Hone H; induction H as [|l ls ls' H IH|x ls ls' Hx H IH|l ls ls' Hl H IH];
    cbn [flat_map].
  - constructor.
  - inversion Hone as [|? ? Hl Hls]; subst.
    rewrite Hl; simpl; constructor; exact (IH Hls).
  - apply edits_insert_all; [assumption | exact (IH Hone)].
  - inversion Hone as [|? ? _ Hls]; subst.
    constructor; [assumption | exact (IH Hls)].
Qed.

Lemma replaced_spliced (ls ls' : list string) :
  Forall2 replaced ls ls' -> spliced ls ls'.
Proof.
  induction 1 as [|x y ls ls' [-> | [Hx Hy]] _ IH]; [constructor| |].
  - now constructor.
  - apply edits_delete; [assumption|]; now apply edits_insert.
Qed.

Lemma layer_kept_refl (layer : string) : layer_kept layer layer.
Proof.
  split; [apply edits_refl|].
  intros m rest -> _ _; now exists rest.
Qed.

(** From the entries to the text of the layer. *)
Lemma layer_kept_join (layer : string) (lines' : list string) :
  lines' <> [] ->
  spliced (split_nl layer) lines' ->
  (forall m rest,
      split_nl layer = m :: rest -> rest <> [] -> is_marker m = true ->
      exists rest', lines' = m :: rest') ->
  layer_kept layer (join_nl lines').
Proof.
  intros Hne Hsp Hhead; unfold layer_kept.
  rewrite split_join by assumption; split.
  - apply spliced_flat; [apply one_line_split | assumption].
  - intros m rest E Hrest Hm.
    destruct (Hhead m rest E Hrest Hm) as [rest' ->].
    pose proof (one_line_split layer) as Hone; rewrite E in Hone.
    inversion Hone as [|? ? Hmone _]; subst.
    cbn [flat_map]; rewrite Hmone; simpl; eexists; reflexivity.
Qed.

Lemma insert_at_nonempty {A : Type} (k : nat) (new ls : list A) :
  ls <> [] -> insert_at k new ls <> [].
Proof.
  unfold insert_at; intros Hne H.
  apply app_eq_nil in H as [H1 H]; apply app_eq_nil in H as [_ H2].
  rewrite <- (firstn_skipn k ls), H1, H2 in Hne; now apply Hne.
Qed.

Lemma insert_before_last_head {A : Type} (new : list A) (m : A) (rest : list A) :
  rest <> [] ->
  insert_before_last new (m :: rest) = m :: insert_before_last new rest.
Proof. intros H; exact (insert_before_last_app new [m] rest H). Qed.

Lemma starts_with_head (a : ascii) (p s : string) :
  startswith (String a p) s = true -> exists s', s = String a s'.
Proof.
  destruct s as [|b s]; [discriminate|].
  unfold startswith; rewrite prefix_head.
  destruct (ascii_dec a b) as [<-|]; [|discriminate].
  now exists s.
Qed.

(** *** BedCool *)

Lemma bedcool_layer_kept (red : Q) (cls i : Z) (t t' : Q) (layer layer' : string) :
  BedCool.layer_step red cls i t layer = Ok (t', layer') ->
  layer_kept layer layer'.
Proof.
  unfold BedCool.layer_step.
  destruct (BedCool.scan t (split_nl layer)) as [t1|]; [|discriminate].
  cbn [bind].
  destruct ((cls <=? i) && Qlt_bool 0 t1).
  - intros [= _ <-]; apply layer_kept_join.
    + apply insert_at_nonempty, split_nl_nonempty.
    + apply edits_insert_at; repeat constructor.
      apply written_line; [one_line_pieces | now apply not_marker_head].
    + intros m rest -> _ _; eexists; reflexivity.
  - intros [= _ <-]; rewrite join_split; apply layer_kept_refl.
Qed.

Lemma bedcool_loop_kept (red : Q) (cls : Z) (layers : list string) :
  forall (i : Z) (t t' : Q) (out : list string),
    BedCool.loop red cls i t layers = Ok (t', out) ->
    Forall2 layer_kept layers out.
Proof.
  induction layers as [|layer rest IH]; intros i t t' out; cbn [BedCool.loop].
  - intros [= _ <-]; constructor.
  - destruct (BedCool.layer_step red cls i t layer) as [[t1 layer']|] eqn:E1;
      [|discriminate].
    cbn [bind].
    destruct (BedCool.loop red cls (i + 1) t1 rest) as [[t2 rest']|] eqn:E2;
      [|discriminate].
    intros [= _ <-]; constructor; [eapply bedcool_layer_kept | eapply IH]; eauto.
Qed.

(** *** TempRamp *)

Lemma tempramp_scan_replaced (inc : Q) (lines : list string) :
  forall (st st' : TempRamp.state) (lines' : list string),
    TempRamp.scan inc st lines = Ok (st', lines') ->
    Forall2 (fun x y => y = x \/
                        (startswith "M104 S" x = true /\
                         exists z, y = "M104 S" ++ str z)) lines lines'.
Proof.
  induction lines as [|line rest IH]; intros [c t] st' lines'; cbn [TempRamp.scan].
  - intros [= _ <-]; constructor.
  - destruct (startswith "M104 S" line) eqn:Hcmd.
    + destruct (float (slice_from line 6)) as [v|]; [|discriminate].
      cbn [bind].
      destruct (Qeq_bool c 0); [|destruct (Qle_bool v (c + inc))];
        (destruct (TempRamp.scan inc _ rest) as [[st1 rest']|] eqn:E;
         [|discriminate]);
        cbn [bind]; intros [= _ <-]; constructor; eauto.
      right; split; [assumption|]; eexists; reflexivity.
    + destruct (TempRamp.scan inc (c, t) rest) as [[st1 rest']|] eqn:E;
        [|discriminate].
      cbn [bind]; intros [= _ <-]; constructor; eauto.
Qed.

Lemma tempramp_layer_kept (inc : Q) (st st' : TempRamp.state) (layer layer' : string) :
  TempRamp.layer_step inc st layer = Ok (st', layer') ->
  layer_kept layer layer'.
Proof.
  unfold TempRamp.layer_step.
  destruct (TempRamp.scan inc st (split_nl layer)) as [[[c t] lines]|] eqn:E;
    [|discriminate].
  apply tempramp_scan_replaced in E.
  assert (Hsp : spliced (split_nl layer) lines).
  { apply replaced_spliced.
    eapply Forall2_impl; [|exact E].
    intros x y [-> | [Hx [z ->]]]; [now left | right].
    apply starts_with_head in Hx as [x' ->].
    split; [now apply not_marker_head|].
    apply written_line; [one_line_pieces | now apply not_marker_head]. }
  assert (Hhead : forall m rest,
             split_nl layer = m :: rest -> is_marker m = true ->
             exists rest', lines = m :: rest' /\ length rest' = length rest).
  { intros m rest Er Hm; rewrite Er in E.
    inversion E as [|? y ? rest' Hy Hrest]; subst.
    exists rest'; split; [|symmetry; eapply Forall2_length; eauto].
    destruct Hy as [-> | [Hx _]]; [reflexivity|].
    now rewrite (marker_not_prefixed "M" "104 S" m) in Hx. }
  assert (Hne : lines <> []).
  { intros ->; inversion E as [E0|]; symmetry in E0.
    now apply split_nl_nonempty in E0. }
  cbn [bind].
  destruct (Qlt_bool c t); intros [= _ <-]; apply layer_kept_join; auto.
  - now apply insert_at_nonempty.
  - eapply edits_trans; [exact Hsp|].
    apply edits_insert_at; repeat constructor.
    apply written_line; [one_line_pieces | now apply not_marker_head].
  - intros m rest Er Hrest Hm.
    destruct (Hhead m rest Er Hm) as (rest' & -> & Hlen).
    rewrite insert_before_last_head; [eexists; reflexivity|].
    intros ->; destruct rest; [contradiction | discriminate].
  - intros m rest Er _ Hm.
    destruct (Hhead m rest Er Hm) as (rest' & -> & _); eexists; reflexivity.
Qed.

Lemma tempramp_loop_kept (inc : Q) (layers : list string) :
  forall (st st' : TempRamp.state) (out : list string),
    TempRamp.loop inc st layers = Ok (st', out) ->
    Forall2 layer_kept layers out.
Proof.
  induction layers as [|layer rest IH]; intros st st' out; cbn [TempRamp.loop].
  - intros [= _ <-]; constructor.
  - destruct (TempRamp.layer_step inc st layer) as [[st1 layer']|] eqn:E1;
      [|discriminate].
    cbn [bind].
    destruct (TempRamp.loop inc st1 rest) as [[st2 rest']|] eqn:E2;
      [|discriminate].
    intros [= _ <-]; constructor; [eapply tempramp_layer_kept | eapply IH]; eauto.
Qed.

End LayerKept.

(** *** CoastRetract *)

Section CoastKept.

Import CoastRetract.

Variable d : dialect.
Hypothesis retract_is_move :
  forall line g, retract_re d line = Some g -> startswith "G" line = true.
Hypothesis travel_is_one_line :
  forall line t, travel_re d line = Some t -> one_line (Templates.group t 0).

Lemma Forall2_rev {A B : Type} (R : A -> B -> Prop) (a : list A) (b : list B) :
  Forall2 R a b -> Forall2 R (rev a) (rev b).
Proof.
  induction 1; simpl; [constructor|].
  apply Forall2_app; [assumption | now constructor].
Qed.

Lemma scan_back_found (before : list slot) :
  forall nearer t farther,
    scan_back d before = Ok (Found nearer t farther) ->
    exists l,
      before = (nearer ++ Some l :: farther)%list /\
      startswith "G" l = true /\ travel_re d l = Some t.
Proof.
  induction before as [|[l|] before IH]; intros nearer t farther; cbn [scan_back];
    try discriminate.
  destruct (startswith "G" l) eqn:Hg; cbn [negb].
  - destruct (negb (find l " E" =? -1)); [discriminate|].
    destruct (travel_re d l) as [t'|] eqn:Ht; [|discriminate].
    intros [= <- <- <-]; now exists l.
  - destruct (scan_back d before) as [[| |n t' f]|]; try discriminate.
    cbn [bind]; intros [= <- <- <-].
    destruct (IH n t' f eq_refl) as (l' & -> & Hl & Ht).
    now exists l'.
Qed.

Lemma combined_is_move (g t : list string) (c : string) :
  one_line (Templates.group t 0) ->
  combined d g t = Ok c -> not_marker c /\ one_line c.
Proof.
  intros Ht; unfold combined.
  destruct (float _) as [amount|]; [|discriminate]; cbn [bind].
  destruct (float _) as [s|]; [|discriminate]; cbn [bind].
  remember (str (round s) ++ " " ++ Templates.group t 0
                ++ " E" ++ format_f 3 amount) as body eqn:Eb.
  assert (Hbody : one_line (String "G" ("1 F" ++ body))).
  { subst body.
    repeat first [ assumption | apply one_line_str | apply one_line_format_f
                 | apply one_line_app | apply one_line_cons; [discriminate|]
                 | reflexivity ]. }
  change ("G1 F" ++ body) with (String "G" ("1 F" ++ body)).
  apply (one_line_rstrip "0"), (one_line_rstrip ".") in Hbody.
  destruct (rstrip_head "0" "G" ("1 F" ++ body)) as [r Hr]; [discriminate|].
  rewrite Hr in *.
  destruct (rstrip_head "." "G" r) as [r' Hr']; [discriminate|].
  rewrite Hr' in *.
  intros [= <-]; split; [now apply not_marker_head | assumption].
Qed.

(** The loop over the lines keeps every slot in relation with the line
    it started from. *)
Lemma visit_kept (todo : list string) :
  forall (before : list slot) (orig_rev : list string) (slots : list slot),
    Forall2 slot_kept orig_rev before ->
    visit d before todo = Ok slots ->
    Forall2 slot_kept (rev orig_rev ++ todo) slots.
Proof.
  induction todo as [|line rest IH]; intros before orig_rev slots Hinv;
    cbn [visit].
  - intros [= <-]; rewrite app_nil_r; now apply Forall2_rev.
  - assert (Hpush : visit d (Some line :: before) rest = Ok slots ->
                    Forall2 slot_kept (rev orig_rev ++ line :: rest) slots).
    { intros H; apply (IH _ (line :: orig_rev)) in H.
      - simpl in H; now rewrite <- app_assoc in H.
      - constructor; [now left | assumption]. }
    destruct (retract_re d line) as [g|] eqn:Hre; [|exact Hpush].
    destruct (scan_back d before) as [[| |nearer t farther]|] eqn:Hscan;
      cbn [bind]; try exact Hpush; try discriminate.
    destruct (scan_back_found _ _ _ _ Hscan) as (l & -> & Hl & Ht).
    destruct (combined d g t) as [c|] eqn:Hc; [|discriminate]; cbn [bind].
    apply combined_is_move in Hc as [Hcm Hco]; [|eapply travel_is_one_line; eauto].
    intros H; apply (IH _ (line :: orig_rev)) in H.
    + simpl in H; now rewrite <- app_assoc in H.
    + apply Forall2_app_inv_r in Hinv as (o1 & o2 & H1 & H2 & ->).
      inversion H2 as [|x ? o2' ? Hx H2']; subst.
      constructor.
      * apply retract_is_move in Hre.
        apply starts_with_head in Hre as [r ->]; now apply not_marker_head.
      * apply Forall2_app; [assumption|].
        constructor; [|assumption].
        right; repeat split; auto.
        destruct Hx as [-> | [Hx _]]; [|assumption].
        apply starts_with_head in Hl as [r ->]; now apply not_marker_head.
Qed.

Lemma live_spliced (orig : list string) (slots : list slot) :
  Forall2 slot_kept orig slots -> spliced orig (live slots).
Proof.
  induction 1 as [|x [y|] orig slots Hx _ IH]; cbn [live]; [constructor| |].
  - destruct Hx as [-> | (Hx & Hy & Hone)]; [now constructor|].
    apply edits_delete; [assumption|].
    apply edits_insert; [now apply written_line | assumption].
  - now apply edits_delete.
Qed.

Lemma coast_layer_kept (layer layer' : string) :
  do_layer d layer = Ok layer' -> layer_kept layer layer'.
Proof.
  unfold do_layer.
  destruct (visit d [] (split_nl layer)) as [slots|] eqn:E; [|discriminate].
  cbn [bind]; intros [= <-].
  apply (visit_kept _ [] []) in E; [|constructor]; simpl in E.
  pose proof (live_spliced _ _ E) as Hsp.
  destruct (live slots) as [|y ys] eqn:El.
  - (* every line was taken out: the text is empty *)
    split.
    + change (split_nl (join_nl [])) with [EmptyString].
      apply edits_insert; [reflexivity | exact (spliced_flat _ _ (one_line_split layer) Hsp)].
    + intros m rest Er _ Hm; rewrite Er in E.
      inversion E as [|? s ? ? Hs _]; subst.
      destruct s as [y|]; [|now rewrite Hs in Hm].
      discriminate.
  - apply layer_kept_join; [discriminate | assumption |].
    intros m rest Er _ Hm; rewrite Er in E.
    inversion E as [|? s ? ss Hs _]; subst.
    destruct s as [y'|]; [|unfold not_marker in Hs; now rewrite Hs in Hm].
    cbn [live] in El; injection El as -> _.
    destruct Hs as [-> | [Hs _]]; [eexists; reflexivity|].
    unfold not_marker in Hs; now rewrite Hs in Hm.
Qed.

Lemma coast_execute_kept (data : list string) :
  forall out, execute d data = Ok out -> Forall2 layer_kept data out.
Proof.
  induction data as [|layer rest IH]; intros out; cbn [execute].
  - intros [= <-]; constructor.
  - destruct (do_layer d layer) as [layer'|] eqn:E1; [|discriminate].
    cbn [bind].
    destruct (execute d rest) as [rest'|]; [|discriminate].
    cbn [bind]; intros [= <-]; constructor; [now apply coast_layer_kept | now apply IH].
Qed.

End CoastKept.

(** *** TestingTower *)

Section TowerKept.

Import TestingTower.

Variable d : dialect.
Hypothesis retract_groups :
  forall line g,
    retract_re d line = Some g ->
    startswith "G" line = true /\ forall i, one_line (Templates.group g i).
Hypothesis prime_groups :
  forall line g,
    prime_re d line = Some g ->
    startswith "G" line = true /\ forall i, one_line (Templates.group g i).

Ltac written :=
  apply written_line;
  [ repeat first [ assumption | apply one_line_str | apply one_line_format_f
                 | apply one_line_app | apply one_line_cons; [discriminate|]
                 | reflexivity ]
  | now apply not_marker_head ].

(** What is announced goes in after the first line and holds no marker. *)
Lemma announce_spliced (c : command_choice) (first : bool) (v : Q) (lines : list string) :
  exists new,
    announce c first v lines = insert_at 1 new lines /\
    Forall (fun x => Forall not_marker (split_nl x)) new.
Proof.
  unfold announce, setter.
  destruct c; try (eexists; split; [reflexivity|]; repeat constructor; written).
  destruct first; eexists; (split; [reflexivity|]); repeat constructor; written.
Qed.

(** A move that is rewritten is replaced by one line, a move again. *)
Lemma rewrite_moves_replaced (c : command_choice) (v : Q) (lines : list string) :
  forall (p p' : Q) (lines' : list string),
    rewrite_moves d c v p lines = Ok (p', lines') ->
    Forall2 (fun x y => y = x \/
                        (startswith "G" x = true /\ Forall not_marker (split_nl y)))
            lines lines'.
Proof.
  induction lines as [|line rest IH]; intros p p' lines'; cbn [rewrite_moves].
  - intros [= _ <-]; constructor.
  - assert (Hstep : forall q y,
               (y = line \/
                (startswith "G" line = true /\ Forall not_marker (split_nl y))) ->
               ('(cp', rest') <- rewrite_moves d c v q rest ;;
                Ok (cp', y :: rest')) = Ok (p', lines') ->
               Forall2 (fun x y => y = x \/
                                   (startswith "G" x = true /\
                                    Forall not_marker (split_nl y)))
                       (line :: rest) lines').
    { intros q y Hy.
      destruct (rewrite_moves d c v q rest) as [[cp' rest']|] eqn:E; [|discriminate].
      cbn [bind]; intros [= _ <-]; constructor; eauto. }
    destruct c; try (apply Hstep; now left).
    + destruct (retract_re d line) as [g|] eqn:Hre; [|apply Hstep; now left].
      destruct (retract_groups _ _ Hre) as [Hg Hone].
      apply Hstep; right; split; [assumption|].
      pose proof (Hone (re_amount_i d)); written.
    + destruct (retract_re d line) as [g|] eqn:Hre.
      * destruct (retract_groups _ _ Hre) as [Hg Hone].
        apply Hstep; right; split; [assumption|].
        pose proof (Hone (re_speed_i d)).
        unfold format_neg_3f; destruct (Qeq_bool v 0); written.
      * destruct (prime_re d line) as [g|] eqn:Hpr; [|apply Hstep; now left].
        destruct (prime_groups _ _ Hpr) as [Hg Hone].
        destruct (negb (Qeq_bool p (-1))); apply Hstep; [right | now left].
        split; [assumption|].
        pose proof (Hone (re_speed_i d)); written.
    + destruct (prime_re d line) as [g|] eqn:Hpr; [|apply Hstep; now left].
      destruct (prime_groups _ _ Hpr) as [Hg Hone].
      apply Hstep; right; split; [assumption|].
      pose proof (Hone (re_amount_i d)); written.
    + destruct (prime_re d line) as [g|] eqn:Hpr; [|apply Hstep; now left].
      destruct (prime_groups _ _ Hpr) as [Hg Hone].
      destruct (float _) as [a|]; [|discriminate]; cbn [bind].
      apply Hstep; right; split; [assumption|].
      pose proof (Hone (re_speed_i d)); written.
Qed.

(** After the announcement: the moves are rewritten and, on the last
    layer, the restore command is put in. *)
Lemma tower_finish (c : command_choice) (va p : Q) (last : bool) (layer : string)
      (A : list string) (st' : state) (layer' : string) :
  spliced (split_nl layer) A ->
  (forall m rest,
      split_nl layer = m :: rest ->
      exists restA, A = m :: restA /\ (rest <> [] -> restA <> [])) ->
  ('(cp, B) <- rewrite_moves d c va p A ;;
   Ok ((va, cp),
       join_nl (if last then insert_before_last ["M220 R"] B else B)))
  = Ok (st', layer') ->
  layer_kept layer layer'.
Proof.
  intros HA Hhead.
  destruct (rewrite_moves d c va p A) as [[cp B]|] eqn:E; [|discriminate].
  cbn [bind]; intros [= _ <-].
  apply rewrite_moves_replaced in E.
  assert (HB : spliced A B).
  { apply replaced_spliced; eapply Forall2_impl; [|exact E].
    intros x y [-> | [Hx Hy]]; [now left | right; split; [|assumption]].
    apply starts_with_head in Hx as [r ->]; now apply not_marker_head. }
  assert (HheadB : forall m rest,
             split_nl layer = m :: rest -> rest <> [] -> is_marker m = true ->
             exists restB, B = m :: restB /\ restB <> []).
  { intros m rest Er Hrest Hm.
    destruct (Hhead m rest Er) as (restA & -> & HrestA).
    inversion E as [|? y ? restB Hy Hrest']; subst.
    exists restB; split.
    - destruct Hy as [-> | [Hx _]]; [reflexivity|].
      now rewrite (marker_not_prefixed "G" "" m) in Hx.
    - intros ->; inversion Hrest'; subst; now apply HrestA. }
  assert (HneB : B <> []).
  { destruct (split_nl layer) as [|m rest] eqn:Er; [now apply split_nl_nonempty in Er|].
    destruct (Hhead m rest eq_refl) as (restA & -> & _).
    inversion E; subst; discriminate. }
  destruct last; apply layer_kept_join.
  - now apply insert_at_nonempty.
  - eapply edits_trans; [exact HA|].
    eapply edits_trans; [exact HB|].
    apply edits_insert_at; repeat constructor.
  - intros m rest Er Hrest Hm.
    destruct (HheadB m rest Er Hrest Hm) as (restB & -> & HrestB).
    rewrite insert_before_last_head by assumption; eexists; reflexivity.
  - assumption.
  - eapply edits_trans; [exact HA | exact HB].
  - intros m rest Er Hrest Hm.
    destruct (HheadB m rest Er Hrest Hm) as (restB & -> & _); eexists; reflexivity.
Qed.

Lemma tower_layer_kept (s : settings) (start n i : Z) (st st' : state)
      (layer layer' : string) :
  layer_step d s start n i st layer = Ok (st', layer') ->
  layer_kept layer layer'.
Proof.
  unfold layer_step; destruct st as [v p].
  destruct (i <? start); [intros [= _ <-]; apply layer_kept_refl|].
  destruct (change_value_every s =? 0); [discriminate|].
  destruct ((i - start) mod change_value_every s =? 0); cbn [bind].
  - destruct (announce_spliced (command s) (i =? start) (v + value_change s)%Q
                               (split_nl layer)) as (new & -> & Hnew).
    apply tower_finish.
    + now apply edits_insert_at.
    + intros m rest ->; rewrite insert_at_1.
      eexists; split; [reflexivity|].
      intros Hrest H; apply app_eq_nil in H as [_ H]; now apply Hrest.
  - apply tower_finish.
    + apply edits_refl.
    + intros m rest ->; eexists; split; [reflexivity | auto].
Qed.

Lemma tower_loop_kept (s : settings) (start n : Z) (layers : list string) :
  forall (i : Z) (st st' : state) (out : list string),
    loop d s start n i st layers = Ok (st', out) ->
    Forall2 layer_kept layers out.
Proof.
  induction layers as [|layer rest IH]; intros i st st' out; cbn [loop].
  - intros [= _ <-]; constructor.
  - destruct (layer_step d s start n i st layer) as [[st1 layer']|] eqn:E1;
      [|discriminate].
    cbn [bind].
    destruct (loop d s start n (i + 1) st1 rest) as [[st2 rest']|] eqn:E2;
      [|discriminate].
    intros [= _ <-]; constructor; [eapply tower_layer_kept | eapply IH]; eauto.
Qed.

End TowerKept.

(** *** The four engines *)

Section EnginesKeepMarkers.



Lemma coast_standalone_retract (line : string) (g : list string) :
  CoastRetract.retract_re CoastRetract.standalone line = Some g ->
  startswith "G" line = true.
Proof. intros H; now apply amount_then_speed_groups in H. Qed.

Lemma coast_standalone_travel (line : string) (t : list string) :
  CoastRetract.travel_re CoastRetract.standalone line = Some t ->
  one_line (Templates.group t 0).
Proof.
  cbn [CoastRetract.travel_re CoastRetract.standalone].
  unfold Templates.travel_re_standalone.
  destruct (Templates.strip_prefix "G1 " line) as [r|]; [|discriminate].
  destruct (Templates.nonempty (Templates.span_dot r)); [|discriminate].
  intros [= <-]; apply one_line_span_dot.
Qed.

(** The reserved layers come back as they are. *)
Lemma reserved_kept (k : nat) (data body : list string) :
  Forall2 layer_kept (firstn k data) body ->
  Forall2 layer_kept data (body ++ skipn k data).
Proof.
  intros H; rewrite <- (firstn_skipn k data) at 1.
  apply Forall2_app; [assumption|].
  induction (skipn k data); constructor; [apply layer_kept_refl | assumption].
Qed.




End EnginesKeepMarkers.

(** ** CoastRetract: the pair of the specification *)

Section CoastPair.

Import CoastRetract.

Lemma live_app (a b : list slot) : live (a ++ b) = (live a ++ live b)%list.
Proof.
  induction a as [|[l|] a IH]; simpl; [reflexivity | now rewrite IH | exact IH].
Qed.






Lemma live_rev (slots : list slot) : live (rev slots) = rev (live slots).
Proof.
  induction slots as [|[l|] slots IH]; simpl; rewrite ?live_app, ?IH; simpl;
    [reflexivity | reflexivity | now rewrite app_nil_r].
Qed.

Lemma rstrip_keeps_prefix (c a : ascii) (p s : string) :
  a <> c -> exists r, rstrip c (p ++ String a s) = p ++ String a r.
Proof.
  intros Hac; induction p as [|x p [r IH]].
  - simpl; apply rstrip_head; assumption.
  - exists r; simpl in *; rewrite IH.
    destruct p; reflexivity.
Qed.

(** What [combined] writes starts with [G1 F]. *)
Lemma combined_prefix (d : dialect) (g t : list string) (c : string) :
  combined d g t = Ok c -> exists r, c = "G1 F" ++ r.
Proof.
  unfold combined.
  destruct (float _) as [amount|]; [|discriminate]; cbn [bind].
  destruct (float _) as [s|]; [|discriminate]; cbn [bind].
  remember (str (round s) ++ " " ++ Templates.group t 0
                ++ " E" ++ format_f 3 amount) as body eqn:Eb.
  change ("G1 F" ++ body) with ("G1 " ++ String "F" body).
  destruct (rstrip_keeps_prefix "0" "F" "G1 " body) as [r Hr]; [discriminate|].
  rewrite Hr.
  destruct (rstrip_keeps_prefix "." "F" "G1 " r) as [r' Hr']; [discriminate|].
  rewrite Hr'; intros [= <-]; now exists r'.
Qed.





(** A backward scan over lines that are no moves, down to a deleted
    slot. *)
Lemma scan_back_hits_none (d : dialect) (skipped : list string) (rest : list slot) :
  Forall (fun l => startswith "G" l = false) skipped ->
  scan_back d (map Some skipped ++ None :: rest) = Raise AttributeError.
Proof.
  induction 1 as [|l skipped Hl _ IH]; [reflexivity|].
  cbn [map app scan_back]; now rewrite Hl, IH.
Qed.

Lemma visit_raises_below_none (mid post : list string) (r2 : string) (g : list string) :
  retract_re standalone r2 = Some g ->
  Forall (fun l => startswith "G" l = false) mid ->
  forall (skipped : list string) (rest : list slot),
    Forall (fun l => startswith "G" l = false) skipped ->
    visit standalone (map Some skipped ++ None :: rest) (mid ++ r2 :: post)
    = Raise AttributeError.
Proof.
  intros Hr2; induction 1 as [|l mid Hl _ IH]; intros skipped rest Hsk.
  - cbn [app visit]; now rewrite Hr2, scan_back_hits_none.
  - cbn [app visit].
    destruct (retract_re standalone l) as [g'|] eqn:E.
    + apply coast_standalone_retract in E; congruence.
    + apply (IH (l :: skipped)); now constructor.
Qed.

Lemma visit_raises_after_pair (mid post : list string) :
  Forall (fun l => startswith "G" l = false) mid ->
  forall (pre : list string) (before : list slot),
    returns (visit standalone before
                   (pre ++ "G1 X10 Y10" :: "G1 E-2 F2400"
                        :: mid ++ "G1 E-2 F2400" :: post)) = false.
Proof.
  intros Hmid; induction pre as [|line pre IH]; intros before.
  - change (visit standalone before
                  ([] ++ "G1 X10 Y10" :: "G1 E-2 F2400"
                      :: mid ++ "G1 E-2 F2400" :: post))
      with (visit standalone
                  (map Some [] ++ None :: Some "G1 F2400 X10 Y10 E-2" :: before)
                  (mid ++ "G1 E-2 F2400" :: post)).
    assert (Hr : retract_re standalone "G1 E-2 F2400" = Some ["-2"; "2400"])
      by reflexivity.
    now rewrite (visit_raises_below_none mid post _ _ Hr Hmid [] _ (Forall_nil _)).
  - rewrite <- app_comm_cons; cbn [visit].
    destruct (retract_re standalone line); [|apply IH].
    destruct (scan_back standalone before) as [[| |nearer t farther]|];
      cbn [bind]; try apply IH; try reflexivity.
    destruct (combined standalone _ t); cbn [bind]; [apply IH | reflexivity].
Qed.

Lemma execute_raises (d : dialect) (data : list string) :
  forall (i : nat) (layer : string),
    nth_error data i = Some layer ->
    returns (do_layer d layer) = false ->
    returns (execute d data) = false.
Proof.
  induction data as [|l data IH]; intros i layer Hi Hraise.
  - destruct i; discriminate.
  - cbn [execute]; destruct i as [|i]; simpl in Hi.
    + injection Hi as ->.
      destruct (do_layer d layer); [discriminate | reflexivity].
    + destruct (do_layer d l); [|reflexivity]; cbn [bind].
      specialize (IH i layer Hi Hraise).
      destruct (execute d data); [discriminate | reflexivity].
Qed.

(** C10.  [execute] is not total.  On every stream with a layer in
    which a retraction follows a merged pair with nothing but lines that
    do not start with [G] in between, the run raises: the slot of the
    merged retraction holds [None], and the backward scan of the later
    retraction calls [startswith] on it. *)
Theorem coast_retract_raises_after_merge
        (data : list string) (i : nat) (layer : string)
        (pre mid post : list string) :
  nth_error data i = Some layer ->
  split_nl layer
  = (pre ++ "G1 X10 Y10" :: "G1 E-2 F2400" :: mid ++ "G1 E-2 F2400" :: post)%list ->
  Forall (fun l => startswith "G" l = false) mid ->
  returns (execute standalone data) = false.
Proof.
  intros Hi Hsplit Hmid; apply (execute_raises _ _ _ _ Hi).
  unfold do_layer; rewrite Hsplit.
  pose proof (visit_raises_after_pair mid post Hmid pre []) as H.
  destruct (visit standalone [] _); [discriminate | reflexivity].
Qed.

Lemma coast_retract_raises_after_merge_witness :
  nth_error [join_nl ["G1 X10 Y10"; "G1 E-2 F2400"; "; wipe"; "M400";
                      "G1 E-2 F2400"]] 0
  = Some (join_nl ["G1 X10 Y10"; "G1 E-2 F2400"; "; wipe"; "M400";
                   "G1 E-2 F2400"]) /\
  split_nl (join_nl ["G1 X10 Y10"; "G1 E-2 F2400"; "; wipe"; "M400"; "G1 E-2 F2400"])
  = ([] ++ "G1 X10 Y10" :: "G1 E-2 F2400"
        :: ["; wipe"; "M400"] ++ "G1 E-2 F2400" :: [])%list /\
  Forall (fun l => startswith "G" l = false) ["; wipe"; "M400"] /\
  returns (execute standalone
             [join_nl ["G1 X10 Y10"; "G1 E-2 F2400"; "; wipe"; "M400";
                       "G1 E-2 F2400"]]) = false.
Proof.
  assert (H0 : nth_error [join_nl ["G1 X10 Y10"; "G1 E-2 F2400"; "; wipe"; "M400";
                                   "G1 E-2 F2400"]] 0
               = Some (join_nl ["G1 X10 Y10"; "G1 E-2 F2400"; "; wipe"; "M400";
                                "G1 E-2 F2400"]))
    by reflexivity.
  assert (H1 : split_nl (join_nl ["G1 X10 Y10"; "G1 E-2 F2400"; "; wipe";
                                  "M400"; "G1 E-2 F2400"])
               = ([] ++ "G1 X10 Y10" :: "G1 E-2 F2400"
                     :: ["; wipe"; "M400"] ++ "G1 E-2 F2400" :: [])%list)
    by (vm_compute; reflexivity).
  assert (H2 : Forall (fun l => startswith "G" l = false) ["; wipe"; "M400"])
    by (repeat constructor).
  split; [exact H0 | split; [exact H1 | split; [exact H2|]]].
  exact (coast_retract_raises_after_merge _ _ _ _ _ _ H0 H1 H2).
Defined.

End CoastPair.

(* ================================================================= *)
(** * Further properties of the engines *)

(** ** The layers the loops leave alone *)

Section StreamShape.

Lemma tower_loop_length (d : TestingTower.dialect) (s : TestingTower.settings)
      (start n : Z) (layers : list string) :
  forall (i : Z) (st st' : TestingTower.state) (out : list string),
    TestingTower.loop d s start n i st layers = Ok (st', out) ->
    length out = length layers.
Proof.
  induction layers as [|layer rest IH]; intros i st st' out; cbn [TestingTower.loop].
  - now intros [= _ <-].
  - destruct (TestingTower.layer_step d s start n i st layer) as [[st1 layer']|];
      cbn [bind]; [|discriminate].
    destruct (TestingTower.loop d s start n (i + 1) st1 rest) as [[st2 rest']|] eqn:E;
      cbn [bind]; [|discriminate].
    intros [= _ <-]; simpl; f_equal; eapply IH; exact E.
Qed.

(** A body as long as [data[:-2]] followed by the two reserved layers. *)
Lemma body_and_reserved (data body : list string) :
  length body = length (firstn (length data - 2) data) ->
  length (body ++ skipn (length data - 2) data) = length data /\
  skipn (length data - 2) (body ++ skipn (length data - 2) data)
  = skipn (length data - 2) data.
Proof.
  rewrite length_firstn; intros Hb.
  assert (Hk : length body = (length data - 2)%nat) by lia.
  split.
  - rewrite length_app, length_skipn; lia.
  - rewrite skipn_app, <- Hk, skipn_all, Nat.sub_diag; reflexivity.
Qed.

(** X1.  Whenever BedCool, TempRamp or TestingTower returns a stream, it
    has as many layers as the input and its last two layers are the
    last two of the input, character for character. *)
Theorem reserved_layers_are_returned
        (bo : BedCool.options) (wo : TempRamp.options)
        (d : TestingTower.dialect) (ts : TestingTower.settings)
        (data out : list string) :
  BedCool.execute bo data = Ok out \/
  TempRamp.execute wo data = Ok out \/
  TestingTower.execute d ts data = Ok out ->
  length out = length data /\
  skipn (length data - 2) out = skipn (length data - 2) data.
Proof.
  intros [H | [H | H]].
  - unfold BedCool.execute in H.
    destruct (BedCool.loop _ _ _ _ _) as [[t body]|] eqn:E; [|discriminate].
    cbn [bind] in H; injection H as <-.
    apply body_and_reserved.
    symmetry; eapply Forall2_length, bedcool_loop_kept; exact E.
  - unfold TempRamp.execute in H.
    destruct (TempRamp.loop _ _ _) as [[st body]|] eqn:E; [|discriminate].
    cbn [bind] in H; injection H as <-.
    apply body_and_reserved.
    symmetry; eapply Forall2_length, tempramp_loop_kept; exact E.
  - unfold TestingTower.execute in H.
    destruct (TestingTower.loop _ _ _ _ _ _ _) as [[st body]|] eqn:E;
      [|discriminate].
    cbn [bind] in H; injection H as <-.
    apply body_and_reserved.
    eapply tower_loop_length; exact E.
Qed.

Lemma reserved_layers_are_returned_witness :
  (BedCool.execute BedCool.default_options nine_layers = Ok nine_layers_cooled \/
   TempRamp.execute TempRamp.default_options nine_layers = Ok nine_layers_cooled \/
   TestingTower.execute TestingTower.standalone (speed_from_100 0) nine_layers
   = Ok nine_layers_cooled) /\
  length nine_layers_cooled = length nine_layers /\
  skipn (length nine_layers - 2) nine_layers_cooled
  = skipn (length nine_layers - 2) nine_layers.
Proof.
  assert (H : BedCool.execute BedCool.default_options nine_layers
              = Ok nine_layers_cooled) by (vm_compute; reflexivity).
  split; [left; exact H|].
  apply (reserved_layers_are_returned BedCool.default_options
           TempRamp.default_options TestingTower.standalone (speed_from_100 0)
           nine_layers nine_layers_cooled).
  left; exact H.
Defined.

End StreamShape.

(** ** BedCool: what sets the ramp off, and where it stops *)

Section BedCoolWindow.

Import BedCool.

Lemma bedcool_loop_cold (red : Q) (cls : Z) (layers : list string) :
  forall i : Z,
    Forall (fun layer => bed_cmds layer = []) layers ->
    loop red cls i 0 layers = Ok (0%Q, layers).
Proof.
  induction layers as [|layer rest IH]; intros i Hall; [reflexivity|].
  inversion Hall as [|? ? Hl Hrest]; subst.
  cbn [loop]; unfold layer_step.
  rewrite (bedcool_scan_no_cmd _ _ Hl); cbn [bind].
  rewrite andb_false_r, join_split; cbn [bind].
  now rewrite (IH _ Hrest).
Qed.

(** X2.  A stream whose layers before the two reserved ones hold no
    line starting with [M140 S] is returned as it is, for every window
    and every step: no bed temperature is known, and none is written. *)
Theorem bed_cool_needs_a_bed_command (o : options) (data : list string) :
  Forall (fun layer => bed_cmds layer = []) (firstn (length data - 2) data) ->
  execute o data = Ok data.
Proof.
  intros Hall; unfold execute.
  rewrite (bedcool_loop_cold _ _ _ _ Hall); cbn [bind].
  now rewrite firstn_skipn.
Qed.

Lemma bed_cool_needs_a_bed_command_witness :
  Forall (fun layer => bed_cmds layer = [])
         (firstn (length (skipn 2 tower_layers) - 2) (skipn 2 tower_layers)) /\
  execute default_options (skipn 2 tower_layers) = Ok (skipn 2 tower_layers).
Proof.
  assert (H : Forall (fun layer => bed_cmds layer = [])
                (firstn (length (skipn 2 tower_layers) - 2) (skipn 2 tower_layers))).
  { repeat constructor. }
  split; [exact H|].
  exact (bed_cool_needs_a_bed_command default_options _ H).
Defined.

Lemma bedcool_loop_before (red : Q) (cls : Z) (layers : list string) :
  forall (i : Z) (t t' : Q) (out : list string),
    loop red cls i t layers = Ok (t', out) ->
    firstn (Z.to_nat (cls - i)) out = firstn (Z.to_nat (cls - i)) layers.
Proof.
  induction layers as [|layer rest IH]; intros i t t' out; cbn [loop].
  - now intros [= _ <-].
  - unfold layer_step.
    destruct (scan t (split_nl layer)) as [t1|]; cbn [bind]; [|discriminate].
    destruct (Z.leb_spec cls i) as [Hin | Hbefore].
    + intros _; replace (Z.to_nat (cls - i)) with O by lia; reflexivity.
    + cbn [andb bind]; rewrite join_split.
      destruct (loop red cls (i + 1) t1 rest) as [[t2 rest']|] eqn:E;
        cbn [bind]; [|discriminate].
      intros [= _ <-].
      replace (Z.to_nat (cls - i)) with (S (Z.to_nat (cls - (i + 1)))) by lia.
      cbn [firstn]; f_equal; eapply IH; exact E.
Qed.

(** X3.  Whenever BedCool returns, the layers before the window, that
    is the first [len(data) - 2 - num_final_layers] ones, are those of
    the input: a bed command is never written outside the window. *)
Theorem bed_cool_writes_in_window_only (o : options) (data out : list string) :
  execute o data = Ok out ->
  firstn (Z.to_nat (Z.of_nat (length data) - 2 - num_final_layers o)) out
  = firstn (Z.to_nat (Z.of_nat (length data) - 2 - num_final_layers o)) data.
Proof.
  unfold execute.
  destruct (loop _ _ _ _ _) as [[t body]|] eqn:E; cbn [bind]; [|discriminate].
  intros [= <-].
  assert (Hlen : length body = length (firstn (length data - 2) data)).
  { symmetry; eapply Forall2_length, bedcool_loop_kept; exact E. }
  apply bedcool_loop_before in E; rewrite Z.sub_0_r in E.
  remember (Z.to_nat (Z.of_nat (length data) - 2 - num_final_layers o)) as n.
  transitivity (firstn n (firstn (length data - 2) data
                          ++ skipn (length data - 2) data)%list);
    [|now rewrite firstn_skipn].
  rewrite !firstn_app, E, Hlen; reflexivity.
Qed.

Lemma bed_cool_writes_in_window_only_witness :
  execute default_options nine_layers = Ok nine_layers_cooled /\
  firstn (Z.to_nat (Z.of_nat (length nine_layers) - 2 - 5)) nine_layers_cooled
  = firstn (Z.to_nat (Z.of_nat (length nine_layers) - 2 - 5)) nine_layers.
Proof.
  assert (H : execute default_options nine_layers = Ok nine_layers_cooled)
    by (vm_compute; reflexivity).
  split; [exact H|].
  exact (bed_cool_writes_in_window_only default_options _ _ H).
Defined.

End BedCoolWindow.

Section BedCoolSteps.

Import BedCool.





End BedCoolSteps.

(** ** Temperature commands that cannot be read *)

Section UnreadableOperands.

Lemma float_raises_value_error (s : string) (e : exn) :
  float s = Raise e -> e = ValueError.
Proof.
  unfold float.
  repeat match goal with
         | |- context [match ?x with _ => _ end] => destruct x
         end; congruence.
Qed.

Lemma mentions_lstrip (s : string) :
  mentions ";" s = true -> mentions ";" (lstrip_space s) = true.
Proof.
  induction s as [|a s IH]; [discriminate|].
  cbn [lstrip_space].
  destruct (is_space a) eqn:Ha; [|trivial].
  cbn [mentions]; destruct (Ascii.eqb_spec a ";") as [-> | _]; [discriminate|].
  exact IH.
Qed.

Lemma mentions_rstrip (s : string) :
  mentions ";" s = true -> mentions ";" (rstrip_space s) = true.
Proof.
  induction s as [|a s IH]; [discriminate|].
  cbn [rstrip_space mentions].
  destruct (Ascii.eqb_spec a ";") as [-> | Ha]; cbn [orb].
  - intros _; destruct (rstrip_space s); reflexivity.
  - intros H; specialize (IH H).
    destruct (rstrip_space s) as [|b r]; [discriminate|].
    cbn [mentions] in *. now rewrite IH, orb_true_r.
Qed.

Lemma mentions_span_digits (s : string) :
  mentions ";" s = true -> mentions ";" (snd (span_digits s)) = true.
Proof.
  induction s as [|a s IH]; [discriminate|].
  cbn [span_digits].
  destruct (is_digit a) eqn:Ha; [|trivial].
  cbn [mentions]; destruct (Ascii.eqb_spec a ";") as [-> | _]; [discriminate|].
  cbn [orb]; intros H; specialize (IH H).
  now destruct (span_digits s).
Qed.

Lemma float_comment (s : string) :
  mentions ";" s = true -> float s = Raise ValueError.
Proof.
  intros H; apply mentions_lstrip, mentions_rstrip in H.
  destruct (float s) as [v|e] eqn:E; [|f_equal; eapply float_raises_value_error; eauto].
  exfalso; revert E; unfold float.
  destruct (rstrip_space (lstrip_space s)) as [|a s0]; [discriminate|].
  assert (Hs : exists neg s1,
             match a with
             | "+"%char => (false, s0)
             | "-"%char => (true, s0)
             | _ => (false, String a s0)
             end = (neg, s1) /\ mentions ";" s1 = true).
  { destruct a as [[] [] [] [] [] [] [] []];
      eexists _, _; (split; [reflexivity | exact H]). }
  destruct Hs as (neg & s1 & -> & H1).
  apply mentions_span_digits in H1.
  destruct (span_digits s1) as [ip r1]; cbn [snd] in H1.
  assert (Hr : exists fp r2,
             match r1 with
             | String "."%char r => span_digits r
             | _ => ("", r1)
             end = (fp, r2) /\ mentions ";" r2 = true).
  { destruct r1 as [|b r]; [discriminate|].
    destruct b as [[] [] [] [] [] [] [] []];
      try (eexists _, _; split; [reflexivity | exact H1]).
    destruct (span_digits r) as [fp r2] eqn:E.
    exists fp, r2; split; [reflexivity|].
    change r2 with (snd (fp, r2)); rewrite <- E.
    apply mentions_span_digits; exact H1. }
  destruct Hr as (fp & r2 & -> & H2).
  destruct r2; discriminate.
Qed.

Lemma bedcool_scan_comment (lines : list string) :
  forall t : Q,
    Exists (fun line => is_bed_cmd line = true /\
                        mentions ";" (slice_from line 6) = true) lines ->
    BedCool.scan t lines = Raise ValueError.
Proof.
  induction lines as [|line rest IH]; intros t Hex; inversion Hex as [? ? Hbad | ? ? Hlater];
    subst; cbn [BedCool.scan]; change (startswith "M140 S" line) with (is_bed_cmd line).
  - destruct Hbad as [-> Hc]; now rewrite (float_comment _ Hc).
  - destruct (is_bed_cmd line); [|now apply IH].
    destruct (float (slice_from line 6)) as [v|e] eqn:E; cbn [bind].
    + now apply IH.
    + f_equal; eapply float_raises_value_error; exact E.
Qed.

Lemma bedcool_loop_comment (red : Q) (cls : Z) (layers : list string) :
  forall (i : Z) (t : Q),
    Exists (fun layer =>
              Exists (fun line => is_bed_cmd line = true /\
                                  mentions ";" (slice_from line 6) = true)
                     (split_nl layer)) layers ->
    BedCool.loop red cls i t layers = Raise ValueError.
Proof.
  induction layers as [|layer rest IH]; intros i t Hex;
    inversion Hex as [? ? Hbad | ? ? Hlater]; subst;
    cbn [BedCool.loop]; unfold BedCool.layer_step.
  - now rewrite (bedcool_scan_comment _ _ Hbad).
  - destruct (BedCool.scan t (split_nl layer)) as [t1|e] eqn:E; cbn [bind].
    + destruct (_ && _); cbn [bind]; now rewrite (IH _ _ Hlater).
    + f_equal; clear -E; revert t E.
      induction (split_nl layer) as [|line lines IHl]; intros t; cbn [BedCool.scan];
        [discriminate|].
      destruct (startswith "M140 S" line); [|apply IHl].
      destruct (float (slice_from line 6)) as [v|e'] eqn:F; cbn [bind]; [apply IHl|].
      intros [= <-]; eapply float_raises_value_error; exact F.
Qed.

(** X5.  A bed command whose operand is followed by a comment, in a
    layer before the two reserved ones, makes the run of BedCool raise
    and return nothing: the text after [M140 S] is handed to [float]
    down to the end of the line, [float] raises [ValueError] on it,
    and nothing catches that. *)
Theorem bed_cool_raises_on_commented_command
        (o : BedCool.options) (data : list string) (layer line : string) :
  In layer (firstn (length data - 2) data) ->
  In line (split_nl layer) ->
  is_bed_cmd line = true ->
  mentions ";" (slice_from line 6) = true ->
  returns (BedCool.execute o data) = false.
Proof.
  intros Hlayer Hline Hcmd Hc; unfold BedCool.execute.
  rewrite bedcool_loop_comment; [reflexivity|].
  apply Exists_exists; exists layer; split; [exact Hlayer|].
  apply Exists_exists; exists line; auto.
Qed.

Lemma bed_cool_raises_on_commented_command_witness :
  In (join_nl ["; custom gcode: start_gcode"; "M140 S60 ; bed"; ""])
     (firstn (length [join_nl ["; custom gcode: start_gcode"; "M140 S60 ; bed"; ""];
                      "end"; ""] - 2)
             [join_nl ["; custom gcode: start_gcode"; "M140 S60 ; bed"; ""];
              "end"; ""]) /\
  In "M140 S60 ; bed"
     (split_nl (join_nl ["; custom gcode: start_gcode"; "M140 S60 ; bed"; ""])) /\
  is_bed_cmd "M140 S60 ; bed" = true /\
  mentions ";" (slice_from "M140 S60 ; bed" 6) = true /\
  returns (BedCool.execute BedCool.default_options
             [join_nl ["; custom gcode: start_gcode"; "M140 S60 ; bed"; ""];
              "end"; ""]) = false.
Proof.
  assert (H1 : In (join_nl ["; custom gcode: start_gcode"; "M140 S60 ; bed"; ""])
                  (firstn (length [join_nl ["; custom gcode: start_gcode";
                                            "M140 S60 ; bed"; ""]; "end"; ""] - 2)
                          [join_nl ["; custom gcode: start_gcode"; "M140 S60 ; bed"; ""];
                           "end"; ""])) by (left; reflexivity).
  assert (H2 : In "M140 S60 ; bed"
                  (split_nl (join_nl ["; custom gcode: start_gcode";
                                      "M140 S60 ; bed"; ""])))
    by (right; left; reflexivity).
  split; [exact H1 | split; [exact H2 | split; [reflexivity | split; [reflexivity|]]]].
  exact (bed_cool_raises_on_commented_command BedCool.default_options _ _ _
           H1 H2 eq_refl eq_refl).
Defined.

Lemma tempramp_scan_kind (inc : Q) (lines : list string) :
  forall (st : TempRamp.state) (e : exn),
    TempRamp.scan inc st lines = Raise e -> e = ValueError.
Proof.
  induction lines as [|line rest IH]; intros [c t] e; cbn [TempRamp.scan];
    [discriminate|].
  destruct (startswith "M104 S" line).
  - destruct (float (slice_from line 6)) as [v|e'] eqn:F; cbn [bind];
      [|intros [= <-]; eapply float_raises_value_error; exact F].
    destruct (Qeq_bool c 0); [|destruct (Qle_bool v (c + inc))];
      match goal with
      | |- context [TempRamp.scan inc ?s rest] =>
          destruct (TempRamp.scan inc s rest) as [[? ?]|e'] eqn:E; cbn [bind];
          [discriminate | intros [= <-]; eapply IH; exact E]
      end.
  - destruct (TempRamp.scan inc (c, t) rest) as [[? ?]|e'] eqn:E; cbn [bind];
      [discriminate | intros [= <-]; eapply IH; exact E].
Qed.

Lemma tempramp_scan_comment (inc : Q) (lines : list string) :
  forall st : TempRamp.state,
    Exists (fun line => is_nozzle_cmd line = true /\
                        mentions ";" (slice_from line 6) = true) lines ->
    TempRamp.scan inc st lines = Raise ValueError.
Proof.
  intros st Hex.
  destruct (TempRamp.scan inc st lines) as [[st' out]|e] eqn:E;
    [|f_equal; eapply tempramp_scan_kind; exact E].
  exfalso; revert st st' out E.
  induction Hex as [line rest [Hcmd Hc] | line rest Hlater IH]; intros [c t] st' out;
    cbn [TempRamp.scan].
  - unfold is_nozzle_cmd in Hcmd; rewrite Hcmd, (float_comment _ Hc); discriminate.
  - destruct (startswith "M104 S" line).
    + destruct (float (slice_from line 6)) as [v|e']; cbn [bind]; [|discriminate].
      destruct (Qeq_bool c 0); [|destruct (Qle_bool v (c + inc))];
        match goal with
        | |- context [TempRamp.scan inc ?s rest] =>
            destruct (TempRamp.scan inc s rest) as [[? ?]|e'] eqn:E; cbn [bind];
            [intros _; eapply IH; exact E | discriminate]
        end.
    + destruct (TempRamp.scan inc (c, t) rest) as [[? ?]|e'] eqn:E; cbn [bind];
        [intros _; eapply IH; exact E | discriminate].
Qed.

Lemma tempramp_loop_comment (inc : Q) (layers : list string) :
  forall st : TempRamp.state,
    Exists (fun layer =>
              Exists (fun line => is_nozzle_cmd line = true /\
                                  mentions ";" (slice_from line 6) = true)
                     (split_nl layer)) layers ->
    TempRamp.loop inc st layers = Raise ValueError.
Proof.
  induction layers as [|layer rest IH]; intros st Hex;
    inversion Hex as [? ? Hbad | ? ? Hlater]; subst;
    cbn [TempRamp.loop]; unfold TempRamp.layer_step.
  - now rewrite (tempramp_scan_comment _ _ _ Hbad).
  - destruct (TempRamp.scan inc st (split_nl layer)) as [[[c t] lines]|e] eqn:E;
      cbn [bind].
    + destruct (Qlt_bool c t); cbn [bind]; now rewrite (IH _ Hlater).
    + f_equal; eapply tempramp_scan_kind; exact E.
Qed.

(** X6.  The same holds of TempRamp and a nozzle command: an [M104 S]
    line with a comment after its operand, in a layer before the two
    reserved ones, makes the run raise and return nothing. *)
Theorem temp_ramp_raises_on_commented_command
        (o : TempRamp.options) (data : list string) (layer line : string) :
  In layer (firstn (length data - 2) data) ->
  In line (split_nl layer) ->
  is_nozzle_cmd line = true ->
  mentions ";" (slice_from line 6) = true ->
  returns (TempRamp.execute o data) = false.
Proof.
  intros Hlayer Hline Hcmd Hc; unfold TempRamp.execute.
  rewrite tempramp_loop_comment; [reflexivity|].
  apply Exists_exists; exists layer; split; [exact Hlayer|].
  apply Exists_exists; exists line; auto.
Qed.

Lemma temp_ramp_raises_on_commented_command_witness :
  In (join_nl ["M104 S215 ; nozzle"; ""])
     (firstn (length [join_nl ["M104 S215 ; nozzle"; ""]; "end"; ""] - 2)
             [join_nl ["M104 S215 ; nozzle"; ""]; "end"; ""]) /\
  In "M104 S215 ; nozzle" (split_nl (join_nl ["M104 S215 ; nozzle"; ""])) /\
  is_nozzle_cmd "M104 S215 ; nozzle" = true /\
  mentions ";" (slice_from "M104 S215 ; nozzle" 6) = true /\
  returns (TempRamp.execute TempRamp.default_options
             [join_nl ["M104 S215 ; nozzle"; ""]; "end"; ""]) = false.
Proof.
  assert (H1 : In (join_nl ["M104 S215 ; nozzle"; ""])
                  (firstn (length [join_nl ["M104 S215 ; nozzle"; ""]; "end"; ""] - 2)
                          [join_nl ["M104 S215 ; nozzle"; ""]; "end"; ""]))
    by (left; reflexivity).
  assert (H2 : In "M104 S215 ; nozzle"
                  (split_nl (join_nl ["M104 S215 ; nozzle"; ""])))
    by (left; reflexivity).
  split; [exact H1 | split; [exact H2 | split; [reflexivity | split; [reflexivity|]]]].
  exact (temp_ramp_raises_on_commented_command TempRamp.default_options _ _ _
           H1 H2 eq_refl eq_refl).
Defined.

End UnreadableOperands.

(** ** TempRamp: requests that are passed on, and the staircase *)

Section TempRampRequests.

Import TempRamp.












End TempRampRequests.

(** ** TestingTower: where the tower starts, and its period *)

Section TowerStart.

Import TestingTower.

Lemma tower_loop_zero_period (d : dialect) (s : settings) (start n : Z)
      (layers : list string) :
  forall (i : Z) (st : state),
    change_value_every s = 0 ->
    layers <> [] ->
    start < i + Z.of_nat (length layers) ->
    loop d s start n i st layers = Raise ZeroDivisionError.
Proof.
  induction layers as [|layer rest IH]; intros i [v p] Hzero Hne Hlen;
    [contradiction|].
  cbn [loop]; unfold layer_step.
  destruct (Z.ltb_spec i start) as [Hbefore | Hin].
  - cbn [bind]; rewrite IH; [reflexivity | exact Hzero | | simpl length in Hlen; lia].
    destruct rest; [simpl in Hlen; lia | discriminate].
  - rewrite Hzero; reflexivity.
Qed.

(** X9.  With a change period of 0, which neither the argument parser
    nor [execute] turns away, TestingTower raises [ZeroDivisionError]
    as soon as a layer at or after the start layer is reached: that
    is, whenever the start layer lies before the two reserved layers. *)
Theorem tower_zero_period_raises (d : dialect) (s : settings) (data : list string) :
  change_value_every s = 0 ->
  0 < Z.of_nat (length data) - 2 ->
  start_layer s + 2 < Z.of_nat (length data) - 2 ->
  execute d s data = Raise ZeroDivisionError.
Proof.
  intros Hzero Hbody Hstart; unfold execute.
  rewrite tower_loop_zero_period; [reflexivity | exact Hzero | |].
  - intros Hnil; apply (f_equal (@length string)) in Hnil.
    rewrite length_firstn in Hnil; simpl in Hnil; lia.
  - rewrite length_firstn; lia.
Qed.

Lemma tower_zero_period_raises_witness :
  change_value_every
    {| command := speed; start_value := 100; value_change := 1;
       start_layer := 1; change_value_every := 0 |} = 0 /\
  0 < Z.of_nat (length tower_layers) - 2 /\
  start_layer
    {| command := speed; start_value := 100; value_change := 1;
       start_layer := 1; change_value_every := 0 |} + 2
  < Z.of_nat (length tower_layers) - 2 /\
  execute standalone
    {| command := speed; start_value := 100; value_change := 1;
       start_layer := 1; change_value_every := 0 |} tower_layers
  = Raise ZeroDivisionError.
Proof.
  assert (H1 : 0 < Z.of_nat (length tower_layers) - 2) by (simpl; lia).
  assert (H2 : 1 + 2 < Z.of_nat (length tower_layers) - 2) by (simpl; lia).
  split; [reflexivity | split; [exact H1 | split; [exact H2|]]].
  exact (tower_zero_period_raises standalone
           {| command := speed; start_value := 100; value_change := 1;
              start_layer := 1; change_value_every := 0 |}
           tower_layers eq_refl H1 H2).
Defined.

(** X10.  When the start layer lies at or beyond the two reserved
    layers, TestingTower returns the stream as it is, for every
    command and every period, 0 included: no layer is reached. *)
Theorem tower_start_beyond_stream (d : dialect) (s : settings) (data : list string) :
  Z.of_nat (length data) - 2 <= start_layer s + 2 ->
  execute d s data = Ok data.
Proof.
  intros Hstart; unfold execute.
  destruct (Nat.le_gt_cases (length data) 2) as [Hshort | Hlong].
  - replace (length data - 2)%nat with O by lia; reflexivity.
  - rewrite tower_before_start by (rewrite length_firstn; lia).
    cbn [bind]; now rewrite firstn_skipn.
Qed.

Lemma tower_start_beyond_stream_witness :
  Z.of_nat (length tower_layers) - 2
  <= start_layer
       {| command := retract_distance; start_value := 2; value_change := 1;
          start_layer := 4; change_value_every := 0 |} + 2 /\
  execute standalone
    {| command := retract_distance; start_value := 2; value_change := 1;
       start_layer := 4; change_value_every := 0 |} tower_layers
  = Ok tower_layers.
Proof.
  assert (H : Z.of_nat (length tower_layers) - 2 <= 4 + 2) by (simpl; lia).
  split; [exact H|].
  exact (tower_start_beyond_stream standalone
           {| command := retract_distance; start_value := 2; value_change := 1;
              start_layer := 4; change_value_every := 0 |} tower_layers H).
Defined.

Lemma tower_loop_before (d : dialect) (s : settings) (start n : Z)
      (layers : list string) :
  forall (i : Z) (st st' : state) (out : list string),
    loop d s start n i st layers = Ok (st', out) ->
    firstn (Z.to_nat (start - i)) out = firstn (Z.to_nat (start - i)) layers.
Proof.
  induction layers as [|layer rest IH]; intros i [v p] st' out; cbn [loop].
  - now intros [= _ <-].
  - unfold layer_step at 1.
    destruct (Z.ltb_spec i start) as [Hbefore | Hin].
    + cbn [bind].
      destruct (loop d s start n (i + 1) (v, p) rest) as [[st2 rest']|] eqn:E;
        cbn [bind]; [|discriminate].
      intros [= _ <-].
      replace (Z.to_nat (start - i)) with (S (Z.to_nat (start - (i + 1)))) by lia.
      cbn [firstn]; f_equal; eapply IH; exact E.
    + intros _; replace (Z.to_nat (start - i)) with O by lia; reflexivity.
Qed.

(** X11.  Whenever TestingTower returns, the layers before the start
    layer (the prelude, the start G-code and [start_layer] layers
    after them) are those of the input. *)
Theorem tower_layers_before_start (d : dialect) (s : settings) (data out : list string) :
  execute d s data = Ok out ->
  firstn (Z.to_nat (start_layer s + 2)) out
  = firstn (Z.to_nat (start_layer s + 2)) data.
Proof.
  unfold execute.
  destruct (loop _ _ _ _ _ _ _) as [[st body]|] eqn:E; cbn [bind]; [|discriminate].
  intros [= <-].
  assert (Hlen : length body = length (firstn (length data - 2) data))
    by (eapply tower_loop_length; exact E).
  apply tower_loop_before in E; rewrite Z.sub_0_r in E.
  remember (Z.to_nat (start_layer s + 2)) as k.
  transitivity (firstn k (firstn (length data - 2) data
                          ++ skipn (length data - 2) data)%list);
    [|now rewrite firstn_skipn].
  rewrite !firstn_app, E, Hlen; reflexivity.
Qed.

Lemma tower_layers_before_start_witness :
  execute standalone (speed_from_100 0) tower_layers
  = Ok (firstn 2 tower_layers
        ++ swept 0 (firstn 4 (skipn 2 tower_layers)) ++ skipn 6 tower_layers)%list /\
  firstn (Z.to_nat (0 + 2))
         (firstn 2 tower_layers
          ++ swept 0 (firstn 4 (skipn 2 tower_layers)) ++ skipn 6 tower_layers)%list
  = firstn (Z.to_nat (0 + 2)) tower_layers.
Proof.
  assert (H : execute standalone (speed_from_100 0) tower_layers
              = Ok (firstn 2 tower_layers
                    ++ swept 0 (firstn 4 (skipn 2 tower_layers))
                    ++ skipn 6 tower_layers)%list) by (vm_compute; reflexivity).
  split; [exact H|].
  exact (tower_layers_before_start standalone (speed_from_100 0) tower_layers _ H).
Defined.

End TowerStart.

(** ** TestingTower: the setter commands *)

Section TowerSetters.

Import TestingTower.

Lemma rewrite_moves_setter (d : dialect) (c : command_choice) (v p : Q)
      (lines : list string) :
  rewrites_moves c = false -> rewrite_moves d c v p lines = Ok (p, lines).
Proof.
  intros Hc; induction lines as [|line rest IH]; [reflexivity|].
  destruct c; try discriminate; cbn [rewrite_moves] in *; now rewrite IH.
Qed.

Lemma only_inserted_flat (ls ls' : list string) :
  Forall one_line ls ->
  only_inserted ls ls' -> only_inserted ls (flat_map split_nl ls').
Proof.
  intros Hone H; induction H as [|l ls ls' H IH|new ls ls' _ H IH|l ls ls' []];
    cbn [flat_map].
  - constructor.
  - inversion Hone as [|? ? Hl Hls]; subst.
    rewrite Hl; apply edits_keep; exact (IH Hls).
  - apply edits_insert_all; [|exact (IH Hone)].
    induction (split_nl new); constructor; auto.
Qed.

Lemma only_inserted_at (k : nat) (new ls : list string) :
  only_inserted ls (insert_at k new ls).
Proof. apply edits_insert_at; induction new; constructor; auto. Qed.

Lemma tower_setter_layer (d : dialect) (s : settings) (start n i : Z)
      (st st' : state) (layer layer' : string) :
  rewrites_moves (command s) = false ->
  layer_step d s start n i st layer = Ok (st', layer') ->
  only_inserted (split_nl layer) (split_nl layer').
Proof.
  intros Hc; unfold layer_step; destruct st as [v p].
  destruct (i <? start); [intros [= _ <-]; apply edits_refl|].
  destruct (change_value_every s =? 0); [discriminate|].
  assert (Hjoin : forall lines,
             only_inserted (split_nl layer) lines ->
             only_inserted (split_nl layer)
               (split_nl (join_nl (if (i =? n - 3) && command_eqb (command s) speed
                                   then insert_before_last ["M220 R"] lines
                                   else lines)))).
  { intros lines Hl.
    assert (Hne : lines <> []).
    { intros ->; inversion Hl; subst.
      - now apply (split_nl_nonempty layer).
      - contradiction. }
    destruct (_ && _).
    - rewrite split_join by (now apply insert_at_nonempty).
      apply only_inserted_flat; [apply one_line_split|].
      eapply edits_trans; [exact Hl | apply only_inserted_at].
    - rewrite split_join by exact Hne.
      apply only_inserted_flat; [apply one_line_split | exact Hl]. }
  destruct (_ mod _ =? 0); cbn [bind]; rewrite (rewrite_moves_setter _ _ _ _ _ Hc);
    cbn [bind]; intros [= _ <-]; apply Hjoin.
  - unfold announce; destruct (setter _ _ _) as [[g|] l]; apply only_inserted_at.
  - apply edits_refl.
Qed.

Lemma tower_setter_loop (d : dialect) (s : settings) (start n : Z)
      (layers : list string) :
  rewrites_moves (command s) = false ->
  forall (i : Z) (st st' : state) (out : list string),
    loop d s start n i st layers = Ok (st', out) ->
    Forall2 (fun layer layer' => only_inserted (split_nl layer) (split_nl layer'))
            layers out.
Proof.
  intros Hc; induction layers as [|layer rest IH]; intros i st st' out; cbn [loop].
  - intros [= _ <-]; constructor.
  - destruct (layer_step d s start n i st layer) as [[st1 layer']|] eqn:E1;
      cbn [bind]; [|discriminate].
    destruct (loop d s start n (i + 1) st1 rest) as [[st2 rest']|] eqn:E2;
      cbn [bind]; [|discriminate].
    intros [= _ <-]; constructor; [|eapply IH; exact E2].
    eapply tower_setter_layer; [exact Hc | exact E1].
Qed.

(** X12.  With one of the thirteen commands that set a value (all but
    retract-speed, retract-distance, prime-speed and extra-prime),
    TestingTower only puts lines in: whenever it returns, every line of
    every layer of the input is in the output, unchanged and in its
    order. *)
Theorem tower_setters_only_insert (d : dialect) (s : settings) (data out : list string) :
  rewrites_moves (command s) = false ->
  execute d s data = Ok out ->
  Forall2 (fun layer layer' => only_inserted (split_nl layer) (split_nl layer'))
          data out.
Proof.
  intros Hc; unfold execute.
  destruct (loop _ _ _ _ _ _ _) as [[st body]|] eqn:E; cbn [bind]; [|discriminate].
  intros [= <-].
  rewrite <- (firstn_skipn (length data - 2) data) at 1.
  apply Forall2_app; [eapply tower_setter_loop; [exact Hc | exact E]|].
  induction (skipn (length data - 2) data); constructor; [apply edits_refl | assumption].
Qed.

Lemma tower_setters_only_insert_witness :
  rewrites_moves (command (speed_from_100 0)) = false /\
  execute standalone (speed_from_100 0) tower_layers
  = Ok (firstn 2 tower_layers
        ++ swept 0 (firstn 4 (skipn 2 tower_layers)) ++ skipn 6 tower_layers)%list /\
  Forall2 (fun layer layer' => only_inserted (split_nl layer) (split_nl layer'))
          tower_layers
          (firstn 2 tower_layers
           ++ swept 0 (firstn 4 (skipn 2 tower_layers)) ++ skipn 6 tower_layers)%list.
Proof.
  assert (H : execute standalone (speed_from_100 0) tower_layers
              = Ok (firstn 2 tower_layers
                    ++ swept 0 (firstn 4 (skipn 2 tower_layers))
                    ++ skipn 6 tower_layers)%list) by (vm_compute; reflexivity).
  split; [reflexivity | split; [exact H|]].
  exact (tower_setters_only_insert standalone (speed_from_100 0) tower_layers _
           eq_refl H).
Defined.







End TowerSetters.

(** ** The numbers in the matched moves *)

Section MatchedNumbers.

Lemma digit_is_no_space (c : ascii) : is_digit c = true -> is_space c = false.
Proof. destruct c as [[] [] [] [] [] [] [] []]; (discriminate || reflexivity). Qed.

(** What [span_digits] splits off: digits only, up to a character that
    is no digit. *)
Lemma span_digits_spec (s : string) :
  forall d r : string,
    span_digits s = (d, r) ->
    s = d ++ r /\
    Forall (fun c => is_digit c = true) (list_ascii_of_string d) /\
    match r with String c _ => is_digit c = false | EmptyString => True end.
Proof.
  induction s as [|c s IH]; intros d r; cbn [span_digits].
  - intros [= <- <-]; repeat split; constructor.
  - destruct (is_digit c) eqn:Hc.
    + destruct (span_digits s) as [d' r'].
      intros [= <- <-]; destruct (IH d' r' eq_refl) as (-> & Hd & Hr).
      repeat split; [constructor; assumption | exact Hr].
    + intros [= <- <-]; repeat split; [constructor | exact Hc].
Qed.

Lemma span_digits_of_digits (d r : string) :
  Forall (fun c => is_digit c = true) (list_ascii_of_string d) ->
  match r with String c _ => is_digit c = false | EmptyString => True end ->
  span_digits (d ++ r) = (d, r).
Proof.
  induction d as [|c d IH]; cbn [list_ascii_of_string append]; intros Hd Hr.
  - destruct r as [|c r]; [reflexivity|]; cbn [span_digits]; now rewrite Hr.
  - inversion Hd as [|? ? Hc Hd']; subst.
    cbn [span_digits]; now rewrite Hc, (IH Hd' Hr).
Qed.

Lemma rstrip_space_none (s : string) :
  Forall (fun c => is_space c = false) (list_ascii_of_string s) ->
  rstrip_space s = s.
Proof.
  induction s as [|c s IH]; [reflexivity|].
  cbn [list_ascii_of_string rstrip_space]; intros H.
  inversion H as [|? ? Hc Hs]; subst.
  rewrite (IH Hs), Hc; now destruct s.
Qed.

(** [float] reads every text made of an optional minus sign, one or
    more digits, and an optional point with further digits. *)
Lemma float_reads_number (negative : bool) (d1 d2 : string) (point : bool) :
  d1 <> "" ->
  Forall (fun c => is_digit c = true) (list_ascii_of_string d1) ->
  Forall (fun c => is_digit c = true) (list_ascii_of_string d2) ->
  exists v,
    float ((if negative then "-" else "")
           ++ d1 ++ (if point then "." ++ d2 else "")) = Ok v.
Proof.
  intros Hne H1 H2.
  set (frac := if point then "." ++ d2 else "").
  assert (Hfrac : match frac with String c _ => is_digit c = false | EmptyString => True end).
  { unfold frac; now destruct point. }
  assert (Hsp : Forall (fun c => is_space c = false)
                       (list_ascii_of_string (d1 ++ frac))).
  { clear Hne Hfrac; induction d1 as [|c d1 IH]; cbn [append list_ascii_of_string].
    - unfold frac; destruct point; [|constructor].
      cbn [append list_ascii_of_string]; constructor; [reflexivity|].
      clear -H2; induction d2 as [|c d2 IH]; cbn [list_ascii_of_string]; [constructor|].
      inversion H2; subst; constructor; [now apply digit_is_no_space | auto].
    - inversion H1; subst; constructor; [now apply digit_is_no_space | auto]. }
  destruct d1 as [|c d1]; [contradiction|].
  inversion H1 as [|? ? Hc H1']; subst.
  assert (Hspan : span_digits (String c d1 ++ frac) = (String c d1, frac))
    by (now apply span_digits_of_digits).
  assert (Hrest : exists fp,
             match frac with
             | String "."%char r => span_digits r
             | _ => ("", frac)
             end = (fp, "")).
  { unfold frac; destruct point; [|now exists ""].
    exists d2; cbn [append].
    rewrite <- (append_empty_r d2) at 1. now apply span_digits_of_digits. }
  destruct Hrest as (fp & Hrest).
  unfold float.
  assert (Hstrip : rstrip_space (lstrip_space ((if negative then "-" else "")
                                                ++ String c d1 ++ frac))
                   = (if negative then "-" else "") ++ String c d1 ++ frac).
  { destruct negative; cbn [append lstrip_space].
    - change (is_space "-") with false; cbv iota.
      apply rstrip_space_none; constructor; [reflexivity | exact Hsp].
    - rewrite (digit_is_no_space _ Hc). now apply rstrip_space_none. }
  rewrite Hstrip.
  destruct negative; cbn [append].
  - cbv iota beta. change (String c (d1 ++ frac)) with (String c d1 ++ frac).
    rewrite Hspan, Hrest; cbn [String.length Nat.add Nat.eqb]. eexists; reflexivity.
  - assert (Hsign : match c with
             | "+"%char => (false, d1 ++ frac)
             | "-"%char => (true, d1 ++ frac)
             | _ => (false, String c (d1 ++ frac))
             end = (false, String c (d1 ++ frac))).
    { clear -Hc; destruct c as [[] [] [] [] [] [] [] []]; (discriminate || reflexivity). }
    rewrite Hsign. change (String c (d1 ++ frac)) with (String c d1 ++ frac).
    rewrite Hspan, Hrest; cbn [String.length Nat.add Nat.eqb]. eexists; reflexivity.
Qed.


Lemma span_number_shape (s a r : string) :
  Templates.span_number s = Some (a, r) ->
  exists (d1 d2 : string) (point : bool),
    a = d1 ++ (if point then "." ++ d2 else "") /\
    d1 <> "" /\
    Forall (fun c => is_digit c = true) (list_ascii_of_string d1) /\
    Forall (fun c => is_digit c = true) (list_ascii_of_string d2).
Proof.
  unfold Templates.span_number.
  destruct (span_digits s) as [d1 r1] eqn:E1.
  destruct (span_digits_spec _ _ _ E1) as (_ & H1 & _).
  destruct d1 as [|c d1]; [discriminate|]; cbn [Templates.nonempty].
  assert (Hplain : Some (String c d1, r1) = Some (a, r) ->
                   exists (d1' d2 : string) (point : bool),
                     a = d1' ++ (if point then "." ++ d2 else "") /\
                     d1' <> "" /\
                     Forall (fun c => is_digit c = true) (list_ascii_of_string d1') /\
                     Forall (fun c => is_digit c = true) (list_ascii_of_string d2)).
  { intros [= <- <-]; exists (String c d1), "", false.
    rewrite append_empty_r; repeat split; [discriminate | exact H1 | constructor]. }
  destruct r1 as [|b r2]; [exact Hplain|].
  destruct (Ascii.eqb_spec b ".") as [-> | Hb].
  - destruct (span_digits r2) as [d2 r3] eqn:E2.
    destruct (span_digits_spec _ _ _ E2) as (_ & H2 & _).
    intros [= <- <-]; exists (String c d1), d2, true.
    repeat split; [discriminate | exact H1 | exact H2].
  - revert Hplain; clear -Hb.
    destruct b as [[] [] [] [] [] [] [] []]; try (intros H; exact H).
    contradiction Hb; reflexivity.
Qed.


End MatchedNumbers.

(** ** TestingTower: retracts and primes of a retract-distance tower *)

Section RetractDistance.

Import TestingTower.

Lemma round_comp (x y : Q) : (x == y)%Q -> round x = round y.
Proof.
  intros H; unfold round.
  rewrite (Qfloor_comp _ _ H).
  assert (Hc : (x - inject_Z (Qfloor y) ?= 1 # 2)%Q
               = (y - inject_Z (Qfloor y) ?= 1 # 2)%Q)
    by (now rewrite H).
  now rewrite Hc.
Qed.

(** The text written for a retract is that written for a prime of the
    same distance, behind a minus sign. *)
Lemma format_neg_3f_nonneg (v : Q) :
  (0 <= v)%Q -> format_neg_3f v = "-" ++ format_f 3 v.
Proof.
  intros Hv; unfold format_neg_3f.
  assert (Hpos : Qlt_bool v 0 = false).
  { unfold Qlt_bool; apply Qle_bool_iff in Hv; now rewrite Hv. }
  destruct (Qeq_bool v 0) eqn:Hz.
  - apply Qeq_bool_iff in Hz; unfold format_f; rewrite Hpos.
    assert (Hr : round (Qabs v * inject_Z (10 ^ Z.of_nat 3))
                 = round (Qabs 0 * inject_Z (10 ^ Z.of_nat 3)))
      by (apply round_comp; now rewrite Hz).
    now rewrite Hr.
  - unfold format_f; rewrite Hpos.
    assert (Hneg : Qlt_bool (- v) 0 = true).
    { unfold Qlt_bool; destruct (Qle_bool 0 (- v)) eqn:E; [|reflexivity].
      apply Qle_bool_iff in E.
      assert (Hzero : (v == 0)%Q).
      { apply Qle_antisym; [|exact Hv].
        apply Qopp_le_compat in E; now rewrite Qopp_involutive in E. }
      apply Qeq_bool_iff in Hzero; congruence. }
    rewrite Hneg.
    assert (Hr : round (Qabs (- v) * inject_Z (10 ^ Z.of_nat 3))
                 = round (Qabs v * inject_Z (10 ^ Z.of_nat 3)))
      by (apply round_comp; now rewrite Qabs_opp).
    now rewrite Hr.
Qed.

Lemma rewrite_moves_app (d : dialect) (c : command_choice) (v : Q)
      (l1 l2 : list string) :
  forall p : Q,
    rewrite_moves d c v p (l1 ++ l2)
    = ('(p1, o1) <- rewrite_moves d c v p l1 ;;
       '(p2, o2) <- rewrite_moves d c v p1 l2 ;;
       Ok (p2, (o1 ++ o2)%list)).
Proof.
  induction l1 as [|line l1 IH]; intros p.
  - cbn [app rewrite_moves bind].
    now destruct (rewrite_moves d c v p l2) as [[? ?]|].
  - rewrite <- app_comm_cons; cbn [rewrite_moves].
    assert (Hkeep : forall cp new_line,
               ('(cp', rest') <- rewrite_moves d c v cp (l1 ++ l2) ;;
                Ok (cp', new_line :: rest'))
               = ('(p1, o1) <- ('(cp', rest') <- rewrite_moves d c v cp l1 ;;
                                Ok (cp', new_line :: rest')) ;;
                  '(p2, o2) <- rewrite_moves d c v p1 l2 ;;
                  Ok (p2, (o1 ++ o2)%list))).
    { intros cp new_line; rewrite IH.
      destruct (rewrite_moves d c v cp l1) as [[p1 o1]|]; cbn [bind]; [|reflexivity].
      now destruct (rewrite_moves d c v p1 l2) as [[? ?]|]. }
    destruct c; try apply Hkeep.
    + destruct (retract_re d line); apply Hkeep.
    + destruct (retract_re d line); [apply Hkeep|].
      destruct (prime_re d line); [|apply Hkeep].
      destruct (negb _); apply Hkeep.
    + destruct (prime_re d line); apply Hkeep.
    + destruct (prime_re d line); [|apply Hkeep].
      destruct (float _); cbn [bind]; [apply Hkeep | reflexivity].
Qed.

(** A retract-distance pass returns, keeps the number of lines, and
    leaves the distance to prime by either as it was or at the value of
    the layer. *)
Lemma retract_distance_pass (d : dialect) (v : Q) (lines : list string) :
  forall p : Q,
    exists p' out,
      rewrite_moves d retract_distance v p lines = Ok (p', out) /\
      length out = length lines /\
      (p' = p \/ p' = v).
Proof.
  induction lines as [|line rest IH]; intros p; [exists p, []; auto|].
  assert (Hkeep : forall cp new_line,
             cp = p \/ cp = v ->
             exists p' out,
               ('(cp', rest') <- rewrite_moves d retract_distance v cp rest ;;
                Ok (cp', new_line :: rest')) = Ok (p', out) /\
               length out = length (line :: rest) /\
               (p' = p \/ p' = v)).
  { intros cp new_line Hcp; destruct (IH cp) as (p' & out & -> & Hlen & Hp).
    exists p', (new_line :: out); cbn [bind length]; repeat split; [lia|].
    destruct Hp as [-> | ->]; auto. }
  cbn [rewrite_moves].
  destruct (retract_re d line); [apply Hkeep; auto|].
  destruct (prime_re d line); [|apply Hkeep; auto].
  destruct (negb _); apply Hkeep; auto.
Qed.

(** X14.  In a layer of a retract-distance tower whose value [v] is
    not negative, a retract move is rewritten to the distance [-v] and
    every prime move after it in the layer to the distance [v], printed
    with the same digits: what is primed is what was retracted.  The
    feed rates are those of the moves, and no line is put in or taken
    out. *)
Theorem tower_prime_matches_retract
        (d : dialect) (v p : Q) (pre mid post : list string) (r pr : string)
        (gr gp : list string) :
  (0 <= v)%Q ->
  retract_re d r = Some gr ->
  retract_re d pr = None ->
  prime_re d pr = Some gp ->
  exists (cp : Q) (pre' mid' post' : list string),
    rewrite_moves d retract_distance v p (pre ++ r :: mid ++ pr :: post)
    = Ok (cp,
          (pre' ++ ("G1 F" ++ Templates.group gr (re_speed_i d)
                           ++ " E-" ++ format_f 3 v)%string
                :: mid' ++ ("G1 F" ++ Templates.group gp (re_speed_i d)
                                   ++ " E" ++ format_f 3 v)%string
                :: post')%list) /\
    length pre' = length pre /\
    length mid' = length mid /\
    length post' = length post.
Proof.
  intros Hv Hr Hpr Hprime.
  assert (Hsent : Qeq_bool v (-1) = false).
  { destruct (Qeq_bool v (-1)) eqn:E; [|reflexivity].
    apply Qeq_bool_iff in E; rewrite E in Hv.
    now contradiction Hv. }
  destruct (retract_distance_pass d v pre p) as (p1 & pre' & Hpre & Lpre & _).
  destruct (retract_distance_pass d v mid v) as (p2 & mid' & Hmid & Lmid & Hp2).
  assert (p2 = v) by (destruct Hp2; assumption); subst p2.
  destruct (retract_distance_pass d v post v) as (cp & post' & Hpost & Lpost & _).
  exists cp, pre', mid', post'; repeat split; try assumption.
  rewrite rewrite_moves_app, Hpre; cbn [bind rewrite_moves].
  rewrite Hr, rewrite_moves_app, Hmid; cbn [bind rewrite_moves].
  rewrite Hpr, Hprime, Hsent; cbn [negb].
  rewrite Hpost; cbn [bind].
  rewrite (format_neg_3f_nonneg v Hv).
  reflexivity.
Qed.

Lemma tower_prime_matches_retract_witness :
  (0 <= 2)%Q /\
  retract_re standalone "G1 E-1.5 F2400" = Some ["-1.5"; "2400"] /\
  retract_re standalone "G1 E1.5 F1800" = None /\
  prime_re standalone "G1 E1.5 F1800" = Some ["1.5"; "1800"] /\
  exists (cp : Q) (pre' mid' post' : list string),
    rewrite_moves standalone retract_distance 2 (-1)
                  ([";LAYER_CHANGE"] ++ "G1 E-1.5 F2400"
                     :: ["G1 X10 Y10"] ++ "G1 E1.5 F1800" :: [""])
    = Ok (cp, (pre' ++ "G1 F2400 E-2.000" :: mid' ++ "G1 F1800 E2.000" :: post')%list) /\
    length pre' = length [";LAYER_CHANGE"] /\
    length mid' = length ["G1 X10 Y10"] /\
    length post' = length [""].
Proof.
  assert (H : (0 <= 2)%Q) by (unfold Qle; simpl; lia).
  split; [exact H | split; [reflexivity | split; [reflexivity | split; [reflexivity|]]]].
  exact (tower_prime_matches_retract standalone 2 (-1) [";LAYER_CHANGE"]
           ["G1 X10 Y10"] [""] "G1 E-1.5 F2400" "G1 E1.5 F1800"
           ["-1.5"; "2400"] ["1.5"; "1800"] H eq_refl eq_refl eq_refl).
Defined.

End RetractDistance.

(** ** CoastRetract: what a run leaves of a layer *)

Section CoastLayers.

Import CoastRetract.

Variable d : dialect.
Hypothesis retract_is_move :
  forall line g, retract_re d line = Some g -> startswith "G" line = true.
Hypothesis travel_is_one_line :
  forall line t, travel_re d line = Some t -> one_line (Templates.group t 0).

Lemma live_map_some (lines : list string) : live (map Some lines) = lines.
Proof. induction lines as [|l lines IH]; simpl; [reflexivity | now rewrite IH]. Qed.

(** What a scan that finds a move has gone past, and what it found. *)
Lemma scan_back_finds (before : list slot) :
  forall nearer t farther,
    scan_back d before = Ok (Found nearer t farther) ->
    exists skipped l,
      nearer = map Some skipped /\
      Forall (fun x => startswith "G" x = false) skipped /\
      before = (nearer ++ Some l :: farther)%list /\
      takes_retract d l = true /\
      travel_re d l = Some t.
Proof.
  induction before as [|[l|] before IH]; intros nearer t farther;
    cbn [scan_back]; try discriminate.
  destruct (startswith "G" l) eqn:Hl; cbn [negb].
  - destruct (find l " E" =? -1) eqn:He; cbn [negb]; [|discriminate].
    destruct (travel_re d l) as [t'|] eqn:Ht; [|discriminate].
    intros [= <- <- <-]; exists [], l.
    assert (Htake : takes_retract d l = true)
      by (unfold takes_retract; now rewrite Hl, He, Ht).
    repeat apply conj; trivial.
  - destruct (scan_back d before) as [[| |n t' f]|]; cbn [bind]; try discriminate.
    intros [= <- <- <-].
    destruct (IH _ _ _ eq_refl) as (skipped & l' & -> & Hsk & -> & Hl' & Ht).
    exists (l :: skipped), l'.
    repeat apply conj; trivial; now constructor.
Qed.

(** A scan that finds no move finds none over the lines that are left. *)
Lemma scan_back_live (before : list slot) :
  forall r,
    scan_back d before = Ok r -> no_move r ->
    exists r', scan_back d (map Some (live before)) = Ok r' /\ no_move r'.
Proof.
  induction before as [|[l|] before IH]; intros r; cbn [scan_back live map];
    try discriminate.
  - intros [= <-] _; now exists NoMove.
  - destruct (startswith "G" l); cbn [negb].
    + intros [= <-] Hr; eexists; split; [reflexivity|].
      now destruct (if negb (find l " E" =? -1) then None else travel_re d l).
    + destruct (scan_back d before) as [r0|]; cbn [bind]; [|discriminate].
      intros [= <-] Hr.
      destruct (IH r0 eq_refl) as (r' & -> & Hr'); [now destruct r0|].
      cbn [bind]; eexists; split; [reflexivity | now destruct r'].
Qed.

Lemma scan_back_no_taker (lines : list string) :
  Forall (fun l => takes_retract d l = false) lines ->
  exists r, scan_back d (map Some lines) = Ok r /\ no_move r.
Proof.
  induction 1 as [|l lines Hl _ (r & IH & Hr)]; cbn [map scan_back];
    [now exists NoMove|].
  unfold takes_retract in Hl.
  destruct (startswith "G" l); cbn [negb andb] in *.
  - destruct (find l " E" =? -1); cbn [negb andb] in *; [|now exists Blocked].
    destruct (travel_re d l); [discriminate | now exists Blocked].
  - rewrite IH; cbn [bind]; eexists; split; [reflexivity | now destruct r].
Qed.


(** Without a retract, or without a move that can take one, every line
    is kept in its slot. *)
Lemma visit_without_pair (todo : list string) :
  forall visited : list string,
    Forall (fun l => retract_re d l = None) todo \/
    (Forall (fun l => takes_retract d l = false) visited /\
     Forall (fun l => takes_retract d l = false) todo) ->
    visit d (map Some visited) todo = Ok (rev (map Some visited) ++ map Some todo)%list.
Proof.
  induction todo as [|line rest IH]; intros visited H; cbn [visit].
  - now rewrite app_nil_r.
  - assert (Hpush : visit d (Some line :: map Some visited) rest
                    = Ok (rev (map Some visited) ++ map Some (line :: rest))%list).
    { change (Some line :: map Some visited) with (map Some (line :: visited)).
      rewrite IH.
      - cbn [map rev]; now rewrite <- app_assoc.
      - destruct H as [H | [H1 H2]]; [left; now inversion H|].
        right; inversion H2; subst; split; [constructor|]; assumption. }
    destruct (retract_re d line) as [g|] eqn:Hre; [|exact Hpush].
    destruct H as [H | [H1 H2]]; [inversion H; congruence|].
    destruct (scan_back_no_taker _ H1) as (r & -> & Hr); cbn [bind].
    destruct r; [exact Hpush | exact Hpush | contradiction].
Qed.

Lemma coast_layer_without_pair (layer : string) :
  Forall (fun l => retract_re d l = None) (split_nl layer) \/
  Forall (fun l => takes_retract d l = false) (split_nl layer) ->
  do_layer d layer = Ok layer.
Proof.
  intros H; unfold do_layer.
  rewrite (visit_without_pair _ []); cbn [map rev app bind].
  - now rewrite live_map_some, join_split.
  - destruct H as [H | H]; [now left | right; split; [constructor | exact H]].
Qed.

(** *** The lines that are no moves *)

Lemma other_lines_app (a b : list string) :
  other_lines (a ++ b) = (other_lines a ++ other_lines b)%list.
Proof. apply filter_app. Qed.

Lemma other_lines_swap (l c : string) (nearer farther : list slot) :
  startswith "G" l = true -> startswith "G" c = true ->
  other_lines (rev (live (nearer ++ Some c :: farther)))
  = other_lines (rev (live (nearer ++ Some l :: farther))).
Proof.
  intros Hl Hc; rewrite !live_app; cbn [live].
  rewrite !rev_app_distr; cbn [rev].
  rewrite !other_lines_app; do 2 f_equal.
  unfold other_lines; cbn [filter app]; now rewrite Hl, Hc.
Qed.

Lemma combined_starts_with_G (g t : list string) (c : string) :
  combined d g t = Ok c -> startswith "G" c = true.
Proof. intros H; apply combined_prefix in H as [r ->]; reflexivity. Qed.

Lemma visit_other_lines (todo : list string) :
  forall (before slots : list slot),
    visit d before todo = Ok slots ->
    other_lines (live slots)
    = (other_lines (rev (live before)) ++ other_lines todo)%list.
Proof.
  induction todo as [|line rest IH]; intros before slots; cbn [visit].
  - intros [= <-]; now rewrite live_rev, app_nil_r.
  - assert (Hpush : visit d (Some line :: before) rest = Ok slots ->
                    other_lines (live slots)
                    = (other_lines (rev (live before))
                       ++ other_lines (line :: rest))%list).
    { intros H; rewrite (IH _ _ H); cbn [live rev].
      rewrite other_lines_app, <- app_assoc; f_equal.
      change (line :: rest) with ([line] ++ rest)%list.
      now rewrite other_lines_app. }
    destruct (retract_re d line) as [g|] eqn:Hre; [|exact Hpush].
    destruct (scan_back d before) as [[| |nearer t farther]|] eqn:Hscan;
      cbn [bind]; try exact Hpush; try discriminate.
    destruct (scan_back_finds _ _ _ _ Hscan) as (skipped & l & _ & _ & -> & Hl & _).
    destruct (combined d g t) as [c|] eqn:Hc; [|discriminate]; cbn [bind].
    intros H; rewrite (IH _ _ H).
    change (live (None :: nearer ++ Some c :: farther))
      with (live (nearer ++ Some c :: farther)).
    rewrite (other_lines_swap l c).
    + f_equal; unfold other_lines; cbn [filter].
      now rewrite (retract_is_move _ _ Hre).
    + unfold takes_retract in Hl; now destruct (startswith "G" l).
    + eapply combined_starts_with_G; exact Hc.
Qed.

(** *** What is left of a layer is made of lines *)

Lemma one_line_live (orig : list string) (slots : list slot) :
  Forall2 slot_kept orig slots -> Forall one_line orig -> Forall one_line (live slots).
Proof.
  induction 1 as [|x [y|] orig slots Hx _ IH]; intros Hone; cbn [live];
    inversion Hone; subst; auto.
  constructor; [|auto].
  destruct Hx as [-> | (_ & _ & Hy)]; assumption.
Qed.

Lemma visit_live_nonempty (todo : list string) :
  forall (before slots : list slot),
    live before <> [] -> visit d before todo = Ok slots -> live slots <> [].
Proof.
  induction todo as [|line rest IH]; intros before slots Hne; cbn [visit].
  - intros [= <-]; rewrite live_rev.
    destruct (live before); [contradiction|].
    cbn [rev]; now destruct (rev l).
  - assert (Hpush : visit d (Some line :: before) rest = Ok slots -> live slots <> [])
      by (apply IH; discriminate).
    destruct (retract_re d line) as [g|]; [|exact Hpush].
    destruct (scan_back d before) as [[| |nearer t farther]|];
      cbn [bind]; try exact Hpush; try discriminate.
    destruct (combined d g t) as [c|]; [|discriminate]; cbn [bind].
    apply IH; cbn [live]; rewrite live_app; cbn [live].
    now destruct (live nearer).
Qed.

(** The text of a layer that a run returns, split again. *)
Lemma coast_layer_lines (layer : string) (slots : list slot) :
  visit d [] (split_nl layer) = Ok slots ->
  split_nl (join_nl (live slots)) = live slots.
Proof.
  intros H.
  assert (Hne : live slots <> []).
  { destruct (split_nl layer) as [|line rest] eqn:E;
      [now apply split_nl_nonempty in E|].
    assert (H1 : visit d [Some line] rest = Ok slots).
    { cbn [visit] in H; destruct (retract_re d line); exact H. }
    eapply visit_live_nonempty; [|exact H1]; discriminate. }
  rewrite split_join by exact Hne.
  apply flat_split_one_line.
  apply (visit_kept d retract_is_move travel_is_one_line _ [] []) in H; [|constructor].
  eapply one_line_live; [exact H | apply one_line_split].
Qed.

Lemma coast_layer_other_lines (layer layer' : string) :
  do_layer d layer = Ok layer' ->
  other_lines (split_nl layer') = other_lines (split_nl layer).
Proof.
  unfold do_layer.
  destruct (visit d [] (split_nl layer)) as [slots|] eqn:E; [|discriminate].
  cbn [bind]; intros [= <-].
  rewrite (coast_layer_lines _ _ E).
  now rewrite (visit_other_lines _ _ _ E).
Qed.

Lemma coast_execute_other_lines (data : list string) :
  forall out,
    execute d data = Ok out ->
    Forall2 (fun layer layer' =>
               other_lines (split_nl layer') = other_lines (split_nl layer)) data out.
Proof.
  induction data as [|layer rest IH]; intros out; cbn [execute].
  - intros [= <-]; constructor.
  - destruct (do_layer d layer) as [layer'|] eqn:E1; [|discriminate]; cbn [bind].
    destruct (execute d rest) as [rest'|]; [|discriminate]; cbn [bind].
    intros [= <-]; constructor; [now apply coast_layer_other_lines | now apply IH].
Qed.


(** *** A second run *)

Hypothesis merged_is_no_retract :
  forall l t g c,
    takes_retract d l = true -> travel_re d l = Some t ->
    combined d g t = Ok c -> retract_re d c = None.

Lemma settled_swap (l c : string) (farther : list slot) (skipped : list string) :
  Forall (fun x => startswith "G" x = false) skipped ->
  retract_re d c = None ->
  settled d (map Some skipped ++ Some l :: farther) ->
  settled d (map Some skipped ++ Some c :: farther).
Proof.
  intros Hsk Hc; induction Hsk as [|x skipped Hx _ IH]; cbn [map app settled].
  - intros [_ H]; split; [congruence | exact H].
  - intros [_ H]; split; [|exact (IH H)].
    intros Hre; destruct (retract_re d x) as [g|] eqn:E; [|congruence].
    apply retract_is_move in E; congruence.
Qed.

Lemma visit_settled (todo : list string) :
  forall (before slots : list slot),
    settled d before -> visit d before todo = Ok slots -> settled d (rev slots).
Proof.
  induction todo as [|line rest IH]; intros before slots Hs; cbn [visit].
  - intros [= <-]; now rewrite rev_involutive.
  - destruct (retract_re d line) as [g|] eqn:Hre.
    + destruct (scan_back d before) as [[| |nearer t farther]|] eqn:Hscan;
        cbn [bind]; try discriminate.
      * apply IH; split; [|exact Hs].
        intros _; now apply (scan_back_live _ _ Hscan).
      * apply IH; split; [|exact Hs].
        intros _; now apply (scan_back_live _ _ Hscan).
      * destruct (scan_back_finds _ _ _ _ Hscan)
          as (skipped & l & -> & Hsk & -> & Hl & Ht).
        destruct (combined d g t) as [c|] eqn:Hc; [|discriminate]; cbn [bind].
        apply IH; cbn [settled].
        eapply settled_swap; [exact Hsk | | exact Hs].
        eapply merged_is_no_retract; eauto.
    + apply IH; split; [congruence | exact Hs].
Qed.

Lemma visit_again (before : list slot) :
  settled d before ->
  forall todo : list string,
    visit d [] (rev (live before) ++ todo) = visit d (map Some (live before)) todo.
Proof.
  induction before as [|[y|] below IH]; cbn [settled live]; intros Hs todo.
  - reflexivity.
  - destruct Hs as [Hy Hs].
    cbn [rev]; rewrite <- app_assoc; cbn [app].
    rewrite (IH Hs); cbn [visit map].
    destruct (retract_re d y) as [g|]; [|reflexivity].
    destruct Hy as (r & -> & Hr); [discriminate|].
    cbn [bind]; now destruct r.
  - now apply IH.
Qed.

Lemma coast_layer_idempotent (layer layer' : string) :
  do_layer d layer = Ok layer' -> do_layer d layer' = Ok layer'.
Proof.
  unfold do_layer.
  destruct (visit d [] (split_nl layer)) as [slots|] eqn:E; [|discriminate].
  cbn [bind]; intros [= <-].
  rewrite (coast_layer_lines _ _ E).
  assert (Hs : settled d (rev slots)) by (apply (visit_settled _ [] _ I E)).
  rewrite <- (rev_involutive slots) at 1.
  rewrite live_rev, <- (app_nil_r (rev (live (rev slots)))), (visit_again _ Hs).
  cbn [visit bind].
  now rewrite live_rev, live_map_some, <- live_rev, rev_involutive.
Qed.

Lemma coast_execute_idempotent (data : list string) :
  forall out, execute d data = Ok out -> execute d out = Ok out.
Proof.
  induction data as [|layer rest IH]; intros out; cbn [execute].
  - now intros [= <-].
  - destruct (do_layer d layer) as [layer'|] eqn:E1; [|discriminate]; cbn [bind].
    destruct (execute d rest) as [rest'|] eqn:E2; [|discriminate]; cbn [bind].
    intros [= <-]; cbn [execute].
    now rewrite (coast_layer_idempotent _ _ E1), (IH _ eq_refl).
Qed.


(** *** A move, lines that are no moves, and a retract *)

Hypothesis retract_takes_none :
  forall line g, retract_re d line = Some g -> takes_retract d line = false.
Hypothesis merged_is_written :
  forall line g t, retract_re d line = Some g -> exists c, combined d g t = Ok c.


Lemma visit_reaches (pre : list string) :
  forall (before : list slot) (todo : list string) (slots : list slot),
    visit d before (pre ++ todo) = Ok slots ->
    exists reached,
      length reached = (length before + length pre)%nat /\
      visit d reached todo = Ok slots.
Proof.
  induction pre as [|line pre IH]; intros before todo slots.
  - intros H; exists before; split; [cbn [length]; lia | exact H].
  - rewrite <- app_comm_cons; cbn [visit].
    assert (Hnext : forall b, length b = S (length before) ->
                              visit d b (pre ++ todo) = Ok slots ->
                              exists reached,
                                length reached = (length before + length (line :: pre))%nat /\
                                visit d reached todo = Ok slots).
    { intros b Hb H; destruct (IH _ _ _ H) as (reached & Hlen & Hv).
      exists reached; split; [cbn [length]; lia | exact Hv]. }
    destruct (retract_re d line) as [g|]; [|now apply Hnext].
    destruct (scan_back d before) as [[| |nearer t farther]|] eqn:Hscan;
      cbn [bind]; try (now apply Hnext); try discriminate.
    destruct (scan_back_finds _ _ _ _ Hscan) as (skipped & l & _ & _ & -> & _ & _).
    destruct (combined d g t) as [c|]; [|discriminate]; cbn [bind].
    apply Hnext; cbn [length]; rewrite !length_app; reflexivity.
Qed.

Lemma visit_pushes (mid : list string) :
  Forall (fun x => startswith "G" x = false) mid ->
  forall (before : list slot) (todo : list string),
    visit d before (mid ++ todo) = visit d (map Some (rev mid) ++ before) todo.
Proof.
  induction 1 as [|x mid Hx _ IH]; intros before todo; [reflexivity|].
  rewrite <- app_comm_cons; cbn [visit].
  destruct (retract_re d x) as [g|] eqn:E;
    [apply retract_is_move in E; congruence|].
  rewrite IH; cbn [rev]; now rewrite map_app, <- app_assoc.
Qed.

Lemma scan_back_skips (skipped : list string) (l : string) (t : list string)
      (farther : list slot) :
  Forall (fun x => startswith "G" x = false) skipped ->
  takes_retract d l = true ->
  travel_re d l = Some t ->
  scan_back d (map Some skipped ++ Some l :: farther)
  = Ok (Found (map Some skipped) t farther).
Proof.
  intros Hsk Hl Ht; induction Hsk as [|x skipped Hx _ IH]; cbn [map app scan_back].
  - unfold takes_retract in Hl.
    destruct (startswith "G" l); [|discriminate]; cbn [negb andb] in *.
    destruct (find l " E" =? -1); [|discriminate]; cbn [negb].
    now rewrite Ht.
  - now rewrite Hx, IH.
Qed.


End CoastLayers.

(** ** The templates of the two branches *)

Section Occurrences.

Lemma find_index_of (s sub : string) :
  find s sub = match index_of sub s with Some k => Z.of_nat k | None => -1 end.
Proof.
  unfold find, find_from, clip, len.
  destruct (Z.ltb_spec (Z.of_nat (String.length s)) 0); [lia|].
  change (0 <? 0) with false; cbv iota.
  rewrite Z.min_l by lia; cbn [Z.to_nat drop].
  now destruct s.
Qed.

Lemma prefix_app (p q : string) : String.prefix p (p ++ q) = true.
Proof.
  induction p as [|a p IH]; [now destruct q|].
  cbn [append]; rewrite prefix_head.
  destruct (ascii_dec a a); [exact IH | contradiction].
Qed.

Lemma index_of_occurrence (sub p q : string) : index_of sub (p ++ sub ++ q) <> None.
Proof.
  induction p as [|a p IH]; cbn [append].
  - destruct (sub ++ q) eqn:E; cbn [index_of]; rewrite <- E, prefix_app; discriminate.
  - change (index_of sub (String a (p ++ sub ++ q)))
      with (if String.prefix sub (String a (p ++ sub ++ q)) then Some O
            else option_map S (index_of sub (p ++ sub ++ q))).
    destruct (String.prefix sub _); [discriminate|].
    now destruct (index_of sub (p ++ sub ++ q)).
Qed.

Lemma find_occurrence (sub p q : string) : find (p ++ sub ++ q) sub <> -1.
Proof.
  rewrite find_index_of.
  pose proof (index_of_occurrence sub p q) as H.
  destruct (index_of sub (p ++ sub ++ q)); [lia | contradiction].
Qed.

End Occurrences.

Section StandaloneCoast.

Import CoastRetract.

Lemma standalone_retract_takes_none (line : string) (g : list string) :
  retract_re standalone line = Some g -> takes_retract standalone line = false.
Proof.
  cbn [retract_re standalone].
  unfold Templates.retract_re_standalone, Templates.amount_then_speed.
  destruct (Templates.strip_prefix "G1 E" line) as [r|] eqn:E; [|discriminate].
  intros _; apply strip_prefix_eq in E; subst line.
  unfold takes_retract.
  replace (find ("G1 E" ++ r) " E" =? -1) with false;
    [now rewrite andb_false_r|].
  symmetry; apply Z.eqb_neq.
  exact (find_occurrence " E" "G1" r).
Qed.

Lemma standalone_merged_is_no_retract (g t : list string) (c : string) :
  combined standalone g t = Ok c -> retract_re standalone c = None.
Proof.
  intros H; apply combined_prefix in H as [r ->]; reflexivity.
Qed.


End StandaloneCoast.

Section CuraMoves.

Lemma strip_prefix_app (p r : string) : Templates.strip_prefix p (p ++ r) = Some r.
Proof.
  induction p as [|a p IH]; cbn [append Templates.strip_prefix]; [reflexivity|].
  now rewrite Ascii.eqb_refl.
Qed.

(** An amount, with its sign if one is asked for: a line that [float]
    reads. *)
Lemma signed_number_reads (negative : bool) (r amount k : string) :
  (if negative
   then match r with
        | String "-" r' =>
            option_map (fun '(a, k) => ("-" ++ a, k)) (Templates.span_number r')
        | _ => None
        end
   else Templates.span_number r) = Some (amount, k) ->
  one_line amount /\ exists v, float amount = Ok v.
Proof.
  destruct negative.
  - destruct r as [|b r']; [discriminate|].
    destruct (Ascii.eqb_spec b "-") as [-> | Hb].
    + destruct (Templates.span_number r') as [[a k']|] eqn:E; [|discriminate].
      cbn [option_map]; intros [= <- <-]; split.
      * apply one_line_span_number in E; one_line_pieces.
      * destruct (span_number_shape _ _ _ E) as (d1 & d2 & point & -> & Hne & H1 & H2).
        exact (float_reads_number true d1 d2 point Hne H1 H2).
    + clear -Hb; destruct b as [[] [] [] [] [] [] [] []]; try discriminate.
      contradiction Hb; reflexivity.
  - intros E; split; [now apply one_line_span_number in E|].
    destruct (span_number_shape _ _ _ E) as (d1 & d2 & point & -> & Hne & H1 & H2).
    exact (float_reads_number false d1 d2 point Hne H1 H2).
Qed.

(** What the retract and prime templates of the Cura branch match. *)
Lemma cura_move_shape (negative : bool) (line : string) (g : list string) :
  Cura.speed_then_amount negative line = Some g ->
  exists speed amount rest : string,
    line = "G1 F" ++ speed ++ " E" ++ rest /\
    g = [speed; amount] /\
    one_line speed /\ one_line amount /\
    (exists v, float speed = Ok v) /\ (exists v, float amount = Ok v).
Proof.
  unfold Cura.speed_then_amount.
  destruct (Templates.strip_prefix "G1 F" line) as [r|] eqn:E; [|discriminate].
  apply strip_prefix_eq in E; subst line.
  pose proof (one_line_span_digits r) as Hone.
  destruct (span_digits r) as [speed r1] eqn:Es; cbn [fst] in Hone.
  destruct (span_digits_spec _ _ _ Es) as (-> & Hd & _).
  destruct speed as [|c speed]; [discriminate|]; cbn [Templates.nonempty].
  destruct (Templates.strip_prefix " E" r1) as [r2|] eqn:E2; [|discriminate].
  apply strip_prefix_eq in E2; subst r1.
  match goal with
  | |- option_map _ ?signed = _ -> _ => destruct signed as [[amount k]|] eqn:Ea
  end; [|discriminate].
  cbn [option_map]; intros [= <-].
  apply signed_number_reads in Ea as [Hamount Hfloat].
  exists (String c speed), amount, r2; repeat split; try assumption.
  destruct (float_reads_number false (String c speed) "" false) as (v & Hv);
    [discriminate | exact Hd | constructor |].
  cbn [append] in Hv; rewrite append_empty_r in Hv; now exists v.
Qed.

Lemma cura_move_groups (negative : bool) (line : string) (g : list string) :
  Cura.speed_then_amount negative line = Some g ->
  startswith "G" line = true /\ forall i, one_line (Templates.group g i).
Proof.
  intros H; apply cura_move_shape in H
    as (speed & amount & rest & -> & -> & Hs & Ha & _).
  split; [reflexivity|].
  intros [|[|[|i]]]; cbn [Templates.group nth]; auto; reflexivity.
Qed.

Lemma after_feed_shape (s : string) (t : list string) :
  Cura.after_feed s = Some t ->
  exists digits x,
    s = digits ++ String " " x /\
    t = [Templates.span_dot x] /\ Templates.nonempty (Templates.span_dot x) = true.
Proof.
  unfold Cura.after_feed.
  destruct (span_digits s) as [digits r] eqn:E.
  destruct (span_digits_spec _ _ _ E) as (-> & _ & _).
  destruct r as [|c x]; [discriminate|].
  destruct (Ascii.eqb_spec c " ") as [-> | _]; [|discriminate].
  destruct (Templates.nonempty (Templates.span_dot x)) eqn:En; [|discriminate].
  intros [= <-]; now exists digits, x.
Qed.

(** What the travel template of the Cura branch matches: a move, and
    in it a space with the group right after it. *)
Lemma cura_travel_shape (line : string) (t : list string) :
  Cura.travel_re line = Some t ->
  startswith "G" line = true /\
  exists before x,
    line = before ++ String " " x /\
    t = [Templates.span_dot x] /\ Templates.nonempty (Templates.span_dot x) = true.
Proof.
  unfold Cura.travel_re.
  destruct line as [|g [|n r]]; try discriminate.
  destruct (Ascii.eqb_spec g "G") as [-> | _]; [|discriminate].
  destruct (Ascii.eqb n "0" || Ascii.eqb n "1"); cbn [andb]; [|discriminate].
  intros H; split; [reflexivity|].
  assert (Hfeed : forall s head,
             Cura.after_feed s = Some t ->
             exists before x,
               (String "G" (String n head) ++ s) = before ++ String " " x /\
               t = [Templates.span_dot x] /\
               Templates.nonempty (Templates.span_dot x) = true).
  { intros s head Hs; apply after_feed_shape in Hs as (digits & x & -> & Ht & Hx).
    exists (String "G" (String n head) ++ digits), x.
    now rewrite append_assoc. }
  destruct r as [|c r1]; [discriminate|].
  destruct (Ascii.eqb_spec c " ") as [-> | _].
  - match type of H with
    | match ?taken with _ => _ end = _ => destruct taken as [groups|] eqn:Et
    end.
    + injection H as ->.
      destruct r1 as [|f r2]; [discriminate|].
      destruct (Ascii.eqb_spec f "F") as [-> | _].
      * exact (Hfeed r2 " F" Et).
      * exact (Hfeed (String f r2) " " Et).
    + destruct (Templates.nonempty (Templates.span_dot r1)) eqn:En; [|discriminate].
      injection H as <-.
      now exists (String "G" (String n "")), r1.
  - destruct (Ascii.eqb_spec c "F") as [-> | _].
    + exact (Hfeed r1 "F" H).
    + exact (Hfeed (String c r1) "" H).
Qed.

End CuraMoves.

Section CuraCoast.

Import CoastRetract.

Lemma cura_retract_is_move (line : string) (g : list string) :
  retract_re Cura.coast_retract line = Some g -> startswith "G" line = true.
Proof. intros H; now apply cura_move_groups in H. Qed.

Lemma cura_travel_one_line (line : string) (t : list string) :
  travel_re Cura.coast_retract line = Some t -> one_line (Templates.group t 0).
Proof.
  intros H; apply cura_travel_shape in H as (_ & before & x & _ & -> & _).
  apply one_line_span_dot.
Qed.

Lemma cura_retract_takes_none (line : string) (g : list string) :
  retract_re Cura.coast_retract line = Some g ->
  takes_retract Cura.coast_retract line = false.
Proof.
  intros H; apply cura_move_shape in H as (speed & amount & rest & -> & _).
  unfold takes_retract.
  replace (find ("G1 F" ++ speed ++ " E" ++ rest) " E" =? -1) with false;
    [now rewrite andb_false_r|].
  symmetry; apply Z.eqb_neq.
  rewrite <- append_assoc.
  exact (find_occurrence " E" ("G1 F" ++ speed) rest).
Qed.


Lemma no_space_uint (u : Decimal.uint) :
  Forall (fun c => c <> " "%char) (list_ascii_of_string (NilEmpty.string_of_uint u)).
Proof.
  induction u; cbn [NilEmpty.string_of_uint list_ascii_of_string];
    constructor; (discriminate || assumption).
Qed.

Lemma no_space_str (z : Z) :
  Forall (fun c => c <> " "%char) (list_ascii_of_string (str z)).
Proof.
  unfold str, NilZero.string_of_int.
  destruct (Z.to_int z) as [u|u].
  - destruct u; try apply (no_space_uint (_ u)).
    repeat constructor; discriminate.
  - cbn [append list_ascii_of_string]; constructor; [discriminate|].
    destruct u; try apply (no_space_uint (_ u)).
    repeat constructor; discriminate.
Qed.

Lemma no_space_digits (s : string) :
  Forall (fun c => is_digit c = true) (list_ascii_of_string s) ->
  Forall (fun c => c <> " "%char) (list_ascii_of_string s).
Proof.
  induction s as [|c s IH]; cbn [list_ascii_of_string]; intros H; [constructor|].
  inversion H as [|? ? Hc Hs]; subst; constructor; [|auto].
  intros ->; discriminate.
Qed.

(** Two texts cut at their first space. *)
Lemma first_space (a b x y : string) :
  Forall (fun c => c <> " "%char) (list_ascii_of_string a) ->
  Forall (fun c => c <> " "%char) (list_ascii_of_string b) ->
  a ++ String " " x = b ++ String " " y -> a = b /\ x = y.
Proof.
  revert b; induction a as [|c a IH]; intros [|c' b];
    cbn [append list_ascii_of_string]; intros Ha Hb.
  - now intros [= ->].
  - intros [= <- _]; inversion Hb; congruence.
  - intros [= -> _]; inversion Ha; congruence.
  - intros [= <- H]; inversion Ha; inversion Hb; subst.
    destruct (IH b) as [-> ->]; auto.
Qed.

Lemma cura_merged_is_no_retract (l : string) (t g : list string) (c : string) :
  takes_retract Cura.coast_retract l = true ->
  travel_re Cura.coast_retract l = Some t ->
  combined Cura.coast_retract g t = Ok c ->
  retract_re Cura.coast_retract c = None.
Proof.
  intros Htake Ht Hc.
  apply cura_travel_shape in Ht as (_ & before & x & -> & -> & Hx).
  destruct x as [|a x]; [discriminate|].
  assert (Ha : a <> "E"%char).
  { intros ->; unfold takes_retract in Htake.
    pose proof (find_occurrence " E" before x) as Hf.
    apply Z.eqb_neq in Hf; cbn [append] in Hf.
    rewrite Hf, andb_false_r in Htake; discriminate. }
  cbn [Templates.span_dot] in Hx, Hc.
  destruct (Ascii.eqb a LF); [discriminate|].
  unfold combined in Hc.
  destruct (float _) as [amount|]; [|discriminate]; cbn [bind] in Hc.
  destruct (float _) as [s|]; [|discriminate]; cbn [bind] in Hc.
  cbn [Templates.group nth] in Hc.
  remember (Templates.span_dot x) as tail eqn:Etail.
  assert (Hline : "G1 F" ++ str (round s) ++ " " ++ String a tail
                         ++ " E" ++ format_f 3 amount
                  = ("G1 F" ++ str (round s) ++ " " ++ String a tail ++ " ")
                      ++ String "E" (format_f 3 amount)).
  { repeat (progress (rewrite ?append_assoc; cbn [append])); reflexivity. }
  rewrite Hline in Hc.
  destruct (rstrip_keeps_prefix "0" "E"
              ("G1 F" ++ str (round s) ++ " " ++ String a tail ++ " ")
              (format_f 3 amount)) as [r Hr]; [discriminate|].
  rewrite Hr in Hc.
  destruct (rstrip_keeps_prefix "." "E"
              ("G1 F" ++ str (round s) ++ " " ++ String a tail ++ " ") r)
    as [r' Hr']; [discriminate|].
  rewrite Hr' in Hc; injection Hc as <-.
  cbn [retract_re Cura.coast_retract]; unfold Cura.retract_re, Cura.speed_then_amount.
  set (body := (str (round s) ++ String " " (String a (tail ++ " "))) ++ String "E" r').
  change (String "G" (String "1" (String " " (String "F" body)))) with ("G1 F" ++ body).
  rewrite strip_prefix_app.
  assert (Hbody : body = str (round s) ++ String " " (String a (tail ++ " E" ++ r')))
    by (subst body; repeat (progress (rewrite ?append_assoc; cbn [append]));
        reflexivity).
  rewrite Hbody; clear body Hbody.
  destruct (span_digits _) as [speed r1] eqn:Es.
  destruct (span_digits_spec _ _ _ Es) as (Hsplit & Hd & _).
  destruct (Templates.nonempty speed); [|reflexivity].
  destruct (Templates.strip_prefix " E" r1) as [r2|] eqn:E2; [|reflexivity].
  apply strip_prefix_eq in E2; subst r1; cbn [append] in Hsplit.
  apply first_space in Hsplit as [_ [= Hbad]];
    [congruence | apply no_space_str | now apply no_space_digits].
Qed.

End CuraCoast.

(** ** TestingTower: the runs that return *)

Section TowerReturns.

Variable d : TestingTower.dialect.
Hypothesis prime_amount_reads :
  forall line g,
    TestingTower.prime_re d line = Some g ->
    exists v, float (Templates.group g (TestingTower.re_amount_i d)) = Ok v.



End TowerReturns.

Section TowerDialects.




(** X16.  The templates of the Cura branch keep the markers as those
    of the standalone script do: whenever CoastRetract or TestingTower
    returns a stream with them, layer by layer its lines are those of
    the input up to lines that are put in, replaced or taken out, none
    of them a marker line, and a marker on the first line of a layer
    that has a second line is still its first line. *)
Theorem cura_engines_keep_markers
        (ts : TestingTower.settings) (data out : list string) :
  CoastRetract.execute Cura.coast_retract data = Ok out \/
  TestingTower.execute Cura.testing_tower ts data = Ok out ->
  Forall2 layer_kept data out.
Proof.
  intros [H | H].
  - eapply coast_execute_kept; [| |exact H].
    + apply cura_retract_is_move.
    + apply cura_travel_one_line.
  - unfold TestingTower.execute in H.
    destruct (TestingTower.loop _ _ _ _ _ _ _) as [[st body]|] eqn:E;
      [|discriminate].
    cbn [bind] in H; injection H as <-.
    apply reserved_kept; eapply tower_loop_kept; [| |exact E].
    + apply cura_move_groups.
    + apply cura_move_groups.
Qed.

Lemma cura_engines_keep_markers_witness :
  (CoastRetract.execute Cura.coast_retract
     [join_nl [";LAYER_CHANGE"; "G0 F9000 X10 Y10"; "G1 F2400 E-2.5"; ""]]
   = Ok [join_nl [";LAYER_CHANGE"; "G1 F2400 X10 Y10 E-2.5"; ""]] \/
   TestingTower.execute Cura.testing_tower (speed_from_100 0)
     [join_nl [";LAYER_CHANGE"; "G0 F9000 X10 Y10"; "G1 F2400 E-2.5"; ""]]
   = Ok [join_nl [";LAYER_CHANGE"; "G1 F2400 X10 Y10 E-2.5"; ""]]) /\
  Forall2 layer_kept
    [join_nl [";LAYER_CHANGE"; "G0 F9000 X10 Y10"; "G1 F2400 E-2.5"; ""]]
    [join_nl [";LAYER_CHANGE"; "G1 F2400 X10 Y10 E-2.5"; ""]].
Proof.
  assert (H : CoastRetract.execute Cura.coast_retract
                [join_nl [";LAYER_CHANGE"; "G0 F9000 X10 Y10"; "G1 F2400 E-2.5"; ""]]
              = Ok [join_nl [";LAYER_CHANGE"; "G1 F2400 X10 Y10 E-2.5"; ""]])
    by (vm_compute; reflexivity).
  split; [left; exact H|].
  apply (cura_engines_keep_markers (speed_from_100 0)
           [join_nl [";LAYER_CHANGE"; "G0 F9000 X10 Y10"; "G1 F2400 E-2.5"; ""]]
           [join_nl [";LAYER_CHANGE"; "G1 F2400 X10 Y10 E-2.5"; ""]]).
  left; exact H.
Defined.

End TowerDialects.

(** ** CoastRetract with the templates of either branch *)

Section CoastDialects.

Import CoastRetract.

Lemma coast_dialect_retract_is_move (d : dialect) :
  coast_dialect d ->
  forall line g, retract_re d line = Some g -> startswith "G" line = true.
Proof.
  intros [-> | ->]; [apply coast_standalone_retract | apply cura_retract_is_move].
Qed.

Lemma coast_dialect_travel_is_one_line (d : dialect) :
  coast_dialect d ->
  forall line t, travel_re d line = Some t -> one_line (Templates.group t 0).
Proof.
  intros [-> | ->]; [apply coast_standalone_travel | apply cura_travel_one_line].
Qed.

Lemma coast_dialect_merged_is_no_retract (d : dialect) :
  coast_dialect d ->
  forall l t g c,
    takes_retract d l = true -> travel_re d l = Some t ->
    combined d g t = Ok c -> retract_re d c = None.
Proof.
  intros [-> | ->] l t g c Hl Ht Hc.
  - eapply standalone_merged_is_no_retract; exact Hc.
  - eapply cura_merged_is_no_retract; eauto.
Qed.

Lemma coast_dialect_retract_takes_none (d : dialect) :
  coast_dialect d ->
  forall line g, retract_re d line = Some g -> takes_retract d line = false.
Proof.
  intros [-> | ->];
    [apply standalone_retract_takes_none | apply cura_retract_takes_none].
Qed.


(** X17.  CoastRetract returns a stream as it is when each of its
    layers either holds no retract move or holds no move that could
    take one in, that is no line that starts with [G], holds no [ E]
    and matches the travel template.  This holds for any templates. *)
Theorem coast_retract_without_pair (d : dialect) (data : list string) :
  Forall (fun layer =>
            Forall (fun l => retract_re d l = None) (split_nl layer) \/
            Forall (fun l => takes_retract d l = false) (split_nl layer)) data ->
  execute d data = Ok data.
Proof.
  induction 1 as [|layer rest Hl _ IH]; cbn [execute]; [reflexivity|].
  now rewrite (coast_layer_without_pair d _ Hl), IH.
Qed.

Lemma coast_retract_without_pair_witness :
  Forall (fun layer =>
            Forall (fun l => retract_re standalone l = None) (split_nl layer) \/
            Forall (fun l => takes_retract standalone l = false) (split_nl layer))
         [join_nl [";LAYER_CHANGE"; "G1 X10 Y10"; "M400"; ""];
          join_nl [";LAYER_CHANGE"; "G1 X10 Y10 E1"; "G1 E-2 F2400"; ""]] /\
  execute standalone
    [join_nl [";LAYER_CHANGE"; "G1 X10 Y10"; "M400"; ""];
     join_nl [";LAYER_CHANGE"; "G1 X10 Y10 E1"; "G1 E-2 F2400"; ""]]
  = Ok [join_nl [";LAYER_CHANGE"; "G1 X10 Y10"; "M400"; ""];
        join_nl [";LAYER_CHANGE"; "G1 X10 Y10 E1"; "G1 E-2 F2400"; ""]].
Proof.
  assert (H : Forall (fun layer =>
                        Forall (fun l => retract_re standalone l = None)
                               (split_nl layer) \/
                        Forall (fun l => takes_retract standalone l = false)
                               (split_nl layer))
                     [join_nl [";LAYER_CHANGE"; "G1 X10 Y10"; "M400"; ""];
                      join_nl [";LAYER_CHANGE"; "G1 X10 Y10 E1"; "G1 E-2 F2400"; ""]]).
  { constructor; [left | constructor; [right | constructor]];
      repeat constructor. }
  split; [exact H|].
  exact (coast_retract_without_pair standalone _ H).
Defined.

(** X18.  Whenever CoastRetract returns, with the templates of either
    branch, the lines of each layer that do not start with [G] are
    those of the input, in their order: comments, markers and [M]
    commands are neither changed, nor taken out, nor put in. *)
Theorem coast_retract_keeps_other_lines (d : dialect) (data out : list string) :
  coast_dialect d ->
  execute d data = Ok out ->
  Forall2 (fun layer layer' =>
             other_lines (split_nl layer') = other_lines (split_nl layer)) data out.
Proof.
  intros Hd; apply coast_execute_other_lines.
  - now apply coast_dialect_retract_is_move.
  - now apply coast_dialect_travel_is_one_line.
Qed.

Lemma coast_retract_keeps_other_lines_witness :
  coast_dialect standalone /\
  execute standalone
    [join_nl [";LAYER_CHANGE"; "G1 X10 Y10"; "; wipe"; "G1 E-2 F2400"; "M400"; ""]]
  = Ok [join_nl [";LAYER_CHANGE"; "G1 F2400 X10 Y10 E-2"; "; wipe"; "M400"; ""]] /\
  Forall2 (fun layer layer' =>
             other_lines (split_nl layer') = other_lines (split_nl layer))
    [join_nl [";LAYER_CHANGE"; "G1 X10 Y10"; "; wipe"; "G1 E-2 F2400"; "M400"; ""]]
    [join_nl [";LAYER_CHANGE"; "G1 F2400 X10 Y10 E-2"; "; wipe"; "M400"; ""]].
Proof.
  assert (H1 : coast_dialect standalone) by (left; reflexivity).
  assert (H2 : execute standalone
                 [join_nl [";LAYER_CHANGE"; "G1 X10 Y10"; "; wipe"; "G1 E-2 F2400";
                           "M400"; ""]]
               = Ok [join_nl [";LAYER_CHANGE"; "G1 F2400 X10 Y10 E-2"; "; wipe";
                              "M400"; ""]]) by (vm_compute; reflexivity).
  split; [exact H1 | split; [exact H2|]].
  exact (coast_retract_keeps_other_lines standalone _ _ H1 H2).
Defined.

(** X19.  A second run changes nothing: whenever CoastRetract returns
    a stream, with the templates of either branch, it returns that
    stream as it is when run on it again.  The retracts that are left
    found no move to merge into, and find none among the lines that
    are left; a merged move is no retract. *)
Theorem coast_retract_second_run (d : dialect) (data out : list string) :
  coast_dialect d ->
  execute d data = Ok out ->
  execute d out = Ok out.
Proof.
  intros Hd; apply coast_execute_idempotent.
  - now apply coast_dialect_retract_is_move.
  - now apply coast_dialect_travel_is_one_line.
  - now apply coast_dialect_merged_is_no_retract.
Qed.

Lemma coast_retract_second_run_witness :
  coast_dialect Cura.coast_retract /\
  execute Cura.coast_retract
    [join_nl [";LAYER_CHANGE"; "G0 F9000 X10 Y10"; "G1 F2400 E-2.5";
              "G1 X20 Y20 E1"; "G1 F2400 E-2.5"; ""]]
  = Ok [join_nl [";LAYER_CHANGE"; "G1 F2400 X10 Y10 E-2.5";
                 "G1 X20 Y20 E1"; "G1 F2400 E-2.5"; ""]] /\
  execute Cura.coast_retract
    [join_nl [";LAYER_CHANGE"; "G1 F2400 X10 Y10 E-2.5";
              "G1 X20 Y20 E1"; "G1 F2400 E-2.5"; ""]]
  = Ok [join_nl [";LAYER_CHANGE"; "G1 F2400 X10 Y10 E-2.5";
                 "G1 X20 Y20 E1"; "G1 F2400 E-2.5"; ""]].
Proof.
  assert (H1 : coast_dialect Cura.coast_retract) by (right; reflexivity).
  assert (H2 : execute Cura.coast_retract
                 [join_nl [";LAYER_CHANGE"; "G0 F9000 X10 Y10"; "G1 F2400 E-2.5";
                           "G1 X20 Y20 E1"; "G1 F2400 E-2.5"; ""]]
               = Ok [join_nl [";LAYER_CHANGE"; "G1 F2400 X10 Y10 E-2.5";
                              "G1 X20 Y20 E1"; "G1 F2400 E-2.5"; ""]])
    by (vm_compute; reflexivity).
  split; [exact H1 | split; [exact H2|]].
  exact (coast_retract_second_run Cura.coast_retract _ _ H1 H2).
Defined.



End CoastDialects.

(** ** The scripts as a whole, and what one leaves for another *)

Section Scripts.

Lemma rindex_of_occurrence (sub s : string) :
  forall k : nat,
    rindex_of sub s = Some k ->
    String.prefix sub (drop k s) = true /\ (k <= String.length s)%nat.
Proof.
  induction s as [|c s IH]; intros k; cbn [rindex_of].
  - destruct (String.prefix sub "") eqn:E; [|discriminate].
    intros [= <-]; split; [exact E | cbn [String.length]; lia].
  - destruct (rindex_of sub s) as [j|].
    + intros [= <-]; destruct (IH j eq_refl) as [Hp Hj].
      split; [exact Hp | cbn [String.length]; lia].
    + destruct (String.prefix sub (String c s)) eqn:E; [|discriminate].
      intros [= <-]; split; [exact E | lia].
Qed.

(** X21.  Whatever the file holds, its segmentation ends with two
    layers that the engines set aside: the empty string, and before it
    the text from the last end marker of the last chunk on; when that
    chunk has no end marker, the layer before the empty string is the
    last character of the chunk at most. *)
Theorem segment_reserves_end_gcode (file : string) :
  exists (body : list string) (e : string),
    Segmenter.segment file = (body ++ [e; ""])%list /\
    body <> [] /\
    (startswith Segmenter.end_marker e = true \/ (String.length e <= 1)%nat).
Proof.
  destruct (segment_total file) as (data & E & _).
  rewrite (segment_is_fuelled _ _ E).
  revert E; unfold Segmenter.segment_fuel.
  destruct (Segmenter.chunks _ file _) as [rest|]; cbn [option_map]; [|discriminate].
  intros [= <-]; unfold Segmenter.split_tail.
  set (data := slice file 0 (find file Segmenter.start_marker) :: rest).
  set (last := List.last data "").
  exists (removelast data ++ [slice last 0 (rfind last Segmenter.end_marker)])%list,
         (slice_from last (rfind last Segmenter.end_marker)).
  split; [now rewrite <- app_assoc|].
  split; [now destruct (removelast data)|].
  unfold rfind, slice_from, clip, len.
  destruct (rindex_of Segmenter.end_marker last) as [k|] eqn:Ek.
  - left; apply rindex_of_occurrence in Ek as [Hp Hk].
    destruct (Z.ltb_spec (Z.of_nat k) 0); [lia|].
    rewrite Z.min_l, Nat2Z.id by lia; exact Hp.
  - right; change (-1 <? 0) with true; cbv iota.
    rewrite length_drop; lia.
Qed.



(** X23.  A move that the standalone TestingTower rewrites is written
    with its feed rate before its extrusion, the order of the Cura
    templates.  The templates of the standalone scripts no longer
    match it: line by line, what a pass over a layer returns is the
    line it was given, or a line that neither TestingTower nor
    CoastRetract reads as a retract or a prime. *)
Theorem tower_rewritten_moves_are_unmatched
        (c : TestingTower.command_choice) (v p p' : Q) (lines out : list string) :
  TestingTower.rewrite_moves TestingTower.standalone c v p lines = Ok (p', out) ->
  Forall2 (fun l l' =>
             l' = l \/
             (TestingTower.retract_re TestingTower.standalone l' = None /\
              TestingTower.prime_re TestingTower.standalone l' = None /\
              CoastRetract.retract_re CoastRetract.standalone l' = None))
          lines out.
Proof.
  revert p p' out; induction lines as [|line rest IH]; intros p p' out;
    cbn [TestingTower.rewrite_moves].
  - intros [= _ <-]; constructor.
  - assert (Hkeep : forall cp new_line,
               new_line = line \/ (exists x, new_line = "G1 F" ++ x) ->
               ('(cp', rest') <- TestingTower.rewrite_moves TestingTower.standalone
                                   c v cp rest ;;
                Ok (cp', new_line :: rest')) = Ok (p', out) ->
               Forall2 (fun l l' =>
                          l' = l \/
                          (TestingTower.retract_re TestingTower.standalone l' = None /\
                           TestingTower.prime_re TestingTower.standalone l' = None /\
                           CoastRetract.retract_re CoastRetract.standalone l' = None))
                       (line :: rest) out).
    { intros cp new_line Hnew.
      destruct (TestingTower.rewrite_moves _ c v cp rest) as [[cp' rest']|] eqn:E;
        cbn [bind]; [|discriminate].
      intros [= _ <-]; constructor; [|eapply IH; exact E].
      destruct Hnew as [-> | [x ->]]; [now left | right; repeat split]. }
    destruct c; try (apply Hkeep; now left).
    + destruct (TestingTower.retract_re _ line); apply Hkeep;
        [right; eexists; reflexivity | now left].
    + destruct (TestingTower.retract_re _ line);
        [apply Hkeep; right; eexists; reflexivity|].
      destruct (TestingTower.prime_re _ line); [|apply Hkeep; now left].
      destruct (negb _); apply Hkeep; [right; eexists; reflexivity | now left].
    + destruct (TestingTower.prime_re _ line); apply Hkeep;
        [right; eexists; reflexivity | now left].
    + destruct (TestingTower.prime_re _ line); [|apply Hkeep; now left].
      destruct (float _); cbn [bind]; [|discriminate].
      apply Hkeep; right; eexists; reflexivity.
Qed.

Lemma tower_rewritten_moves_are_unmatched_witness :
  TestingTower.rewrite_moves TestingTower.standalone TestingTower.retract_speed
                             40 (-1) [";LAYER_CHANGE"; "G1 E-1.5 F2400"; "G1 X1"]
  = Ok ((-1)%Q, [";LAYER_CHANGE"; "G1 F2400 E-1.5"; "G1 X1"]) /\
  Forall2 (fun l l' =>
             l' = l \/
             (TestingTower.retract_re TestingTower.standalone l' = None /\
              TestingTower.prime_re TestingTower.standalone l' = None /\
              CoastRetract.retract_re CoastRetract.standalone l' = None))
          [";LAYER_CHANGE"; "G1 E-1.5 F2400"; "G1 X1"]
          [";LAYER_CHANGE"; "G1 F2400 E-1.5"; "G1 X1"].
Proof.
  assert (H : TestingTower.rewrite_moves TestingTower.standalone
                TestingTower.retract_speed 40 (-1)
                [";LAYER_CHANGE"; "G1 E-1.5 F2400"; "G1 X1"]
              = Ok ((-1)%Q, [";LAYER_CHANGE"; "G1 F2400 E-1.5"; "G1 X1"]))
    by (vm_compute; reflexivity).
  split; [exact H|].
  exact (tower_rewritten_moves_are_unmatched TestingTower.retract_speed 40 (-1) (-1)
           _ _ H).
Defined.

End Scripts.

(** ** CoastRetract: a retract after a merge *)

Section CoastDeletedSlot.

Import CoastRetract.

Lemma coast_layer_raises_below_merge
      (d : dialect) (layer : string) (pre mid mid2 post : list string)
      (t r r2 : string) (tg g g2 : list string) :
  coast_dialect d ->
  split_nl layer = (pre ++ t :: mid ++ r :: mid2 ++ r2 :: post)%list ->
  takes_retract d t = true ->
  travel_re d t = Some tg ->
  Forall (fun x => startswith "G" x = false) mid ->
  retract_re d r = Some g ->
  Forall (fun x => startswith "G" x = false) mid2 ->
  retract_re d r2 = Some g2 ->
  returns (do_layer d layer) = false.
Proof.
  intros Hd Hsplit Ht Htg Hmid Hr Hmid2 Hr2.
  pose proof (coast_dialect_retract_is_move d Hd) as Hmove.
  unfold do_layer; rewrite Hsplit.
  destruct (visit d [] _) as [slots|] eqn:E; [exfalso | reflexivity].
  apply visit_reaches in E as (reached & _ & E).
  cbn [visit] in E.
  destruct (retract_re d t) as [g'|] eqn:Hrt;
    [apply (coast_dialect_retract_takes_none d Hd) in Hrt; congruence|].
  rewrite (visit_pushes d Hmove _ Hmid) in E; cbn [visit] in E.
  rewrite Hr, (scan_back_skips d _ _ _ _ (Forall_rev Hmid) Ht Htg) in E;
    cbn [bind] in E.
  destruct (combined d g tg) as [c|]; [|discriminate]; cbn [bind] in E.
  rewrite (visit_pushes d Hmove _ Hmid2) in E; cbn [visit] in E.
  rewrite Hr2, (scan_back_hits_none d _ _ (Forall_rev Hmid2)) in E.
  discriminate.
Qed.

(** X24.  [execute] is not total, for any move and retract and with
    the templates of either branch.  A layer holds a move that can take
    a retract in, lines that do not start with [G], a retract, again
    lines that do not start with [G], and a second retract.  The first
    retract is merged into the move and leaves the [None] of its slot
    behind; the scan back from the second retract comes to that slot
    before it comes to a move, and calls [startswith] on it: the run
    raises and returns nothing. *)
Theorem coast_retract_raises_below_merge
        (d : dialect) (data : list string) (i : nat) (layer : string)
        (pre mid mid2 post : list string) (t r r2 : string)
        (tg g g2 : list string) :
  coast_dialect d ->
  nth_error data i = Some layer ->
  split_nl layer = (pre ++ t :: mid ++ r :: mid2 ++ r2 :: post)%list ->
  takes_retract d t = true ->
  travel_re d t = Some tg ->
  Forall (fun x => startswith "G" x = false) mid ->
  retract_re d r = Some g ->
  Forall (fun x => startswith "G" x = false) mid2 ->
  retract_re d r2 = Some g2 ->
  returns (execute d data) = false.
Proof.
  intros Hd Hi Hsplit Ht Htg Hmid Hr Hmid2 Hr2.
  apply (execute_raises d data i layer Hi).
  eapply coast_layer_raises_below_merge; eauto.
Qed.

Lemma coast_retract_raises_below_merge_witness :
  coast_dialect Cura.coast_retract /\
  nth_error [join_nl ["G0 X10 Y10"; "G1 F2400 E-2"; "M400"; "G1 F2400 E-1"; ""]] 0
  = Some (join_nl ["G0 X10 Y10"; "G1 F2400 E-2"; "M400"; "G1 F2400 E-1"; ""]) /\
  split_nl (join_nl ["G0 X10 Y10"; "G1 F2400 E-2"; "M400"; "G1 F2400 E-1"; ""])
  = ([] ++ "G0 X10 Y10" :: [] ++ "G1 F2400 E-2"
        :: ["M400"] ++ "G1 F2400 E-1" :: [""])%list /\
  takes_retract Cura.coast_retract "G0 X10 Y10" = true /\
  travel_re Cura.coast_retract "G0 X10 Y10" = Some ["X10 Y10"] /\
  Forall (fun x => startswith "G" x = false) [] /\
  retract_re Cura.coast_retract "G1 F2400 E-2" = Some ["2400"; "-2"] /\
  Forall (fun x => startswith "G" x = false) ["M400"] /\
  retract_re Cura.coast_retract "G1 F2400 E-1" = Some ["2400"; "-1"] /\
  returns (execute Cura.coast_retract
             [join_nl ["G0 X10 Y10"; "G1 F2400 E-2"; "M400"; "G1 F2400 E-1"; ""]])
  = false.
Proof.
  assert (H1 : coast_dialect Cura.coast_retract) by (right; reflexivity).
  assert (H2 : Forall (fun x => startswith "G" x = false) (@nil string))
    by constructor.
  assert (H3 : Forall (fun x => startswith "G" x = false) ["M400"])
    by (repeat constructor).
  split; [exact H1|].
  split; [reflexivity|].
  split; [reflexivity|].
  split; [reflexivity|].
  split; [reflexivity|].
  split; [exact H2|].
  split; [reflexivity|].
  split; [exact H3|].
  split; [reflexivity|].
  exact (coast_retract_raises_below_merge Cura.coast_retract
           [join_nl ["G0 X10 Y10"; "G1 F2400 E-2"; "M400"; "G1 F2400 E-1"; ""]] 0
           (join_nl ["G0 X10 Y10"; "G1 F2400 E-2"; "M400"; "G1 F2400 E-1"; ""])
           [] [] ["M400"] [""] "G0 X10 Y10" "G1 F2400 E-2" "G1 F2400 E-1"
           ["X10 Y10"] ["2400"; "-2"] ["2400"; "-1"]
           H1 eq_refl eq_refl eq_refl eq_refl H2 eq_refl H3 eq_refl).
Defined.

End CoastDeletedSlot.

(** ** BedCool and TempRamp: the runs that return *)

Section ReadableOperands.









End ReadableOperands.
